(** * Verification of the gracestowel maintenance scripts

    Two batch scripts are embedded here:

    - [organize_stories.py], which scans a status file with one regular
      expression and moves the files it names into status folders;
    - [generate-product-images.py], which renders one PNG per entry of a
      fixed configuration list.

    Python text is a sequence of Unicode code points, a [dict] is an
    insertion-ordered association list, and the calls into [os], [shutil]
    and Pillow are the fields of an interface record, so that every theorem
    holds for any behaviour of the file system and of the imaging library.
    Code that can raise runs in a small state-and-exception monad in which
    the effects made before a [raise] stay in the state, as they do in
    Python.  [generate_image] appears twice: as one drawing step of the
    loop of [main], and call by call over a toolkit of Pillow calls that
    can stand for that step. *)

From Stdlib Require Import Ascii String.
From Stdlib Require Import List NArith ZArith Bool Lia.
From Stdlib Require DecimalString.
Import ListNotations.

Set Implicit Arguments.

(** ** Text *)

Module Text.

(** A code point, and a Python [str]. *)
Definition char := N.
Definition text := list char.

(** A literal of the source; every literal used below is ASCII except the
    two marks of the generator, which are given by their code points. *)
Definition lit (s : string) : text :=
  map N_of_ascii (list_ascii_of_string s).

Definition text_eqb (a b : text) : bool :=
  if list_eq_dec N.eq_dec a b then true else false.

(** [x in xs] on a list of strings. *)
Definition mem (x : text) (xs : list text) : bool := existsb (text_eqb x) xs.

(** [str(n)] for an [int]. *)
Definition str_of_int (n : Z) : text := lit (DecimalString.NilZero.string_of_int (Z.to_int n)).

(** [str.isspace] on one code point, which is also what [\s] matches in a
    [str] pattern. *)
Definition is_space (c : char) : bool :=
  ((9 <=? c) && (c <=? 13) || (28 <=? c) && (c <=? 32)
   || (c =? 133) || (c =? 160) || (c =? 5760)
   || (8192 <=? c) && (c <=? 8202)
   || (c =? 8232) || (c =? 8233) || (c =? 8239) || (c =? 8287)
   || (c =? 12288))%N.

Definition slash : char := 47%N.
Definition newline : char := 10%N.

(** [s.startswith(p)]. *)
Fixpoint startswith (p s : text) : bool :=
  match p, s with
  | [], _ => true
  | _ :: _, [] => false
  | a :: p', b :: s' => (a =? b)%N && startswith p' s'
  end.

(** [s.lstrip(c)] for a one-character argument: every leading [c] goes. *)
Fixpoint lstrip (c : char) (s : text) : text :=
  match s with
  | x :: s' => if (x =? c)%N then lstrip c s' else s
  | [] => []
  end.

(** [s.rstrip(c)] for a one-character argument. *)
Definition rstrip (c : char) (s : text) : text := rev (lstrip c (rev s)).

(** [s[i:j]] for [0 <= i <= j]. *)
Definition slice (i j : nat) (s : text) : text := firstn (j - i) (skipn i s).

(** The part of [s] after its last [c], and the part up to and including
    it; both are the whole or the empty text when [c] does not occur
    ([s[i:]] and [s[:i]] for [i = s.rfind(c) + 1]). *)
Fixpoint after_last (c : char) (s : text) : text :=
  match s with
  | [] => []
  | x :: s' =>
      if existsb (N.eqb c) s' then after_last c s'
      else if (x =? c)%N then s' else s
  end.

Fixpoint upto_last (c : char) (s : text) : text :=
  match s with
  | [] => []
  | x :: s' =>
      if existsb (N.eqb c) s' then x :: upto_last c s'
      else if (x =? c)%N then [x] else []
  end.

End Text.
Import Text.

(** ** posixpath *)

Module Path.

(** [os.path.basename(p)]: [p[p.rfind('/') + 1:]]. *)
Definition basename (p : text) : text := after_last slash p.

(** [os.path.dirname(p)]: the head up to the last slash, with its trailing
    slashes removed unless it consists of slashes only. *)
Definition dirname (p : text) : text :=
  let head := upto_last slash p in
  if forallb (N.eqb slash) head then head else rstrip slash head.

(** [os.path.join(a, b)]. *)
Definition join (a b : text) : text :=
  if startswith [slash] b then b
  else match rev a with
       | [] => b
       | x :: _ => if (x =? slash)%N then a ++ b else a ++ slash :: b
       end.

(** [os.path.join(a, b, c)]. *)
Definition join3 (a b c : text) : text := join (join a b) c.

End Path.

(** ** The regular expression of the organizer *)

Module Regex.

(** The pattern of [parse_stories_from_yaml] only repeats one-character
    classes, so a pattern is a sequence of such items.  [Group1] is a
    capturing group around a greedy [+]. *)
Inductive cclass := Space | NonSpace | Chr (c : char).

Inductive item :=
| One (k : cclass)
| Star (k : cclass)
| Plus (k : cclass)
| Group1 (k : cclass).

Definition accepts (k : cclass) (c : char) : bool :=
  match k with
  | Space => is_space c
  | NonSpace => negb (is_space c)
  | Chr d => (c =? d)%N
  end.

Definition word (s : string) : list item := map (fun c => One (Chr c)) (lit s).

(** A successful match: the captured groups in order, and the input left
    after the match. *)
Definition outcome := option (list text * text).

(** Greedy repetition with backtracking: the longest run of accepted
    characters is tried first and given back one character at a time
    until the continuation [k] succeeds.  [k] receives what the
    repetition consumed and what is left. *)
Fixpoint greedy (cl : cclass) (k : text -> text -> outcome)
                (taken : text) (s : text) : outcome :=
  match s with
  | c :: s' =>
      if accepts cl c then
        match greedy cl k (taken ++ [c]) s' with
        | Some r => Some r
        | None => k taken s
        end
      else k taken s
  | [] => k taken []
  end.

Fixpoint match_here (p : list item) (caps : list text) (s : text) : outcome :=
  match p with
  | [] => Some (caps, s)
  | One cl :: p' =>
      match s with
      | c :: s' => if accepts cl c then match_here p' caps s' else None
      | [] => None
      end
  | Star cl :: p' =>
      greedy cl (fun _ rest => match_here p' caps rest) [] s
  | Plus cl :: p' =>
      greedy cl (fun taken rest =>
                   match taken with
                   | [] => None
                   | _ :: _ => match_here p' caps rest
                   end) [] s
  | Group1 cl :: p' =>
      greedy cl (fun taken rest =>
                   match taken with
                   | [] => None
                   | _ :: _ => match_here p' (caps ++ [taken]) rest
                   end) [] s
  end.

(** [re.finditer(p, s)]: matches are searched from left to right and do
    not overlap.  [skip] counts the characters of the last match that are
    still to be stepped over; the patterns used here match no empty
    text. *)
Fixpoint finditer_from (p : list item) (skip : nat) (s : text) : list (list text) :=
  match s with
  | [] => []
  | _ :: s' =>
      match skip with
      | S n => finditer_from p n s'
      | O =>
          match match_here p [] s with
          | Some (caps, rest) =>
              caps :: finditer_from p (length s - length rest - 1) s'
          | None => finditer_from p 0 s'
          end
      end
  end.

Definition finditer (p : list item) (s : text) : list (list text) :=
  finditer_from p 0 s.

End Regex.

(** ** Python dictionaries *)

Module Dict.

(** A [dict] with string keys keeps its keys in insertion order; storing
    under a key that is present replaces the value where the key stands. *)
Definition dict (V : Type) := list (text * V).

Fixpoint set {V} (k : text) (v : V) (d : dict V) : dict V :=
  match d with
  | [] => [(k, v)]
  | (k', v') :: d' =>
      if text_eqb k' k then (k', v) :: d' else (k', v') :: set k v d'
  end.

Fixpoint get {V} (k : text) (d : dict V) : option V :=
  match d with
  | [] => None
  | (k', v') :: d' => if text_eqb k' k then Some v' else get k d'
  end.

Definition keys {V} (d : dict V) : list text := map fst d.

End Dict.


(** ** Effects *)

Module Eff.

(** A caught exception is used through [str(e)] only. *)
Definition exn := text.

Inductive result (A : Type) :=
| Return (a : A)
| Raise (e : exn).
Arguments Return {A} a.
Arguments Raise {A} e.

(** What a run does to its surroundings, in order. *)
Inductive event :=
| Printed (line : text)
| MakeDirs (path : text) (err : option exn)
| Move (src dst : text) (err : option exn)
| Save (path : text) (err : option exn).

(** The state of a run: the world outside the process and the trace of
    the effects made so far. *)
Record proc (W : Type) := { world : W; trace : list event }.

(** A computation that may raise; the state reached before a [raise] is
    kept. *)
Definition M (W A : Type) := proc W -> proc W * result A.

Definition ret {W A} (a : A) : M W A := fun st => (st, Return a).

Definition raise {W A} (e : exn) : M W A := fun st => (st, Raise e).

Definition bind {W A B} (c : M W A) (k : A -> M W B) : M W B :=
  fun st =>
    match c st with
    | (st', Return a) => k a st'
    | (st', Raise e) => (st', Raise e)
    end.

(** [try: c  except Exception as e: handler e]. *)
Definition try_except {W A} (c : M W A) (handler : exn -> M W A) : M W A :=
  fun st =>
    match c st with
    | (st', Return a) => (st', Return a)
    | (st', Raise e) => handler e st'
    end.

(** [for x in xs: acc = body x acc], for a body that rebinds the local
    variables [acc]. *)
Fixpoint for_each {W A B} (xs : list A) (body : A -> B -> M W B) (acc : B) : M W B :=
  match xs with
  | [] => ret acc
  | x :: xs' => bind (body x acc) (for_each xs' body)
  end.

(** The state after further effects that leave the world as it is. *)
Definition emit {W} (st : proc W) (evs : list event) : proc W :=
  {| world := world st; trace := trace st ++ evs |}.

Definition log {W} (e : event) : M W unit :=
  fun st => (emit st [e], Return tt).

(** [print(line)]. *)
Definition print {W} (line : text) : M W unit := log (Printed line).

(** A call that reads the world. *)
Definition ask {W A} (f : W -> result A) : M W A :=
  fun st => (st, f (world st)).

(** A call that changes the world and may raise after doing so; [ev]
    records the call. *)
Definition act {W} (f : W -> W * option exn) (ev : option exn -> event) : M W unit :=
  fun st =>
    let (w', r) := f (world st) in
    ({| world := w'; trace := trace st ++ [ev r] |},
     match r with None => Return tt | Some e => Raise e end).

(** The exit status of a process from the run [r] of its top level: [code]
    of the value when the top level returns, and 1 when an exception
    reaches it. *)
Definition exit_status {W A} (code : A -> Z) (r : proc W * result A) : Z :=
  match snd r with
  | Return a => code a
  | Raise _ => 1%Z
  end.

(** The lines written to the console. *)
Definition stdout (t : list event) : list text :=
  flat_map (fun e => match e with Printed l => [l] | _ => [] end) t.

End Eff.
Import Eff.

Declare Scope eff_scope.
Delimit Scope eff_scope with eff.
Notation "x <- c ;; k" := (bind c (fun x => k))
  (at level 61, c at next level, right associativity) : eff_scope.
Notation "c ;; k" := (bind c (fun _ => k))
  (at level 61, right associativity) : eff_scope.
Open Scope eff_scope.

(** ** The operating system *)

(** The calls of [os], [shutil] and [open] that the scripts make, over a
    world [W]. *)
Record OS (W : Type) := {
  (** [open(p, 'r')] followed by [read()]. *)
  read_text : W -> text -> result text;
  (** [os.makedirs(p, exist_ok=True)]. *)
  makedirs : W -> text -> W * option exn;
  (** [os.path.exists(p)]. *)
  path_exists : W -> text -> bool;
  (** [shutil.move(src, dst)]. *)
  move : W -> text -> text -> W * option exn;
  (** [os.path.getsize(p)]. *)
  getsize : W -> text -> result Z
}.

(** ** organize_stories.py *)

Module Organizer.

Definition YAML_PATH : text :=
  lit "/Users/leonliang/Github Repo/gracestowel/docs/sprint/sprint-artifacts/sprint-status.yaml".
Definition BASE_DIR : text :=
  lit "/Users/leonliang/Github Repo/gracestowel/docs/sprint/sprint-artifacts".

Definition STATUS_FOLDERS : list text :=
  map lit ["done"; "ready-for-dev"; "in-progress"; "backlog"; "drafted"]%string.

Import Regex.

(** [(\S+):\s*\n\s+path:\s*(\S+)\s*\n\s+status:\s*(\S+)] *)
Definition pattern : list item :=
  [Group1 NonSpace; One (Chr 58%N); Star Space; One (Chr newline); Plus Space]
  ++ word "path:" ++ [Star Space; Group1 NonSpace; Star Space; One (Chr newline); Plus Space]
  ++ word "status:" ++ [Star Space; Group1 NonSpace].

(** [match.group(n)] for [n >= 1]. *)
Definition group (n : nat) (m : list text) : text := nth (n - 1) m [].

(** The body of the loop over the matches. *)
Definition add_story (stories : Dict.dict text) (m : list text) : Dict.dict text :=
  let path := group 2 m in
  let status := group 3 m in
  let filename := Path.basename path in
  Dict.set filename status stories.

(** The key under which a match is stored. *)
Definition key_of (m : list text) : text := Path.basename (group 2 m).

Definition stories_of (content : text) : Dict.dict text :=
  fold_left add_story (finditer pattern content) [].

(** [status if status in STATUS_FOLDERS else 'backlog'] *)
Definition target_folder (status : text) : text :=
  if mem status STATUS_FOLDERS then status else lit "backlog".

Section WithOS.
Context {W : Type} (os : OS W).

Definition parse_stories_from_yaml : M W (Dict.dict text) :=
  content <- ask (fun w => read_text os w YAML_PATH) ;;
  ret (stories_of content).

(** One turn of the loop over [stories.items()]; the pair is
    [(moved_count, skipped_count)]. *)
Definition organize_item (story : text * text) (counts : Z * Z) : M W (Z * Z) :=
  let (filename, status) := story in
  let (moved_count, skipped_count) := counts in
  let src_path := Path.join BASE_DIR filename in
  present <- ask (fun w => Return (path_exists os w src_path)) ;;
  if negb present then ret counts
  else
    let target := target_folder status in
    let target_path := Path.join3 BASE_DIR target filename in
    try_except
      (act (fun w => move os w src_path target_path) (Move src_path target_path) ;;
       print (lit "Moved to " ++ target ++ lit "/: " ++ filename) ;;
       ret (moved_count + 1, skipped_count)%Z)
      (fun e =>
         print (lit "Error moving " ++ filename ++ lit ": " ++ e) ;;
         ret (moved_count, skipped_count + 1)%Z).

Definition create_folder (folder : text) (_ : unit) : M W unit :=
  let folder_path := Path.join BASE_DIR folder in
  act (fun w => makedirs os w folder_path) (MakeDirs folder_path) ;;
  print (lit "Created/verified folder: " ++ folder ++ lit "/").

(** Whether [os.makedirs] returns for each of [folders] in turn,
    starting in the world [w]. *)
Fixpoint folders_creatable (w : W) (folders : list text) : bool :=
  match folders with
  | [] => true
  | folder :: rest =>
      match makedirs os w (Path.join BASE_DIR folder) with
      | (w', None) => folders_creatable w' rest
      | (_, Some _) => false
      end
  end.

Definition organize_stories : M W unit :=
  print (lit "Parsing sprint-status.yaml...") ;;
  stories <- parse_stories_from_yaml ;;
  print (lit "Found " ++ str_of_int (Z.of_nat (length stories)) ++ lit " stories with paths") ;;
  for_each STATUS_FOLDERS create_folder tt ;;
  counts <- for_each stories organize_item (0, 0)%Z ;;
  print (newline :: lit "--- Summary ---") ;;
  print (lit "Moved: " ++ str_of_int (fst counts) ++ lit " files") ;;
  print (lit "Skipped/Not found: " ++ str_of_int (snd counts) ++ lit " files").

(** The three lines that end a run of [organize_stories], for the final
    [(moved_count, skipped_count)]. *)
Definition summary (counts : Z * Z) : list event :=
  [Printed (newline :: lit "--- Summary ---");
   Printed (lit "Moved: " ++ str_of_int (fst counts) ++ lit " files");
   Printed (lit "Skipped/Not found: " ++ str_of_int (snd counts) ++ lit " files")].

(** The script run as a program. *)
Definition script : M W unit :=
  organize_stories ;;
  print (lit "Done!").

Definition exit_code (w : W) : Z :=
  exit_status (fun _ => 0%Z) (script {| world := w; trace := [] |}).

End WithOS.

End Organizer.

(** ** The Python runtime *)

(** Three tables of the interpreter are taken as given: the Unicode decimal
    digit value of a code point above ASCII, [repr] of a string, and the
    rendering [f"{n / 1024:.1f}"] of a byte count. *)
Record Runtime := {
  unicode_decimal : char -> option Z;
  repr : text -> text;
  format_kb : Z -> text
}.

Module Builtins.

(** What [int(s, base)] does to a [str] before reading it: code points
    below 127 stay, other white space becomes a blank, other decimal
    digits become ASCII digits, and anything else becomes a character
    that no number contains. *)
Definition to_ascii (rt : Runtime) (c : char) : char :=
  if (c <? 127)%N then c
  else if is_space c then 32%N
  else match unicode_decimal rt c with
       | Some d => (48 + Z.to_N d)%N
       | None => 63%N
       end.

(** White space of the C locale. *)
Definition c_space (c : char) : bool :=
  ((9 <=? c) && (c <=? 13) || (c =? 32))%N.

Fixpoint skip_space (s : text) : text :=
  match s with
  | c :: s' => if c_space c then skip_space s' else s
  | [] => []
  end.

(** The value of a character as a digit of any base up to 36. *)
Definition digit_value (c : char) : option Z :=
  if ((48 <=? c) && (c <=? 57))%N then Some (Z.of_N c - 48)%Z
  else if ((97 <=? c) && (c <=? 122))%N then Some (Z.of_N c - 87)%Z
  else if ((65 <=? c) && (c <=? 90))%N then Some (Z.of_N c - 55)%Z
  else None.

Definition underscore : char := 95%N.

(** The digits of a hexadecimal literal: single underscores may separate
    digits.  The result is the value, the number of digits and the rest
    of the input. *)
Fixpoint scan16 (acc : Z) (count : nat) (after_underscore : bool) (s : text)
  : option (Z * nat * text) :=
  let stop := if after_underscore then None else Some (acc, count, s) in
  match s with
  | [] => stop
  | c :: s' =>
      if (c =? underscore)%N then
        if after_underscore then None else scan16 acc count true s'
      else
        match digit_value c with
        | Some d =>
            if (d <? 16)%Z then scan16 (acc * 16 + d) (S count) false s'
            else stop
        | None => stop
        end
  end.

(** [int(s, 16)]; [None] stands for [ValueError]. *)
Definition int16 (rt : Runtime) (s : text) : option Z :=
  let s1 := skip_space (map (to_ascii rt) s) in
  let (sign, s2) :=
    match s1 with
    | 43%N :: r => (1, r)%Z
    | 45%N :: r => (-1, r)%Z
    | _ => (1, s1)%Z
    end in
  let s3 :=
    match s2 with
    | 48%N :: 120%N :: r | 48%N :: 88%N :: r =>
        match r with
        | 95%N :: r' => r'
        | _ => r
        end
    | _ => s2
    end in
  match s3 with
  | 95%N :: _ => None
  | _ =>
      match scan16 0 0 false s3 with
      | Some (v, S _, rest) =>
          match skip_space rest with
          | [] => Some (sign * v)%Z
          | _ :: _ => None
          end
      | _ => None
      end
  end.

End Builtins.

(** ** generate-product-images.py *)

(** One entry of [IMAGE_CONFIGS]. *)
Record Config := {
  product : text;
  variant : text;
  color : text;
  index : Z;
  width : Z;
  height : Z
}.

(** The calls into Pillow, over a world [W] and a type [Img] of images. *)
Record Pillow (W Img : Type) := {
  (** What [generate_image] does once the colour is known: the canvas, the
      dot texture, the fonts and the three labels. *)
  draw_image : W -> Config -> Z * Z * Z -> result Img;
  (** [img.save(filepath, "PNG", optimize=True, compress_level=9)]. *)
  save : W -> Img -> text -> W * option exn
}.

Module Generator.

Definition entry (p v c : string) (i w h : Z) : Config :=
  {| product := lit p; variant := lit v; color := lit c;
     index := i; width := w; height := h |}.

Definition IMAGE_CONFIGS : list Config :=
  [ entry "nuzzle" "cloud-white" "#F5F5F0" 1 800 800;
    entry "nuzzle" "cloud-white" "#F5F5F0" 2 800 800;
    entry "nuzzle" "sage" "#9CAF88" 1 800 800;
    entry "nuzzle" "sage" "#9CAF88" 2 800 800;
    entry "nuzzle" "terra-cotta" "#C17A5F" 1 800 800;
    entry "nuzzle" "terra-cotta" "#C17A5F" 2 800 800;
    entry "cradle" "cloud-white" "#F5F5F0" 1 800 1000;
    entry "cradle" "cloud-white" "#F5F5F0" 2 800 1000;
    entry "cradle" "charcoal" "#36454F" 1 800 1000;
    entry "cradle" "charcoal" "#36454F" 2 800 1000;
    entry "cradle" "navy" "#001F3F" 1 800 1000;
    entry "cradle" "navy" "#001F3F" 2 800 1000;
    entry "bearhug" "cloud-white" "#F5F5F0" 1 1000 1200;
    entry "bearhug" "cloud-white" "#F5F5F0" 2 1000 1200;
    entry "bearhug" "sand" "#C2B280" 1 1000 1200;
    entry "bearhug" "sand" "#C2B280" 2 1000 1200;
    entry "bearhug" "stone" "#8B8680" 1 1000 1200;
    entry "bearhug" "stone" "#8B8680" 2 1000 1200;
    entry "sandbar" "sunset-orange" "#FF6B35" 1 1200 1500;
    entry "sandbar" "sunset-orange" "#FF6B35" 2 1200 1500;
    entry "sandbar" "ocean-blue" "#006994" 1 1200 1500;
    entry "sandbar" "ocean-blue" "#006994" 2 1200 1500;
    entry "chefs-mate" "checkered-red" "#B22222" 1 800 1000;
    entry "chefs-mate" "checkered-red" "#B22222" 2 800 1000;
    entry "chefs-mate" "classic-stripe" "#2F4F4F" 1 800 1000;
    entry "chefs-mate" "classic-stripe" "#2F4F4F" 2 800 1000;
    entry "hearth" "walnut" "#5C4033" 1 1000 1200;
    entry "hearth" "walnut" "#5C4033" 2 1000 1200;
    entry "hearth" "slate" "#708090" 1 1000 1200;
    entry "hearth" "slate" "#708090" 2 1000 1200;
    entry "wool-dryer-balls" "natural" "#D4A574" 1 800 800 ]%Z.

Definition hash : char := 35%N.

(** [int(s, 16)] with its exception. *)
Definition int_of_hex (rt : Runtime) (s : text) : result Z :=
  match Builtins.int16 rt s with
  | Some v => Return v
  | None => Raise (lit "invalid literal for int() with base 16: " ++ repr rt s)
  end.

(** [tuple(int(hex_color[i:i+2], 16) for i in (0, 2, 4))] after
    [hex_color.lstrip('#')]. *)
Definition hex_to_rgb (rt : Runtime) (hex_color : text) : result (Z * Z * Z) :=
  let hex_color := lstrip hash hex_color in
  match int_of_hex rt (slice 0 2 hex_color) with
  | Raise e => Raise e
  | Return r =>
      match int_of_hex rt (slice 2 4 hex_color) with
      | Raise e => Raise e
      | Return g =>
          match int_of_hex rt (slice 4 6 hex_color) with
          | Raise e => Raise e
          | Return b => Return (r, g, b)
          end
      end
  end.

(** [f"{config['product']}-{config['variant']}-0{config['index']}"] *)
Definition label (config : Config) : text :=
  product config ++ lit "-" ++ variant config ++ lit "-0" ++ str_of_int (index config).

(** The [filename] of [main]. *)
Definition output_name (config : Config) : text := label config ++ lit ".png".

Definition check_mark : char := 10003%N.
Definition ballot_x : char := 10007%N.

Section WithPlatform.
Context {W Img : Type} (rt : Runtime) (os : OS W) (pil : Pillow W Img).
(** [__file__] *)
Context (script_file : text).

Definition UPLOADS_DIR : text :=
  Path.join (Path.dirname (Path.dirname (Path.dirname script_file))) (lit "uploads").

(** The [filepath] of [main]. *)
Definition output_path (config : Config) : text :=
  Path.join UPLOADS_DIR (output_name config).

(** The line printed for an entry that was written, and for one that
    was not. *)
Definition done_line (config : Config) (size : Z) : text :=
  check_mark :: lit " Generated: " ++ output_name config
             ++ lit " (" ++ format_kb rt size ++ lit "KB)".

Definition failed_line (config : Config) (e : exn) : text :=
  ballot_x :: lit " Failed to generate " ++ label config ++ lit ": " ++ e.

Definition generate_image (config : Config) : M W Img :=
  rgb <- ask (fun _ => hex_to_rgb rt (color config)) ;;
  ask (fun w => draw_image pil w config rgb).

(** The [try] block of the loop of [main]; the pair is
    [(generated, errors)]. *)
Definition main_try (config : Config) (counts : Z * Z) : M W (Z * Z) :=
  let (generated, errors) := counts in
  let filename := output_name config in
  let filepath := Path.join UPLOADS_DIR filename in
  img <- generate_image config ;;
  act (fun w => save pil w img filepath) (Save filepath) ;;
  size <- ask (fun w => getsize os w filepath) ;;
  print (check_mark :: lit " Generated: " ++ filename
         ++ lit " (" ++ format_kb rt size ++ lit "KB)") ;;
  ret (generated + 1, errors)%Z.

(** The [except] block. *)
Definition main_except (config : Config) (counts : Z * Z) (e : exn) : M W (Z * Z) :=
  let (generated, errors) := counts in
  print (ballot_x :: lit " Failed to generate " ++ label config ++ lit ": " ++ e) ;;
  ret (generated, errors + 1)%Z.

(** One turn of the loop. *)
Definition main_item (config : Config) (counts : Z * Z) : M W (Z * Z) :=
  try_except (main_try config counts) (main_except config counts).

Definition main_loop : M W (Z * Z) := for_each IMAGE_CONFIGS main_item (0, 0)%Z.

Definition main : M W Z :=
  print (lit "Generating optimized product images...") ;;
  print (lit "Output directory: " ++ UPLOADS_DIR) ;;
  counts <- main_loop ;;
  print (newline :: lit "Completed: " ++ str_of_int (fst counts)
         ++ lit " images generated, " ++ str_of_int (snd counts) ++ lit " errors") ;;
  ret (if (snd counts =? 0)%Z then 0 else 1)%Z.

(** The script run as a program: the uploads directory is made when the
    module is loaded, then [sys.exit(main())]. *)
Definition script : M W Z :=
  act (fun w => makedirs os w UPLOADS_DIR) (MakeDirs UPLOADS_DIR) ;;
  main.

Definition exit_code (w : W) : Z :=
  exit_status (fun code => code) (script {| world := w; trace := [] |}).

End WithPlatform.

End Generator.

(** ** A world to run the scripts in *)

(** A small file system: the files with their contents, the directories,
    and the paths on which every change fails. *)
Module Sim.

Record fs := {
  files : list (text * text);
  dirs : list text;
  locked : list text
}.

Definition denied : exn := lit "[Errno 13] Permission denied".
Definition missing : exn := lit "[Errno 2] No such file or directory".

Definition remove (p : text) (l : list (text * text)) : list (text * text) :=
  filter (fun e => negb (text_eqb (fst e) p)) l.

Definition sim_os : OS fs := {|
  read_text w p :=
    match Dict.get p (files w) with
    | Some c => Return c
    | None => Raise missing
    end;
  makedirs w p :=
    if mem p (locked w) then (w, Some denied)
    else ({| files := files w; dirs := p :: dirs w; locked := locked w |}, None);
  path_exists w p :=
    match Dict.get p (files w) with
    | Some _ => true
    | None => mem p (dirs w)
    end;
  move w src dst :=
    match Dict.get src (files w) with
    | Some c =>
        if mem dst (locked w) then (w, Some denied)
        else ({| files := (dst, c) :: remove src (files w);
                 dirs := dirs w; locked := locked w |}, None)
    | None => (w, Some missing)
    end;
  getsize w p :=
    match Dict.get p (files w) with
    | Some c => Return (Z.of_nat (length c))
    | None => Raise missing
    end
|}.

(** Images are their colour; drawing always succeeds. *)
Definition sim_pil : Pillow fs (Z * Z * Z) := {|
  draw_image _ _ rgb := Return rgb;
  save w _ p :=
    if mem p (locked w) then (w, Some denied)
    else ({| files := (p, lit "PNG") :: remove p (files w);
             dirs := dirs w; locked := locked w |}, None)
|}.

(** A runtime that knows no digits outside ASCII, quotes without escaping
    and rounds a byte count to tenths of 1024 bytes, halves to even. *)
Definition sim_rt : Runtime := {|
  unicode_decimal _ := None;
  repr s := lit "'" ++ s ++ lit "'";
  format_kb n :=
    let q := (n * 10 / 1024)%Z in
    let r := (n * 10 mod 1024)%Z in
    let t := (if (512 <? r) || (r =? 512) && Z.odd q then q + 1 else q)%Z in
    str_of_int (t / 10) ++ lit "." ++ str_of_int (t mod 10)
|}.

Definition start (w : fs) : proc fs := {| world := w; trace := [] |}.

End Sim.

(** ** Observations on traces *)

Module Obs.

(** The calls of [shutil.move] that returned, and those that raised. *)
Definition moves_done (t : list event) : Z :=
  Z.of_nat (length (filter (fun e => match e with Move _ _ None => true | _ => false end) t)).

Definition moves_failed (t : list event) : Z :=
  Z.of_nat (length (filter (fun e => match e with Move _ _ (Some _) => true | _ => false end) t)).

(** The files that [save] has written. *)
Definition saved (t : list event) : list text :=
  flat_map (fun e => match e with Save p None => [p] | _ => [] end) t.

(** The console lines that begin with the character [c]. *)
Definition lines_with (c : char) (t : list event) : Z :=
  Z.of_nat (length (filter (fun l => match l with x :: _ => (x =? c)%N | [] => false end)
                           (stdout t))).

End Obs.

(** ** Hexadecimal digits *)

Module Hex.

(** The digit of value [v] below 16, in capitals or not. *)
Definition digit (capital : bool) (v : nat) : char :=
  nth v (lit (if capital then "0123456789ABCDEF" else "0123456789abcdef")) 0%N.

(** The value of a pair of digits. *)
Definition pair_value (hi lo : nat) : Z := (16 * Z.of_nat hi + Z.of_nat lo)%Z.

End Hex.

(** ** Inputs for the runs below *)

Module Examples.

Import Organizer.

Definition line (s : string) : text := lit s ++ [newline].

(** Two entries whose paths end in the same file name. *)
Definition twice : text :=
  line "development_status:" ++
  line "  story-1:" ++
  line "    path: docs/sprint/sprint-artifacts/1-1-cart.md" ++
  line "    status: done" ++
  line "  story-1-copy:" ++
  line "    path: archive/1-1-cart.md" ++
  line "    status: in-progress".

(** Three entries; the status of the second is not a folder name. *)
Definition three : text :=
  line "development_status:" ++
  line "  a:" ++
  line "    path: docs/a.md" ++
  line "    status: done" ++
  line "  b:" ++
  line "    path: docs/b.md" ++
  line "    status: review" ++
  line "  c:" ++
  line "    path: docs/c.md" ++
  line "    status: drafted".

Definition at_base (name : string) : text := Path.join BASE_DIR (lit name).

(** No status file. *)
Definition bare : Sim.fs := {| Sim.files := []; Sim.dirs := []; Sim.locked := [] |}.

(** The status file [three]; [a.md] and [c.md] are there, [b.md] is not,
    and nothing can be put at [done/a.md]. *)
Definition partial : Sim.fs :=
  {| Sim.files := [(YAML_PATH, three); (at_base "a.md", lit "A"); (at_base "c.md", lit "C")];
     Sim.dirs := [BASE_DIR];
     Sim.locked := [Path.join3 BASE_DIR (lit "done") (lit "a.md")] |}.

(** The status file [three] and the three files. *)
Definition full : Sim.fs :=
  {| Sim.files := [(YAML_PATH, three); (at_base "a.md", lit "A");
                   (at_base "b.md", lit "B"); (at_base "c.md", lit "C")];
     Sim.dirs := [BASE_DIR];
     Sim.locked := [] |}.

(** The status file [three] and the three files; the folder
    [in-progress] cannot be made. *)
Definition no_folder : Sim.fs :=
  {| Sim.files := [(YAML_PATH, three); (at_base "a.md", lit "A");
                   (at_base "b.md", lit "B"); (at_base "c.md", lit "C")];
     Sim.dirs := [BASE_DIR];
     Sim.locked := [at_base "in-progress"] |}.

(** Where the generator lives. *)
Definition script_file : text := lit "/srv/app/src/scripts/generate-product-images.py".

(** The second image of the first variant cannot be written. *)
Definition one_locked : Sim.fs :=
  {| Sim.files := []; Sim.dirs := [];
     Sim.locked := [lit "/srv/app/uploads/nuzzle-cloud-white-02.png"] |}.

End Examples.

(** ** What a pattern matches *)

(** The texts a pattern matches, said without reference to any search
    order: [Parses p s g] holds when the items of [p] can share out the
    whole of [s] among themselves, the groups taking the texts [g]. *)
Module Lang.

Import Regex.

Inductive Parses : list item -> text -> list text -> Prop :=
| parses_end : Parses [] [] []
| parses_one cl c p s g :
    accepts cl c = true -> Parses p s g -> Parses (One cl :: p) (c :: s) g
| parses_star cl run p s g :
    Forall (fun c => accepts cl c = true) run ->
    Parses p s g -> Parses (Star cl :: p) (run ++ s) g
| parses_plus cl run p s g :
    run <> [] -> Forall (fun c => accepts cl c = true) run ->
    Parses p s g -> Parses (Plus cl :: p) (run ++ s) g
| parses_group cl run p s g :
    run <> [] -> Forall (fun c => accepts cl c = true) run ->
    Parses p s g -> Parses (Group1 cl :: p) (run ++ s) (run :: g).

(** The classes of the groups of a pattern, in order. *)
Fixpoint group_classes (p : list item) : list cclass :=
  match p with
  | [] => []
  | Group1 cl :: p' => cl :: group_classes p'
  | _ :: p' => group_classes p'
  end.

(** A text made of at least one character of a class. *)
Definition run_of (cl : cclass) (t : text) : Prop :=
  t <> [] /\ Forall (fun c => accepts cl c = true) t.

End Lang.

(** ** Keys in order of appearance *)

Module Seen.

(** The elements of a list without their repetitions, each where it comes
    first. *)
Fixpoint first_seen (ks : list text) : list text :=
  match ks with
  | [] => []
  | k :: ks' => k :: filter (fun x => negb (text_eqb x k)) (first_seen ks')
  end.

(** A text without white space that is not empty. *)
Definition word_like (t : text) : Prop :=
  t <> [] /\ Forall (fun c => is_space c = false) t.

(** [content] has an entry that the pattern of the organizer matches. *)
Definition has_entry (content : text) : Prop :=
  exists before entry after g,
    content = before ++ entry ++ after /\ Lang.Parses Organizer.pattern entry g.

End Seen.

(** ** Shapes of paths *)

Module PathShape.

(** A path that is not empty and does not end in a slash. *)
Definition open_ended (t : text) : Prop := exists front l, t = front ++ [l] /\ l <> slash.

End PathShape.

(** ** Effects that stay where they should *)

Module Confined.

Import Organizer.

(** The name of one entry of a directory: it is not empty, it has no
    slash, and it is neither [.], the directory itself, nor [..], the
    directory above. *)
Definition component (name : text) : Prop :=
  name <> [] /\ ~ In slash name /\ name <> lit "." /\ name <> lit "..".

(** A name that is not empty and is neither [.] nor [..]. *)
Definition proper (name : text) : Prop :=
  name <> [] /\ name <> lit "." /\ name <> lit "..".

(** An effect of the organizer that stays inside the base directory: a
    line on the console, the making of one of the status folders, or the
    move of an entry at the root of the base directory into one of the
    status folders, under the same name. *)
Definition inside_base (ev : event) : Prop :=
  match ev with
  | Printed _ => True
  | MakeDirs p _ =>
      exists folder, In folder STATUS_FOLDERS /\ p = BASE_DIR ++ slash :: folder
  | Move src dst _ =>
      exists name folder,
        component name /\ In folder STATUS_FOLDERS
        /\ src = BASE_DIR ++ slash :: name
        /\ dst = BASE_DIR ++ slash :: folder ++ slash :: name
  | Save _ _ => False
  end.

(** Every file name that is read from the status file is a proper name. *)
Definition plain_names (content : text) : Prop :=
  Forall (fun story : text * text => proper (fst story)) (stories_of content).

(** No file is moved. *)
Definition no_move (ev : event) : Prop :=
  match ev with
  | Move _ _ _ => False
  | _ => True
  end.

End Confined.

(** ** What the generator reports and where it writes *)

Module Report.

Import Generator.

(** [line] is the line that [main] prints for [config]: the one for a
    written entry, with some size, or the one for a refused entry, with
    some exception. *)
Definition reports (rt : Runtime) (config : Config) (line : text) : Prop :=
  (exists size, line = done_line rt config size)
  \/ (exists ex, line = failed_line config ex).

(** An effect of [main] that stays inside the uploads directory: a line on
    the console, or a call of [save] on the file of a configured entry,
    directly under that directory. *)
Definition inside_uploads (script_file : text) (ev : event) : Prop :=
  match ev with
  | Printed _ => True
  | Save p _ =>
      exists config,
        In config IMAGE_CONFIGS
        /\ p = UPLOADS_DIR script_file ++ slash :: output_name config
  | _ => False
  end.

(** An entry whose colour has three digits. *)
Definition short_colour : Config := entry "nuzzle" "sage" "#9A8" 1 800 800.

End Report.

(** ** generate_image, call by call *)

(** The calls that [generate_image] makes into Pillow, each of which may
    raise.  A call that draws returns the image drawn on.  [str_title] is
    [str.title], taken as given. *)
Record Toolkit (W Img Font : Type) := {
  (** [Image.new(mode, size, color)]. *)
  image_new : text -> Z * Z -> list Z -> result Img;
  (** [ImageDraw.Draw(img)]. *)
  image_draw : Img -> result unit;
  (** [draw.rectangle(box, fill=fill)]. *)
  rectangle : Img -> Z * Z * Z * Z -> Z * Z * Z * Z -> result Img;
  (** [img.convert(mode)]. *)
  convert : Img -> text -> result Img;
  (** [Image.alpha_composite(a, b)]. *)
  alpha_composite : Img -> Img -> result Img;
  (** [ImageFont.truetype(path, size)]. *)
  truetype : W -> text -> Z -> result Font;
  (** [ImageFont.load_default()]. *)
  load_default : W -> result Font;
  (** [draw.textbbox(xy, text, font=font)]. *)
  textbbox : Img -> Z * Z -> text -> option Font -> result (Z * Z * Z * Z);
  (** [draw.text(xy, text, fill=fill, font=font, anchor=anchor)]. *)
  draw_text : Img -> Z * Z -> text -> Z * Z * Z * Z -> option Font -> option text
              -> result Img;
  str_title : text -> text
}.

Module Render.

(** Sequencing of calls that may raise, and [try: r  except: handler]. *)
Definition and_then {A B} (r : result A) (k : A -> result B) : result B :=
  match r with
  | Return a => k a
  | Raise e => Raise e
  end.

Definition or_else {A} (r : result A) (handler : result A) : result A :=
  match r with
  | Return a => Return a
  | Raise _ => handler
  end.

(** [range(0, stop, step)] for a positive [step]. *)
Definition range0 (stop step : Z) : list Z :=
  map (fun k => Z.of_nat k * step)%Z (seq 0 (Z.to_nat ((stop + step - 1) / step))).

(** The corners [(i, j)] for which the two loops draw a square, in the
    order in which they do. *)
Definition texture_cells (width height : Z) : list (Z * Z) :=
  flat_map (fun i =>
              flat_map (fun j => if ((i + j) mod 40 =? 0)%Z then [(i, j)] else [])
                       (range0 height 20))
           (range0 width 20).

(** [[i, j, i+10, j+10]] *)
Definition square (cell : Z * Z) : Z * Z * Z * Z :=
  let (i, j) := cell in (i, j, i + 10, j + 10)%Z.

(** The pixels that a square covers, both corners included. *)
Definition covers (cell : Z * Z) (x y : Z) : Prop :=
  (fst cell <= x <= fst cell + 10 /\ snd cell <= y <= snd cell + 10)%Z.

(** [((width - text_width) // 2, height // 2 + offset)] *)
Definition label_origin (width height text_width offset : Z) : Z * Z :=
  ((width - text_width) / 2, height / 2 + offset)%Z.

(** [s.replace("-", " ")] *)
Definition dashes_to_blanks (s : text) : text :=
  map (fun c => if (c =? 45)%N then 32%N else c) s.

Definition font_path : text := lit "/System/Library/Fonts/Helvetica.ttc".

Section WithToolkit.
Context {W Img Font : Type} (rt : Runtime) (tk : Toolkit W Img Font).

(** The fonts [(font_large, font_medium, font_small)] after the two
    nested [try] blocks. *)
Definition load_fonts (w : W) : result (option Font * option Font * option Font) :=
  or_else
    (and_then (truetype tk w font_path 48) (fun font_large =>
     and_then (truetype tk w font_path 36) (fun font_medium =>
     and_then (truetype tk w font_path 24) (fun font_small =>
     Return (Some font_large, Some font_medium, Some font_small)))))
    (or_else
       (and_then (load_default tk w) (fun font_large =>
        and_then (load_default tk w) (fun font_medium =>
        and_then (load_default tk w) (fun font_small =>
        Return (Some font_large, Some font_medium, Some font_small)))))
       (Return (None, None, None))).

(** The two loops over the overlay. *)
Fixpoint draw_texture (overlay : Img) (cells : list (Z * Z)) : result Img :=
  match cells with
  | [] => Return overlay
  | cell :: cells' =>
      and_then (rectangle tk overlay (square cell) (255, 255, 255, 25)%Z)
               (fun overlay' => draw_texture overlay' cells')
  end.

(** One label measured and drawn with its font. *)
Definition draw_centred (img : Img) (width height offset : Z) (label : text)
           (font : option Font) : result Img :=
  and_then (textbbox tk img (0, 0)%Z label font) (fun bbox =>
  let '(x0, _, x1, _) := bbox in
  let text_width := (x1 - x0)%Z in
  draw_text tk img (label_origin width height text_width offset) label
            (0, 0, 0, 76)%Z font None).

(** One label drawn without a font, anchored in its middle. *)
Definition draw_anchored (img : Img) (width height offset : Z) (label : text)
  : result Img :=
  draw_text tk img (width / 2, height / 2 + offset)%Z label (0, 0, 0, 76)%Z
            None (Some (lit "mm")).

(** What [generate_image] does after it has read the colour. *)
Definition draw (w : W) (config : Config) (rgb : Z * Z * Z) : result Img :=
  let width := width config in
  let height := height config in
  let '(r, g, b) := rgb in
  and_then (image_new tk (lit "RGB") (width, height) [r; g; b]) (fun img =>
  and_then (image_draw tk img) (fun _ =>
  and_then (image_new tk (lit "RGBA") (width, height) [255; 255; 255; 0]%Z) (fun overlay =>
  and_then (image_draw tk overlay) (fun _ =>
  and_then (draw_texture overlay (texture_cells width height)) (fun overlay =>
  and_then (convert tk img (lit "RGBA")) (fun rgba =>
  and_then (alpha_composite tk rgba overlay) (fun mixed =>
  and_then (convert tk mixed (lit "RGB")) (fun img =>
  and_then (image_draw tk img) (fun _ =>
  and_then (load_fonts w) (fun '(font_large, font_medium, font_small) =>
  let product_name := str_title tk (dashes_to_blanks (product config)) in
  let variant_name := str_title tk (dashes_to_blanks (variant config)) in
  let image_name := lit "Image " ++ str_of_int (index config) in
  match font_large with
  | Some _ =>
      and_then (draw_centred img width height (-60) product_name font_large) (fun img =>
      and_then (draw_centred img width height 0 variant_name font_medium) (fun img =>
      draw_centred img width height 60 image_name font_small))
  | None =>
      and_then (draw_anchored img width height (-30) product_name) (fun img =>
      and_then (draw_anchored img width height 0 variant_name) (fun img =>
      draw_anchored img width height 30 image_name))
  end)))))))))).

Definition generate_image (w : W) (config : Config) : result Img :=
  and_then (Generator.hex_to_rgb rt (color config)) (draw w config).

(** The toolkit as the Pillow of [main], with [save] added. *)
Definition as_pillow (save_png : W -> Img -> text -> W * option exn) : Pillow W Img :=
  {| draw_image := draw; save := save_png |}.

(** The drawing calls of the toolkit never raise. *)
Definition drawing_returns : Prop :=
  (forall mode size fill, exists img, image_new tk mode size fill = Return img)
  /\ (forall img, image_draw tk img = Return tt)
  /\ (forall img box fill, exists img', rectangle tk img box fill = Return img')
  /\ (forall img mode, exists img', convert tk img mode = Return img')
  /\ (forall a b, exists img', alpha_composite tk a b = Return img')
  /\ (forall img xy label font, exists bbox, textbbox tk img xy label font = Return bbox)
  /\ (forall img xy label fill font anchor,
         exists img', draw_text tk img xy label fill font anchor = Return img').

End WithToolkit.

End Render.

(** ** A toolkit to run generate_image with *)

Module SimDraw.

(** [str.title] on ASCII letters: a letter is a capital after anything
    that is not a letter, and small after a letter. *)
Fixpoint title_from (after_letter : bool) (s : text) : text :=
  match s with
  | [] => []
  | c :: s' =>
      let capital := ((65 <=? c) && (c <=? 90))%N in
      let small := ((97 <=? c) && (c <=? 122))%N in
      (if after_letter then (if capital then c + 32 else c)
       else (if small then c - 32 else c))%N
      :: title_from (capital || small) s'
  end.

(** An image is the list of the labels drawn on it, with their places.
    There is no font file; the default font makes every character six
    pixels wide when [fonts] is set, and cannot be loaded otherwise. *)
Definition sim_tk (fonts : bool) : Toolkit Sim.fs (list (Z * Z * text)) Z := {|
  image_new _ _ _ := Return [];
  image_draw _ := Return tt;
  rectangle img _ _ := Return img;
  convert img _ := Return img;
  alpha_composite a _ := Return a;
  truetype _ _ _ := Raise Sim.missing;
  load_default _ := if fonts then Return 6%Z else Raise Sim.missing;
  textbbox _ _ label _ := Return (0, 0, 6 * Z.of_nat (length label), 11)%Z;
  draw_text img xy label _ _ _ := Return (img ++ [(xy, label)]);
  str_title := title_from false
|}.

Definition save_png (w : Sim.fs) (img : list (Z * Z * text)) (p : text)
  : Sim.fs * option exn :=
  if mem p (Sim.locked w) then (w, Some Sim.denied)
  else ({| Sim.files := (p, lit "PNG") :: Sim.remove p (Sim.files w);
           Sim.dirs := Sim.dirs w; Sim.locked := Sim.locked w |}, None).

Definition chefs_mate : Config :=
  Generator.entry "chefs-mate" "classic-stripe" "#2F4F4F" 2 800 1000.

End SimDraw.

(** ** What a turn of the generator does to the world *)

(** The two ways in which [main] can deal with an entry, said in terms of
    the calls on the world and not of the loop: the entry is written, or it
    is refused.  A run over a list of entries is a chain of such turns,
    each starting where the one before ended. *)
Module Entry.

Import Generator.

Section WithPlatform.
Context {W Img : Type} (rt : Runtime) (os : OS W) (pil : Pillow W Img).
Context (script_file : text).

(** [UPLOADS_DIR/{product}-{variant}-0{index}.png] *)
Definition file_of (config : Config) : text :=
  Path.join (UPLOADS_DIR script_file)
            (product config ++ lit "-" ++ variant config ++ lit "-0"
             ++ str_of_int (index config) ++ lit ".png").

Inductive outcome :=
| Written (img : Img) (size : Z)
| Refused (ex : exn).

(** The colour was read and the image [img] drawn, in the world [w]. *)
Definition drawn (config : Config) (w : W) (img : Img) : Prop :=
  exists rgb,
    hex_to_rgb rt (color config) = Return rgb
    /\ draw_image pil w config rgb = Return img.

(** Reading the colour or drawing the image raised [ex]. *)
Definition not_drawn (config : Config) (w : W) (ex : exn) : Prop :=
  hex_to_rgb rt (color config) = Raise ex
  \/ exists rgb,
      hex_to_rgb rt (color config) = Return rgb
      /\ draw_image pil w config rgb = Raise ex.

(** The entry is written: its image is drawn, [save] puts it at the file
    of the entry and returns, the size of that file is read in the world
    that [save] left, and the line for a written entry is printed. *)
Definition written (config : Config) (st st' : proc W) (img : Img) (size : Z) : Prop :=
  drawn config (world st) img
  /\ save pil (world st) img (file_of config) = (world st', None)
  /\ getsize os (world st') (file_of config) = Return size
  /\ trace st' = trace st ++ [Save (file_of config) None;
                              Printed (done_line rt config size)].

(** The entry is refused with the exception [ex]: the image could not be
    drawn and the world is as it was; or [save] raised and left the world
    it left; or [save] returned but the size of the file could not be
    read, in which case the file is there although the entry counts as an
    error.  The line for a refused entry is printed in each case. *)
Definition refused (config : Config) (st st' : proc W) (ex : exn) : Prop :=
  (not_drawn config (world st) ex
   /\ world st' = world st
   /\ trace st' = trace st ++ [Printed (failed_line config ex)])
  \/ (exists img,
         drawn config (world st) img
         /\ save pil (world st) img (file_of config) = (world st', Some ex)
         /\ trace st' = trace st ++ [Save (file_of config) (Some ex);
                                     Printed (failed_line config ex)])
  \/ (exists img,
         drawn config (world st) img
         /\ save pil (world st) img (file_of config) = (world st', None)
         /\ getsize os (world st') (file_of config) = Raise ex
         /\ trace st' = trace st ++ [Save (file_of config) None;
                                     Printed (failed_line config ex)]).

(** One turn, with the counters [(generated, errors)] before and after. *)
Definition turn (config : Config) (counts : Z * Z) (st : proc W)
           (counts' : Z * Z) (st' : proc W) (o : outcome) : Prop :=
  match o with
  | Written img size =>
      written config st st' img size
      /\ counts' = (fst counts + 1, snd counts)%Z
  | Refused ex =>
      refused config st st' ex
      /\ counts' = (fst counts, snd counts + 1)%Z
  end.

Inductive run : list Config -> Z * Z -> proc W -> Z * Z -> proc W -> list outcome -> Prop :=
| run_done counts st : run [] counts st counts st []
| run_turn config configs counts st counts1 st1 counts2 st2 o outcomes :
    turn config counts st counts1 st1 o ->
    run configs counts1 st1 counts2 st2 outcomes ->
    run (config :: configs) counts st counts2 st2 (o :: outcomes).

Definition is_written (o : outcome) : Prop :=
  match o with Written _ _ => True | Refused _ => False end.

Definition is_refused (o : outcome) : Prop :=
  match o with Written _ _ => False | Refused _ => True end.

Definition wrote (o : outcome) : bool :=
  match o with Written _ _ => true | Refused _ => false end.

(** The entries written and the entries refused, counted. *)
Definition tally (outcomes : list outcome) : Z * Z :=
  (Z.of_nat (length (filter wrote outcomes)),
   Z.of_nat (length (filter (fun o => negb (wrote o)) outcomes))).

(** The two lines that [main] prints first, and the one it prints last. *)
Definition opening : list event :=
  [Printed (lit "Generating optimized product images...");
   Printed (lit "Output directory: " ++ UPLOADS_DIR script_file)].

Definition closing (counts : Z * Z) : list event :=
  [Printed (newline :: lit "Completed: " ++ str_of_int (fst counts)
            ++ lit " images generated, " ++ str_of_int (snd counts) ++ lit " errors")].

End WithPlatform.

End Entry.

(** * Properties *)

Arguments lit : simpl never.
Arguments Path.join : simpl never.
Arguments Path.join3 : simpl never.
Arguments str_of_int : simpl never.

(** ** Running computations *)

Module EffFacts.

Section Run.
Context {W : Type}.

Lemma bind_run {A B} (c : M W A) (k : A -> M W B) (st : proc W) :
  bind c k st
  = match c st with
    | (st', Return a) => k a st'
    | (st', Raise e) => (st', Raise e)
    end.
Proof. reflexivity. Qed.

Lemma print_run (l : text) (st : proc W) :
  print l st = (emit st [Printed l], Return tt).
Proof. reflexivity. Qed.

Lemma emit_emit (st : proc W) (a b : list event) :
  emit (emit st a) b = emit st (a ++ b).
Proof. unfold emit. simpl. now rewrite app_assoc. Qed.

Lemma world_emit (st : proc W) (a : list event) : world (emit st a) = world st.
Proof. reflexivity. Qed.

Lemma trace_emit (st : proc W) (a : list event) : trace (emit st a) = trace st ++ a.
Proof. reflexivity. Qed.

Lemma for_each_cons {A B} (x : A) (xs : list A) (body : A -> B -> M W B)
      (acc : B) (st : proc W) :
  for_each (x :: xs) body acc st
  = match body x acc st with
    | (st', Return acc') => for_each xs body acc' st'
    | (st', Raise e) => (st', Raise e)
    end.
Proof. reflexivity. Qed.

(** The loop over a list is the loop over its front followed by the
    loop over its back. *)
Lemma for_each_app {A B} (xs ys : list A) (body : A -> B -> M W B) :
  forall (acc : B) (st : proc W),
    for_each (xs ++ ys) body acc st
    = match for_each xs body acc st with
      | (st', Return acc') => for_each ys body acc' st'
      | (st', Raise e) => (st', Raise e)
      end.
Proof.
  induction xs as [| x xs IH]; intros acc st; [reflexivity |].
  rewrite <- app_comm_cons, !for_each_cons.
  destruct (body x acc st) as [st1 [acc1 | e]]; [apply IH | reflexivity].
Qed.

Lemma stdout_app (a b : list event) : stdout (a ++ b) = stdout a ++ stdout b.
Proof. unfold stdout. apply flat_map_app. Qed.

End Run.

End EffFacts.
Import EffFacts.

(** ** Text and dictionaries *)

Lemma text_eqb_eq (a b : text) : text_eqb a b = true <-> a = b.
Proof.
  unfold text_eqb. destruct (list_eq_dec N.eq_dec a b); split; congruence.
Qed.

Lemma text_eqb_neq (a b : text) : text_eqb a b = false <-> a <> b.
Proof.
  unfold text_eqb. destruct (list_eq_dec N.eq_dec a b); split; congruence.
Qed.

Lemma mem_In (x : text) (xs : list text) : mem x xs = true <-> In x xs.
Proof.
  unfold mem. rewrite existsb_exists. split.
  - intros [y [Hy He]]. apply text_eqb_eq in He. now subst.
  - intros H. exists x. split; [assumption | now apply text_eqb_eq].
Qed.

Module DictFacts.

Import Dict.

Lemma get_set_same {V} (k : text) (v : V) (d : dict V) :
  get k (set k v d) = Some v.
Proof.
  induction d as [| [k' v'] d IH]; simpl.
  - assert (H : text_eqb k k = true) by now apply text_eqb_eq.
    now rewrite H.
  - destruct (text_eqb k' k) eqn:E; simpl; rewrite E; [reflexivity | exact IH].
Qed.

Lemma get_set_other {V} (k k0 : text) (v : V) (d : dict V) :
  k <> k0 -> get k0 (set k v d) = get k0 d.
Proof.
  intros Hne. induction d as [| [k' v'] d IH]; simpl.
  - assert (H : text_eqb k k0 = false) by now apply text_eqb_neq.
    now rewrite H.
  - destruct (text_eqb k' k) eqn:E; simpl.
    + apply text_eqb_eq in E. subst k'.
      assert (H : text_eqb k k0 = false) by now apply text_eqb_neq.
      now rewrite H.
    + destruct (text_eqb k' k0); [reflexivity | exact IH].
Qed.

(** Storing under a key either leaves the keys as they are or adds the
    key at the end. *)
Lemma keys_set {V} (k : text) (v : V) (d : dict V) :
  keys (set k v d) = if mem k (keys d) then keys d else keys d ++ [k].
Proof.
  unfold keys. induction d as [| [k' v'] d IH]; simpl; [reflexivity |].
  unfold mem in *. simpl.
  destruct (text_eqb k' k) eqn:E.
  - apply text_eqb_eq in E. subst k'.
    assert (H : text_eqb k k = true) by now apply text_eqb_eq.
    now rewrite H.
  - assert (H : text_eqb k k' = false).
    { apply text_eqb_neq. apply text_eqb_neq in E. congruence. }
    rewrite H. simpl. rewrite IH.
    now destruct (existsb (text_eqb k) (map fst d)).
Qed.

Lemma keys_set_NoDup {V} (k : text) (v : V) (d : dict V) :
  NoDup (keys d) -> NoDup (keys (set k v d)).
Proof.
  intros Hd. rewrite keys_set. destruct (mem k (keys d)) eqn:E; [assumption |].
  apply NoDup_app; [assumption | repeat constructor; intros [] | ].
  intros x Hx [Hk | []]. subst x.
  apply mem_In in Hx. congruence.
Qed.

Lemma get_In_keys {V} (k : text) (v : V) (d : dict V) :
  get k d = Some v -> In k (keys d).
Proof.
  induction d as [| [k' v'] d IH]; simpl; [discriminate |].
  destruct (text_eqb k' k) eqn:E.
  - apply text_eqb_eq in E. now left.
  - intros H. right. now apply IH.
Qed.

End DictFacts.

(** ** The organizer: parsing *)

Module ParseFacts.

Import Organizer DictFacts.

Lemma add_story_key (d : Dict.dict text) (m : list text) :
  Dict.get (key_of m) (add_story d m) = Some (group 3 m).
Proof. apply get_set_same. Qed.

(** Later matches under other names do not touch an entry. *)
Lemma fold_other_keys (k : text) (ms : list (list text)) :
  forall d,
    (forall m', In m' ms -> key_of m' <> k) ->
    Dict.get k (fold_left add_story ms d) = Dict.get k d.
Proof.
  induction ms as [| m ms IH]; intros d Hms; simpl; [reflexivity |].
  rewrite IH.
  - apply get_set_other. apply Hms. now left.
  - intros m' Hm'. apply Hms. now right.
Qed.

Lemma fold_keys_NoDup (ms : list (list text)) :
  forall d, NoDup (Dict.keys d) -> NoDup (Dict.keys (fold_left add_story ms d)).
Proof.
  induction ms as [| m ms IH]; intros d Hd; simpl; [assumption |].
  apply IH. now apply keys_set_NoDup.
Qed.

Lemma stories_of_NoDup (content : text) : NoDup (Dict.keys (stories_of content)).
Proof. apply fold_keys_NoDup. constructor. Qed.

End ParseFacts.

(** C9. [parse_stories_from_yaml] keys its result by the base name of each
    matched path.  Whenever the status file can be read and [m] is the last
    match in file order whose path has a given base name, the returned
    dictionary holds this base name exactly once, and its value is the
    status captured by [m]; this covers every content in which several
    matched paths share a base name. *)
Theorem parse_last_status_per_basename :
  forall (W : Type) (os : OS W) (st : proc W) (content : text)
         (before after : list (list text)) (m : list text),
    read_text os (world st) Organizer.YAML_PATH = Return content ->
    Regex.finditer Organizer.pattern content = before ++ m :: after ->
    (forall m', In m' after ->
                Path.basename (Organizer.group 2 m') <> Path.basename (Organizer.group 2 m)) ->
    exists stories,
      Organizer.parse_stories_from_yaml os st = (st, Return stories)
      /\ Dict.get (Path.basename (Organizer.group 2 m)) stories = Some (Organizer.group 3 m)
      /\ count_occ (list_eq_dec N.eq_dec) (Dict.keys stories)
                   (Path.basename (Organizer.group 2 m)) = 1.
Proof.
  intros W os st content before after m Hread Hms Hlast.
  exists (Organizer.stories_of content).
  assert (Hget : Dict.get (Path.basename (Organizer.group 2 m)) (Organizer.stories_of content)
                 = Some (Organizer.group 3 m)).
  { unfold Organizer.stories_of. rewrite Hms, fold_left_app. simpl.
    rewrite ParseFacts.fold_other_keys by exact Hlast.
    apply ParseFacts.add_story_key. }
  split; [| split].
  - unfold Organizer.parse_stories_from_yaml, bind, ask, ret. now rewrite Hread.
  - exact Hget.
  - apply NoDup_count_occ'.
    + apply ParseFacts.stories_of_NoDup.
    + eapply DictFacts.get_In_keys. exact Hget.
Qed.

(** A run of C9: the two entries of [Examples.twice] name [1-1-cart.md];
    the dictionary has one entry for it, with the second status. *)
Lemma parse_last_status_per_basename_witness :
  exists stories,
    Organizer.parse_stories_from_yaml Sim.sim_os
      (Sim.start {| Sim.files := [(Organizer.YAML_PATH, Examples.twice)];
                    Sim.dirs := []; Sim.locked := [] |})
    = (Sim.start {| Sim.files := [(Organizer.YAML_PATH, Examples.twice)];
                    Sim.dirs := []; Sim.locked := [] |}, Return stories)
    /\ Dict.get (lit "1-1-cart.md") stories = Some (lit "in-progress")
    /\ count_occ (list_eq_dec N.eq_dec) (Dict.keys stories) (lit "1-1-cart.md") = 1.
Proof.
  apply (@parse_last_status_per_basename Sim.fs Sim.sim_os
           (Sim.start {| Sim.files := [(Organizer.YAML_PATH, Examples.twice)];
                         Sim.dirs := []; Sim.locked := [] |})
           Examples.twice
           [[lit "story-1"; lit "docs/sprint/sprint-artifacts/1-1-cart.md"; lit "done"]]
           []
           [lit "story-1-copy"; lit "archive/1-1-cart.md"; lit "in-progress"]).
  - vm_compute. reflexivity.
  - vm_compute. reflexivity.
  - intros m' [].
Defined.

(** ** The organizer: one story at a time *)

Module OrganizerFacts.

Import Organizer.

Section WithOS.
Context {W : Type} (os : OS W).

(** The three ways a turn of the loop can go. *)
Lemma item_absent (filename status : text) (counts : Z * Z) (st : proc W) :
  path_exists os (world st) (Path.join BASE_DIR filename) = false ->
  organize_item os (filename, status) counts st = (st, Return counts).
Proof.
  intros H. destruct counts as [m k].
  unfold organize_item. rewrite bind_run. unfold ask. now rewrite H.
Qed.

Lemma item_moved (filename status : text) (m k : Z) (st : proc W) (w' : W) :
  let src := Path.join BASE_DIR filename in
  let dst := Path.join3 BASE_DIR (target_folder status) filename in
  path_exists os (world st) src = true ->
  move os (world st) src dst = (w', None) ->
  organize_item os (filename, status) (m, k) st
  = ({| world := w';
        trace := trace st
                 ++ [Move src dst None;
                     Printed (lit "Moved to " ++ target_folder status ++ lit "/: " ++ filename)] |},
     Return (m + 1, k)%Z).
Proof.
  intros src dst He Hm.
  unfold organize_item. rewrite bind_run. unfold ask. fold src. rewrite He.
  cbn [negb]. unfold try_except. rewrite bind_run. unfold act. fold dst. rewrite Hm.
  rewrite bind_run, print_run. unfold ret, emit. cbn [world trace].
  now rewrite <- app_assoc.
Qed.

Lemma item_failed (filename status : text) (m k : Z) (st : proc W) (w' : W) (e : exn) :
  let src := Path.join BASE_DIR filename in
  let dst := Path.join3 BASE_DIR (target_folder status) filename in
  path_exists os (world st) src = true ->
  move os (world st) src dst = (w', Some e) ->
  organize_item os (filename, status) (m, k) st
  = ({| world := w';
        trace := trace st
                 ++ [Move src dst (Some e);
                     Printed (lit "Error moving " ++ filename ++ lit ": " ++ e)] |},
     Return (m, k + 1)%Z).
Proof.
  intros src dst He Hm.
  unfold organize_item. rewrite bind_run. unfold ask. fold src. rewrite He.
  cbn [negb]. unfold try_except. rewrite bind_run. unfold act. fold dst. rewrite Hm.
  rewrite bind_run, print_run. unfold ret, emit. cbn [world trace].
  now rewrite <- app_assoc.
Qed.

Lemma moves_done_app (a b : list event) :
  Obs.moves_done (a ++ b) = (Obs.moves_done a + Obs.moves_done b)%Z.
Proof. unfold Obs.moves_done. rewrite filter_app, length_app. lia. Qed.

Lemma moves_failed_app (a b : list event) :
  Obs.moves_failed (a ++ b) = (Obs.moves_failed a + Obs.moves_failed b)%Z.
Proof. unfold Obs.moves_failed. rewrite filter_app, length_app. lia. Qed.

(** A turn always comes back, and its counters follow the moves it
    made. *)
Lemma item_counts (story : text * text) (counts : Z * Z) (st : proc W) :
  exists st' new,
    organize_item os story counts st
    = (st', Return (fst counts + Obs.moves_done new, snd counts + Obs.moves_failed new)%Z)
    /\ trace st' = trace st ++ new.
Proof.
  destruct story as [filename status]. destruct counts as [m k].
  destruct (path_exists os (world st) (Path.join BASE_DIR filename)) eqn:He.
  - destruct (move os (world st) (Path.join BASE_DIR filename)
                (Path.join3 BASE_DIR (target_folder status) filename))
      as [w' [e |]] eqn:Hm.
    + rewrite (item_failed _ _ _ _ _ He Hm).
      eexists.
      exists [Move (Path.join BASE_DIR filename)
                   (Path.join3 BASE_DIR (target_folder status) filename) (Some e);
              Printed (lit "Error moving " ++ filename ++ lit ": " ++ e)].
      split.
      { unfold Obs.moves_done, Obs.moves_failed. cbn. now rewrite Z.add_0_r. }
      reflexivity.
    + rewrite (item_moved _ _ _ _ _ He Hm).
      eexists.
      exists [Move (Path.join BASE_DIR filename)
                   (Path.join3 BASE_DIR (target_folder status) filename) None;
              Printed (lit "Moved to " ++ target_folder status ++ lit "/: " ++ filename)].
      split.
      { unfold Obs.moves_done, Obs.moves_failed. cbn. now rewrite Z.add_0_r. }
      reflexivity.
  - exists st, []. split; [| now rewrite app_nil_r].
    rewrite (item_absent _ _ _ _ He).
    unfold Obs.moves_done, Obs.moves_failed. cbn. now rewrite !Z.add_0_r.
Qed.

Lemma loop_counts (stories : list (text * text)) :
  forall (counts : Z * Z) (st : proc W),
  exists st' new,
    for_each stories (organize_item os) counts st
    = (st', Return (fst counts + Obs.moves_done new, snd counts + Obs.moves_failed new)%Z)
    /\ trace st' = trace st ++ new.
Proof.
  induction stories as [| story stories IH]; intros counts st.
  - exists st, []. split; [| now rewrite app_nil_r].
    destruct counts as [m k]. unfold Obs.moves_done, Obs.moves_failed. cbn.
    now rewrite !Z.add_0_r.
  - destruct (item_counts story counts st) as (st1 & new1 & H1 & T1).
    destruct (IH (fst counts + Obs.moves_done new1, snd counts + Obs.moves_failed new1)%Z st1)
      as (st2 & new2 & H2 & T2).
    exists st2, (new1 ++ new2). split.
    + rewrite for_each_cons, H1, H2. cbn [fst snd].
      rewrite moves_done_app, moves_failed_app. now rewrite !Z.add_assoc.
    + rewrite T2, T1. now rewrite app_assoc.
Qed.

Lemma create_folder_step (folder : text) (st : proc W) :
  create_folder os folder tt st
  = let p := Path.join BASE_DIR folder in
    match makedirs os (world st) p with
    | (w', None) =>
        ({| world := w';
            trace := trace st
                     ++ [MakeDirs p None;
                         Printed (lit "Created/verified folder: " ++ folder ++ lit "/")] |},
         Return tt)
    | (w', Some e) =>
        ({| world := w'; trace := trace st ++ [MakeDirs p (Some e)] |}, Raise e)
    end.
Proof.
  unfold create_folder. rewrite bind_run. unfold act. cbv zeta.
  destruct (makedirs os (world st) (Path.join BASE_DIR folder)) as [w' [e |]].
  - reflexivity.
  - rewrite print_run. unfold emit. cbn [world trace]. now rewrite <- app_assoc.
Qed.

(** Making the status folders moves nothing, and raises exactly when
    one of the folders cannot be made. *)
Lemma create_folders_run (folders : list text) :
  forall st : proc W,
  exists st' r new,
    for_each folders (create_folder os) tt st = (st', r)
    /\ trace st' = trace st ++ new
    /\ Obs.moves_done new = 0%Z /\ Obs.moves_failed new = 0%Z
    /\ (if folders_creatable os (world st) folders
        then r = Return tt else exists e, r = Raise e).
Proof.
  induction folders as [| folder folders IH]; intros st.
  - exists st, (Return tt), []. cbn. rewrite app_nil_r. now repeat split.
  - rewrite for_each_cons, create_folder_step. cbn [folders_creatable]. cbv zeta.
    destruct (makedirs os (world st) (Path.join BASE_DIR folder)) as [w' [e |]] eqn:Hm.
    + eexists. exists (Raise e). exists [MakeDirs (Path.join BASE_DIR folder) (Some e)].
      repeat split. now exists e.
    + match goal with |- context [for_each folders _ tt ?s] =>
        destruct (IH s) as (st2 & r & new & H & T & D & F & C) end.
      exists st2, r,
        ([MakeDirs (Path.join BASE_DIR folder) None;
          Printed (lit "Created/verified folder: " ++ folder ++ lit "/")] ++ new).
      rewrite H, T. cbn [world trace] in *. rewrite moves_done_app, moves_failed_app, D, F.
      rewrite <- app_assoc. repeat split; assumption || reflexivity.
Qed.

Lemma organize_unreadable (st : proc W) (e : exn) :
  read_text os (world st) YAML_PATH = Raise e ->
  organize_stories os st
  = (emit st [Printed (lit "Parsing sprint-status.yaml...")], Raise e).
Proof.
  intros H. unfold organize_stories. rewrite bind_run, print_run, bind_run.
  unfold parse_stories_from_yaml. rewrite bind_run. unfold ask.
  rewrite world_emit. now rewrite H.
Qed.

Lemma organize_readable (st : proc W) (content : text) :
  read_text os (world st) YAML_PATH = Return content ->
  exists st' r new,
    organize_stories os st = (st', r)
    /\ trace st' = trace st ++ new
    /\ (if folders_creatable os (world st) STATUS_FOLDERS
        then exists body,
            r = Return tt
            /\ new = body ++ summary (Obs.moves_done new, Obs.moves_failed new)
        else exists e, r = Raise e).
Proof.
  intros H. unfold organize_stories. rewrite bind_run, print_run, bind_run.
  unfold parse_stories_from_yaml. rewrite bind_run. unfold ask.
  rewrite world_emit, H. unfold ret at 1.
  rewrite bind_run, print_run, emit_emit, bind_run.
  set (head := [Printed (lit "Parsing sprint-status.yaml...")] ++ _).
  destruct (create_folders_run STATUS_FOLDERS (emit st head))
    as (st2 & r & new1 & H1 & T1 & D1 & F1 & C1).
  rewrite H1. rewrite world_emit in C1. rewrite trace_emit in T1.
  assert (Dh : Obs.moves_done head = 0%Z) by reflexivity.
  assert (Fh : Obs.moves_failed head = 0%Z) by reflexivity.
  destruct (folders_creatable os (world st) STATUS_FOLDERS).
  - subst r.
    destruct (loop_counts (stories_of content) (0, 0)%Z st2) as (st3 & new2 & H2 & T2).
    rewrite bind_run, H2. cbn [fst snd]. rewrite !Z.add_0_l.
    rewrite bind_run, print_run, bind_run, print_run, print_run.
    rewrite !emit_emit. cbn [fst snd app].
    assert (Ds : forall x, Obs.moves_done (summary x) = 0%Z) by reflexivity.
    assert (Fs : forall x, Obs.moves_failed (summary x) = 0%Z) by reflexivity.
    exists (emit st3 (summary (Obs.moves_done new2, Obs.moves_failed new2))).
    eexists.
    exists (head ++ new1 ++ new2 ++ summary (Obs.moves_done new2, Obs.moves_failed new2)).
    assert (Hd : Obs.moves_done
                   (head ++ new1 ++ new2
                    ++ summary (Obs.moves_done new2, Obs.moves_failed new2))
                 = Obs.moves_done new2).
    { rewrite !moves_done_app, Dh, D1, Ds. lia. }
    assert (Hf : Obs.moves_failed
                   (head ++ new1 ++ new2
                    ++ summary (Obs.moves_done new2, Obs.moves_failed new2))
                 = Obs.moves_failed new2).
    { rewrite !moves_failed_app, Fh, F1, Fs. lia. }
    split; [reflexivity |]. split.
    + rewrite trace_emit, T2, T1. now rewrite <- !app_assoc.
    + rewrite Hd, Hf. exists (head ++ new1 ++ new2).
      split; [reflexivity |]. now rewrite <- !app_assoc.
  - destruct C1 as [e ->].
    exists st2, (Raise e), (head ++ new1).
    split; [reflexivity |]. split.
    + rewrite T1. now rewrite <- !app_assoc.
    + now exists e.
Qed.

End WithOS.

End OrganizerFacts.

(** ** The organizer: claims *)

(** C2. The mapping from a status to a folder is total.  Whatever the
    status, either it is one of [done], [ready-for-dev], [in-progress],
    [backlog], [drafted] and the target folder is the status itself, or it
    is none of them and the target folder is [backlog]; the target folder is
    one of the five names in both cases. *)
Theorem target_folder_total :
  forall status : text,
    let allowed := [lit "done"; lit "ready-for-dev"; lit "in-progress";
                    lit "backlog"; lit "drafted"] in
    In (Organizer.target_folder status) allowed
    /\ ((In status allowed /\ Organizer.target_folder status = status)
        \/ (~ In status allowed /\ Organizer.target_folder status = lit "backlog")).
Proof.
  intros status allowed.
  change allowed with Organizer.STATUS_FOLDERS.
  unfold Organizer.target_folder.
  destruct (mem status Organizer.STATUS_FOLDERS) eqn:E.
  - apply mem_In in E. split; [assumption | left; now split].
  - assert (N : ~ In status Organizer.STATUS_FOLDERS).
    { intros H. apply mem_In in H. congruence. }
    split; [| right; now split].
    right. right. right. now left.
Qed.

(** C3, as amended.  The exit status of the organizer is 0 exactly when the
    status file can be read and each of the five status folders can be
    made, whatever the file contains and however the moves go; when the
    file cannot be read, or a folder cannot be made, the exception reaches
    the top level and the status is 1. *)
Theorem organizer_exit_code :
  forall (W : Type) (os : OS W) (w : W),
    Organizer.exit_code os w
    = match read_text os w Organizer.YAML_PATH with
      | Return _ =>
          if Organizer.folders_creatable os w Organizer.STATUS_FOLDERS then 0%Z else 1%Z
      | Raise _ => 1%Z
      end.
Proof.
  intros W os w. unfold Organizer.exit_code, Organizer.script, exit_status.
  rewrite bind_run.
  destruct (read_text os w Organizer.YAML_PATH) as [content | e] eqn:Hr.
  - destruct (OrganizerFacts.organize_readable os {| world := w; trace := [] |} Hr)
      as (st' & r & new & H & _ & C).
    rewrite H. cbn [world] in C.
    destruct (Organizer.folders_creatable os w Organizer.STATUS_FOLDERS).
    + destruct C as (body & -> & _). reflexivity.
    + destruct C as (e & ->). reflexivity.
  - now rewrite (OrganizerFacts.organize_unreadable os {| world := w; trace := [] |} Hr).
Qed.

(** C3, as stated, fails: with no status file the organizer ends with
    status 1. *)
Lemma organizer_exits_one_when_unreadable :
  read_text Sim.sim_os Examples.bare Organizer.YAML_PATH = Raise Sim.missing
  /\ Organizer.exit_code Sim.sim_os Examples.bare = 1%Z
  /\ ~ (forall (W : Type) (os : OS W) (w : W), Organizer.exit_code os w = 0%Z).
Proof.
  split; [reflexivity |]. split; [vm_compute; reflexivity |].
  intros H. specialize (H Sim.fs Sim.sim_os Examples.bare).
  vm_compute in H. discriminate H.
Qed.

(** C6. Stories whose source file is not at the root of the base directory
    are passed over in silence: the loop over such stories followed by
    others is the loop over the others, from the same state and with the
    same counters.  In particular a run over stories that are all missing,
    as on a second run after every file was moved, changes nothing, prints
    nothing and raises nothing. *)
Theorem missing_sources_skipped :
  forall (W : Type) (os : OS W) (absent rest : list (text * text))
         (counts : Z * Z) (st : proc W),
    Forall (fun story =>
              path_exists os (world st) (Path.join Organizer.BASE_DIR (fst story)) = false)
           absent ->
    for_each (absent ++ rest) (Organizer.organize_item os) counts st
    = for_each rest (Organizer.organize_item os) counts st
    /\ for_each absent (Organizer.organize_item os) counts st = (st, Return counts).
Proof.
  intros W os absent rest counts st Habs.
  assert (Hskip : for_each absent (Organizer.organize_item os) counts st = (st, Return counts)).
  { induction Habs as [| [filename status] absent Hx _ IH]; [reflexivity |].
    rewrite for_each_cons. cbn [fst] in Hx.
    now rewrite (OrganizerFacts.item_absent os filename status counts st Hx). }
  split; [| exact Hskip].
  now rewrite for_each_app, Hskip.
Qed.

(** A run of C6: in [Examples.partial] the file [b.md] is missing. *)
Lemma missing_sources_skipped_witness :
  for_each ([(lit "b.md", lit "review")] ++ [(lit "c.md", lit "drafted")])
           (Organizer.organize_item Sim.sim_os) (0, 0)%Z (Sim.start Examples.partial)
  = for_each [(lit "c.md", lit "drafted")]
             (Organizer.organize_item Sim.sim_os) (0, 0)%Z (Sim.start Examples.partial)
  /\ for_each [(lit "b.md", lit "review")]
              (Organizer.organize_item Sim.sim_os) (0, 0)%Z (Sim.start Examples.partial)
     = (Sim.start Examples.partial, Return (0, 0)%Z).
Proof.
  apply (@missing_sources_skipped Sim.fs Sim.sim_os
           [(lit "b.md", lit "review")] [(lit "c.md", lit "drafted")]
           (0, 0)%Z (Sim.start Examples.partial)).
  constructor; [vm_compute; reflexivity | constructor].
Defined.

(** C8. When [organize_stories] returns, the numbers in the two lines it
    prints last are the numbers of calls of [shutil.move] that returned and
    that raised: the count reported as skipped or not found is the number
    of moves that raised.  A story whose source file is missing causes no
    call and leaves both counters, the world and the console as they were,
    so it is never part of the printed count. *)
Theorem skipped_counts_failed_moves_only :
  forall (W : Type) (os : OS W) (st st' : proc W),
    Organizer.organize_stories os st = (st', Return tt) ->
    (exists new body,
        trace st' = trace st ++ new
        /\ stdout new
           = body ++ [newline :: lit "--- Summary ---";
                      lit "Moved: " ++ str_of_int (Obs.moves_done new) ++ lit " files";
                      lit "Skipped/Not found: " ++ str_of_int (Obs.moves_failed new)
                      ++ lit " files"])
    /\ (forall (filename status : text) (c : Z * Z) (s : proc W),
           path_exists os (world s) (Path.join Organizer.BASE_DIR filename) = false ->
           Organizer.organize_item os (filename, status) c s = (s, Return c)).
Proof.
  intros W os st st' Hrun. split.
  - destruct (read_text os (world st) Organizer.YAML_PATH) as [content | e] eqn:Hr.
    + destruct (OrganizerFacts.organize_readable os st Hr)
        as (st2 & r & new & H & T & C).
      rewrite Hrun in H. injection H as <- <-.
      destruct (Organizer.folders_creatable os (world st) Organizer.STATUS_FOLDERS).
      * destruct C as (body & _ & Hnew).
        exists new, (stdout body).
        split; [exact T |].
        rewrite Hnew at 1. rewrite stdout_app. reflexivity.
      * destruct C as (e & Hc). discriminate Hc.
    + rewrite (OrganizerFacts.organize_unreadable os st Hr) in Hrun. discriminate Hrun.
  - intros filename status c s. apply OrganizerFacts.item_absent.
Qed.

(** A run of C8: in [Examples.partial] the move of [a.md] fails, [b.md] is
    missing and [c.md] is moved; one file is reported as skipped. *)
Lemma skipped_counts_failed_moves_only_witness :
  (exists new body,
      trace (fst (Organizer.organize_stories Sim.sim_os (Sim.start Examples.partial)))
      = trace (Sim.start Examples.partial) ++ new
      /\ stdout new
         = body ++ [newline :: lit "--- Summary ---";
                    lit "Moved: " ++ str_of_int (Obs.moves_done new) ++ lit " files";
                    lit "Skipped/Not found: " ++ str_of_int (Obs.moves_failed new)
                    ++ lit " files"])
  /\ (forall (filename status : text) (c : Z * Z) (s : proc Sim.fs),
         path_exists Sim.sim_os (world s) (Path.join Organizer.BASE_DIR filename) = false ->
         Organizer.organize_item Sim.sim_os (filename, status) c s = (s, Return c)).
Proof.
  apply (@skipped_counts_failed_moves_only Sim.fs Sim.sim_os
           (Sim.start Examples.partial)
           (fst (Organizer.organize_stories Sim.sim_os (Sim.start Examples.partial)))).
  vm_compute. reflexivity.
Defined.

(** ** The generator: one entry at a time *)

Module GeneratorFacts.

Import Generator.

Lemma lines_with_app (c : char) (a b : list event) :
  Obs.lines_with c (a ++ b) = (Obs.lines_with c a + Obs.lines_with c b)%Z.
Proof.
  unfold Obs.lines_with. rewrite stdout_app, filter_app, length_app.
  apply Nat2Z.inj_add.
Qed.

Lemma saved_app (a b : list event) : Obs.saved (a ++ b) = Obs.saved a ++ Obs.saved b.
Proof. unfold Obs.saved. apply flat_map_app. Qed.

Section WithPlatform.
Context {W Img : Type} (rt : Runtime) (os : OS W) (pil : Pillow W Img).
Context (script_file : text).

(** The [try] block, step by step. *)
Lemma main_try_run (config : Config) (g e : Z) (st : proc W) :
  main_try rt os pil script_file config (g, e) st
  = match hex_to_rgb rt (color config) with
    | Raise ex => (st, Raise ex)
    | Return rgb =>
        match draw_image pil (world st) config rgb with
        | Raise ex => (st, Raise ex)
        | Return img =>
            match save pil (world st) img (output_path script_file config) with
            | (w', Some ex) =>
                ({| world := w'; trace := trace st ++ [Save (output_path script_file config) (Some ex)] |},
                 Raise ex)
            | (w', None) =>
                match getsize os w' (output_path script_file config) with
                | Raise ex =>
                    ({| world := w'; trace := trace st ++ [Save (output_path script_file config) None] |},
                     Raise ex)
                | Return size =>
                    ({| world := w';
                        trace := trace st ++ [Save (output_path script_file config) None;
                                              Printed (done_line rt config size)] |},
                     Return (g + 1, e)%Z)
                end
            end
        end
    end.
Proof.
  unfold main_try, generate_image. fold (output_path script_file config).
  rewrite !bind_run. unfold ask at 1.
  destruct (hex_to_rgb rt (color config)) as [rgb | ex]; [| reflexivity].
  unfold ask at 1.
  destruct (draw_image pil (world st) config rgb) as [img | ex]; [| reflexivity].
  rewrite bind_run. unfold act.
  destruct (save pil (world st) img (output_path script_file config)) as [w' [ex |]];
    [reflexivity |].
  rewrite bind_run. unfold ask. cbn [world].
  destruct (getsize os w' (output_path script_file config)) as [size | ex]; [| reflexivity].
  rewrite bind_run, print_run. unfold ret, emit, done_line. cbn [world trace].
  now rewrite <- app_assoc.
Qed.

Lemma main_item_run (config : Config) (g e : Z) (st : proc W) :
  main_item rt os pil script_file config (g, e) st
  = match main_try rt os pil script_file config (g, e) st with
    | (st', Return c) => (st', Return c)
    | (st', Raise ex) => (emit st' [Printed (failed_line config ex)], Return (g, e + 1)%Z)
    end.
Proof.
  unfold main_item, try_except.
  destruct (main_try rt os pil script_file config (g, e) st) as [st' [c | ex]];
    [reflexivity |].
  unfold main_except. now rewrite bind_run, print_run.
Qed.

(** A turn of the loop always comes back, in one of two ways. *)
Lemma main_item_cases (config : Config) (g e : Z) (st : proc W) :
  exists st' new,
    trace st' = trace st ++ new
    /\ ((exists size,
            main_item rt os pil script_file config (g, e) st = (st', Return (g + 1, e)%Z)
            /\ new = [Save (output_path script_file config) None; Printed (done_line rt config size)])
        \/ (exists ex early,
               main_item rt os pil script_file config (g, e) st
               = (st', Return (g, e + 1)%Z)
               /\ new = early ++ [Printed (failed_line config ex)]
               /\ (early = [] \/ early = [Save (output_path script_file config) (Some ex)]
                   \/ early = [Save (output_path script_file config) None]))).
Proof.
  rewrite main_item_run, main_try_run.
  destruct (hex_to_rgb rt (color config)) as [rgb | ex].
  2:{ exists (emit st [Printed (failed_line config ex)]), [Printed (failed_line config ex)].
      split; [reflexivity |].
      right. exists ex, []. repeat split. now left. }
  destruct (draw_image pil (world st) config rgb) as [img | ex].
  2:{ exists (emit st [Printed (failed_line config ex)]), [Printed (failed_line config ex)].
      split; [reflexivity |].
      right. exists ex, []. repeat split. now left. }
  destruct (save pil (world st) img (output_path script_file config)) as [w' [ex |]].
  { exists (emit {| world := w';
                    trace := trace st ++ [Save (output_path script_file config) (Some ex)] |}
                 [Printed (failed_line config ex)]).
    exists ([Save (output_path script_file config) (Some ex)]
            ++ [Printed (failed_line config ex)]).
    split; [unfold emit; cbn [world trace]; now rewrite <- app_assoc |].
    right. exists ex, [Save (output_path script_file config) (Some ex)].
    repeat split. right. now left. }
  destruct (getsize os w' (output_path script_file config)) as [size | ex].
  - exists {| world := w';
              trace := trace st ++ [Save (output_path script_file config) None;
                                    Printed (done_line rt config size)] |}.
    exists [Save (output_path script_file config) None; Printed (done_line rt config size)].
    split; [reflexivity |]. left. exists size. now split.
  - exists (emit {| world := w';
                    trace := trace st ++ [Save (output_path script_file config) None] |}
                 [Printed (failed_line config ex)]).
    exists ([Save (output_path script_file config) None]
            ++ [Printed (failed_line config ex)]).
    split; [unfold emit; cbn [world trace]; now rewrite <- app_assoc |].
    right. exists ex, [Save (output_path script_file config) None].
    repeat split. right. now right.
Qed.

(** The entries written and the entries refused, read off the
    console. *)
Lemma main_item_counts (config : Config) (g e : Z) (st : proc W) :
  exists st' new,
    main_item rt os pil script_file config (g, e) st
    = (st', Return (g + Obs.lines_with check_mark new,
                    e + Obs.lines_with ballot_x new)%Z)
    /\ trace st' = trace st ++ new
    /\ ((Obs.lines_with check_mark new = 1%Z /\ Obs.lines_with ballot_x new = 0%Z
         /\ Obs.saved new = [output_path script_file config])
        \/ (Obs.lines_with check_mark new = 0%Z /\ Obs.lines_with ballot_x new = 1%Z)).
Proof.
  destruct (main_item_cases config g e st)
    as (st' & new & T & [(size & H & ->) | (ex & early & H & -> & E)]).
  - exists st'.
    exists [Save (output_path script_file config) None; Printed (done_line rt config size)].
    assert (Ok : Obs.lines_with check_mark
                   [Save (output_path script_file config) None;
                    Printed (done_line rt config size)] = 1%Z) by reflexivity.
    assert (Bad : Obs.lines_with ballot_x
                    [Save (output_path script_file config) None;
                     Printed (done_line rt config size)] = 0%Z) by reflexivity.
    rewrite Ok, Bad, Z.add_0_r.
    split; [exact H |]. split; [exact T |]. left. now repeat split.
  - exists st', (early ++ [Printed (failed_line config ex)]).
    split; [| split; [exact T |]].
    + rewrite H. rewrite !lines_with_app.
      destruct E as [-> | [-> | ->]]; cbn; now rewrite Z.add_0_r.
    + right. rewrite !lines_with_app.
      destruct E as [-> | [-> | ->]]; now split.
Qed.

Lemma main_loop_counts (configs : list Config) :
  forall (g e : Z) (st : proc W),
  exists st' new,
    for_each configs (main_item rt os pil script_file) (g, e) st
    = (st', Return (g + Obs.lines_with check_mark new,
                    e + Obs.lines_with ballot_x new)%Z)
    /\ trace st' = trace st ++ new
    /\ (Obs.lines_with check_mark new + Obs.lines_with ballot_x new
        = Z.of_nat (length configs))%Z
    /\ (0 <= Obs.lines_with ballot_x new)%Z
    /\ (Obs.lines_with ballot_x new = 0%Z ->
        Obs.saved new = map (output_path script_file) configs).
Proof.
  induction configs as [| config configs IH]; intros g e st.
  - exists st, []. cbn. rewrite app_nil_r, !Z.add_0_r. repeat split. lia.
  - destruct (main_item_counts config g e st) as (st1 & new1 & H1 & T1 & C1).
    destruct (IH (g + Obs.lines_with check_mark new1)%Z
                 (e + Obs.lines_with ballot_x new1)%Z st1)
      as (st2 & new2 & H2 & T2 & S2 & P2 & A2).
    exists st2, (new1 ++ new2).
    rewrite for_each_cons, H1, H2, !lines_with_app, saved_app, T2, T1.
    rewrite <- !Z.add_assoc, <- app_assoc.
    split; [reflexivity |]. split; [reflexivity |].
    change (length (config :: configs)) with (S (length configs)). rewrite Nat2Z.inj_succ.
    destruct C1 as [(Ok & Bad & Sv) | (Ok & Bad)]; rewrite Ok, Bad.
    + repeat split; try lia. intros Hz. rewrite Sv, A2 by lia. reflexivity.
    + repeat split; try lia.
Qed.

End WithPlatform.

End GeneratorFacts.

(** ** The generator: claims *)

Module PathFacts.

Lemma output_name_pattern (config : Config) :
  Generator.output_name config
  = product config ++ lit "-" ++ variant config ++ lit "-0"
    ++ str_of_int (index config) ++ lit ".png".
Proof.
  unfold Generator.output_name, Generator.label. now rewrite <- !app_assoc.
Qed.

(** The uploads directory ends in its own name, so that joining a
    relative name to it puts the name under it. *)
Lemma uploads_ends (script_file : text) :
  exists front, Generator.UPLOADS_DIR script_file = front ++ lit "uploads".
Proof.
  unfold Generator.UPLOADS_DIR.
  set (d := Path.dirname (Path.dirname (Path.dirname script_file))).
  unfold Path.join. change (startswith [slash] (lit "uploads")) with false. cbv iota.
  destruct (rev d) as [| x r].
  - now exists [].
  - destruct (x =? slash)%N.
    + now exists d.
    + exists (d ++ [slash]). now rewrite <- app_assoc.
Qed.

Lemma join_under_uploads (script_file name : text) :
  startswith [slash] name = false ->
  Path.join (Generator.UPLOADS_DIR script_file) name
  = Generator.UPLOADS_DIR script_file ++ slash :: name.
Proof.
  intros H. destruct (uploads_ends script_file) as [front E]. rewrite E.
  unfold Path.join. rewrite H, rev_app_distr.
  change (rev (lit "uploads")) with (115 :: rev (lit "upload"))%N.
  rewrite <- app_comm_cons. reflexivity.
Qed.

Lemma configured_names_relative :
  forall config, In config Generator.IMAGE_CONFIGS ->
                 startswith [slash] (Generator.output_name config) = false.
Proof.
  intros config Hin.
  assert (H : forallb (fun c => negb (startswith [slash] (Generator.output_name c)))
                      Generator.IMAGE_CONFIGS = true) by (vm_compute; reflexivity).
  rewrite forallb_forall in H. specialize (H config Hin).
  now destruct (startswith [slash] (Generator.output_name config)).
Qed.

End PathFacts.

(** ** The generator: turn by turn *)

Module TurnFacts.

Import Generator Entry.

Section WithPlatform.
Context {W Img : Type} (rt : Runtime) (os : OS W) (pil : Pillow W Img).
Context (script_file : text).

Lemma file_of_path (config : Config) :
  output_path script_file config = file_of script_file config.
Proof.
  unfold output_path, file_of. now rewrite PathFacts.output_name_pattern.
Qed.

(** A turn of the loop is a turn in the sense of [Entry.turn]. *)
Lemma item_turn (config : Config) (g e : Z) (st : proc W) :
  exists st' counts' o,
    main_item rt os pil script_file config (g, e) st = (st', Return counts')
    /\ turn rt os pil script_file config (g, e) st counts' st' o.
Proof.
  rewrite GeneratorFacts.main_item_run, GeneratorFacts.main_try_run, file_of_path.
  destruct (hex_to_rgb rt (color config)) as [rgb | ex] eqn:Hc.
  2:{ exists (emit st [Printed (failed_line config ex)]), (g, e + 1)%Z, (Refused ex).
      split; [reflexivity |]. split; [| reflexivity].
      left. split; [now left |]. now split. }
  destruct (draw_image pil (world st) config rgb) as [img | ex] eqn:Hd.
  2:{ exists (emit st [Printed (failed_line config ex)]), (g, e + 1)%Z, (Refused ex).
      split; [reflexivity |]. split; [| reflexivity].
      left. split; [right; now exists rgb |]. now split. }
  assert (D : drawn rt pil config (world st) img) by now exists rgb.
  destruct (save pil (world st) img (file_of script_file config)) as [w' [ex |]] eqn:Hs.
  { eexists. exists (g, e + 1)%Z, (Refused ex).
    split; [reflexivity |]. split; [| reflexivity].
    right. left. exists img. split; [exact D |].
    split; [exact Hs |]. unfold emit. cbn [world trace]. now rewrite <- app_assoc. }
  destruct (getsize os w' (file_of script_file config)) as [size | ex] eqn:Hg.
  - eexists. exists (g + 1, e)%Z, (Written img size).
    split; [reflexivity |]. split; [| reflexivity].
    split; [exact D |]. cbn [world trace].
    split; [exact Hs |]. split; [exact Hg |]. reflexivity.
  - eexists. exists (g, e + 1)%Z, (Refused ex).
    split; [reflexivity |]. split; [| reflexivity].
    right. right. exists img. split; [exact D |].
    unfold emit. cbn [world trace]. rewrite <- app_assoc.
    split; [exact Hs |]. split; [exact Hg |]. reflexivity.
Qed.

(** The loop over a list of entries is a run over that list. *)
Lemma loop_run (configs : list Config) :
  forall (counts : Z * Z) (st : proc W),
  exists st' counts' outcomes,
    for_each configs (main_item rt os pil script_file) counts st = (st', Return counts')
    /\ run rt os pil script_file configs counts st counts' st' outcomes.
Proof.
  induction configs as [| config configs IH]; intros counts st.
  - exists st, counts, []. split; [reflexivity | constructor].
  - destruct counts as [g e].
    destruct (item_turn config g e st) as (st1 & counts1 & o & H1 & T1).
    destruct (IH counts1 st1) as (st2 & counts2 & outcomes & H2 & R2).
    exists st2, counts2, (o :: outcomes). rewrite for_each_cons, H1, H2.
    split; [reflexivity |]. econstructor; eassumption.
Qed.

(** A run has one outcome for each entry, and its counters count the
    outcomes of the two kinds. *)
Lemma run_counts (configs : list Config) (counts counts' : Z * Z) (st st' : proc W)
      (outcomes : list (outcome (Img := Img))) :
  run rt os pil script_file configs counts st counts' st' outcomes ->
  length outcomes = length configs
  /\ (fst counts' + snd counts' = fst counts + snd counts + Z.of_nat (length configs))%Z
  /\ (snd counts' = snd counts <-> Forall is_written outcomes)
  /\ ((snd counts < snd counts')%Z <-> Exists is_refused outcomes)
  /\ (snd counts <= snd counts')%Z.
Proof.
  induction 1 as [counts st
                 | config configs counts st counts1 st1 counts2 st2 o outcomes T R IH].
  - cbn [length]. repeat split; try lia; try constructor.
    intros H. inversion H.
  - destruct IH as (L & S & A & X & M). cbn [length]. rewrite Nat2Z.inj_succ.
    destruct o as [img size | ex]; destruct T as [_ ->]; cbn [fst snd] in *.
    + split; [lia |]. split; [lia |]. split; [| split].
      * split; intros H.
        -- constructor; [exact I | now apply A].
        -- inversion H; subst. now apply A.
      * split; intros H.
        -- apply Exists_cons_tl. now apply X.
        -- inversion H as [? ? F | ? ? F]; subst; [destruct F | now apply X].
      * exact M.
    + split; [lia |]. split; [lia |]. split; [| split].
      * split; intros H; [lia |]. inversion H as [| ? ? F]; subst. destruct F.
      * split; intros _; [now apply Exists_cons_hd | lia].
      * lia.
Qed.

(** The counters of a run grow by the tally of its outcomes. *)
Lemma run_tally (configs : list Config) (counts counts' : Z * Z) (st st' : proc W)
      (outcomes : list (outcome (Img := Img))) :
  run rt os pil script_file configs counts st counts' st' outcomes ->
  counts' = (fst counts + fst (tally outcomes), snd counts + snd (tally outcomes))%Z.
Proof.
  induction 1 as [counts st
                 | config configs counts st counts1 st1 counts2 st2 o outcomes T R IH].
  - destruct counts as [g e]. cbn. now rewrite !Z.add_0_r.
  - rewrite IH. unfold tally. cbn [filter fst snd].
    destruct o as [img size | ex]; destruct T as [_ ->];
      cbn [wrote negb length fst snd]; rewrite Nat2Z.inj_succ; f_equal; lia.
Qed.

(** A run in which every entry is written saves the files of its
    entries, in order, and no other. *)
Lemma run_saved (configs : list Config) (counts counts' : Z * Z) (st st' : proc W)
      (outcomes : list (outcome (Img := Img))) :
  run rt os pil script_file configs counts st counts' st' outcomes ->
  Forall is_written outcomes ->
  Obs.saved (trace st') = Obs.saved (trace st) ++ map (file_of script_file) configs.
Proof.
  induction 1 as [counts st
                 | config configs counts st counts1 st1 counts2 st2 o outcomes T R IH];
    intros A.
  - now rewrite app_nil_r.
  - inversion A as [| ? ? Ho Hos]; subst. rewrite (IH Hos).
    destruct o as [img size | ex]; [| destruct Ho].
    destruct T as [(_ & _ & _ & ->) _].
    rewrite GeneratorFacts.saved_app. cbn [map]. now rewrite <- app_assoc.
Qed.

(** [main] is its opening lines, a run over the configured entries, and
    its closing line; what it returns depends on [errors] alone. *)
Lemma main_is_run (st : proc W) :
  exists st1 counts outcomes,
    run rt os pil script_file IMAGE_CONFIGS (0, 0)%Z
        (emit st (opening script_file)) counts st1 outcomes
    /\ main rt os pil script_file st
       = (emit st1 (closing counts),
          Return (if (snd counts =? 0)%Z then 0 else 1)%Z).
Proof.
  unfold main. rewrite bind_run, print_run, bind_run, print_run, emit_emit, bind_run.
  destruct (loop_run IMAGE_CONFIGS (0, 0)%Z (emit st (opening script_file)))
    as (st1 & counts & outcomes & H & R).
  exists st1, counts, outcomes. split; [exact R |].
  unfold main_loop. change ([Printed (lit "Generating optimized product images...")]
                            ++ [Printed (lit "Output directory: " ++ UPLOADS_DIR script_file)])
    with (opening script_file).
  rewrite H, bind_run, print_run. reflexivity.
Qed.

End WithPlatform.

End TurnFacts.

(** C1. [main] deals with every record of [IMAGE_CONFIGS], one after the
    other and each in exactly one of two ways.  After its two opening
    lines it makes a run of turns over the configured records, in order,
    every turn starting in the state that the turn before left.  In a turn
    the record is either written: its image is drawn, [save] puts it at
    the file named by the pattern under the uploads directory and returns,
    the size of that file is read, one line reports it and [generated]
    grows by one while [errors] stays; or it is refused: drawing, [save]
    or the reading of the size raised, one line reports the exception and
    [errors] grows by one while [generated] stays.  After the run
    [generated] is the number of records written and [errors] the number
    of records refused, so that [generated] plus [errors] is the number of
    records, 31; the closing line reports the two counters. *)
Theorem each_config_written_or_counted :
  forall (W Img : Type) (rt : Runtime) (os : OS W) (pil : Pillow W Img)
         (script_file : text) (st : proc W),
  exists st1 generated errors outcomes code,
    Entry.run rt os pil script_file Generator.IMAGE_CONFIGS (0, 0)%Z
              (emit st (Entry.opening script_file)) (generated, errors) st1 outcomes
    /\ Generator.main rt os pil script_file st
       = (emit st1 (Entry.closing (generated, errors)), Return code)
    /\ length outcomes = length Generator.IMAGE_CONFIGS
    /\ (generated, errors) = Entry.tally outcomes
    /\ (generated + errors)%Z = Z.of_nat (length Generator.IMAGE_CONFIGS)
    /\ (generated + errors = 31)%Z.
Proof.
  intros W Img rt os pil script_file st.
  destruct (TurnFacts.main_is_run rt os pil script_file st)
    as (st1 & [generated errors] & outcomes & R & H).
  destruct (TurnFacts.run_counts R) as (L & S & _).
  cbn [fst snd] in S.
  exists st1, generated, errors, outcomes.
  eexists. split; [exact R |]. split; [exact H |]. split; [exact L |].
  split; [rewrite (TurnFacts.run_tally R); cbn [fst snd]; now rewrite !Z.add_0_l |].
  split; [lia |]. rewrite S. reflexivity.
Qed.

(** C4. [main] always returns, and what it returns is 0 or 1.  It returns 0
    exactly when every turn of its run over the configured records wrote
    its record, that is when for each record the image was drawn, [save]
    returned and the size of the file was read; it returns 1 exactly when
    at least one turn was refused with an exception. *)
Theorem main_exit_code :
  forall (W Img : Type) (rt : Runtime) (os : OS W) (pil : Pillow W Img)
         (script_file : text) (st : proc W),
  exists st1 counts outcomes code,
    Entry.run rt os pil script_file Generator.IMAGE_CONFIGS (0, 0)%Z
              (emit st (Entry.opening script_file)) counts st1 outcomes
    /\ Generator.main rt os pil script_file st
       = (emit st1 (Entry.closing counts), Return code)
    /\ ((code = 0%Z /\ Forall Entry.is_written outcomes
         /\ counts = (Z.of_nat (length Generator.IMAGE_CONFIGS), 0)%Z)
        \/ (code = 1%Z /\ Exists Entry.is_refused outcomes /\ (0 < snd counts)%Z)).
Proof.
  intros W Img rt os pil script_file st.
  destruct (TurnFacts.main_is_run rt os pil script_file st)
    as (st1 & [generated errors] & outcomes & R & H).
  destruct (TurnFacts.run_counts R) as (L & S & A & X & M).
  cbn [fst snd] in *.
  exists st1, (generated, errors), outcomes.
  eexists. split; [exact R |]. split; [exact H |]. cbn [snd].
  destruct (errors =? 0)%Z eqn:E.
  - apply Z.eqb_eq in E. left. split; [reflexivity |].
    split; [apply A; lia |]. f_equal; lia.
  - apply Z.eqb_neq in E. right. split; [reflexivity |].
    split; [apply X; lia | lia].
Qed.

(** C7. When the turn for a configured entry succeeds, that is when it
    comes back with [generated] one higher, the image that
    [generate_image] returned was saved, without an exception, under the
    uploads directory, at the name made of the product, a dash, the
    variant, a dash, a zero, the index and [.png]; this save and the line
    reporting it are all the turn did. *)
Theorem written_file_follows_pattern :
  forall (W Img : Type) (rt : Runtime) (os : OS W) (pil : Pillow W Img)
         (script_file : text) (config : Config) (g e : Z) (st st' : proc W),
    In config Generator.IMAGE_CONFIGS ->
    Generator.main_item rt os pil script_file config (g, e) st
    = (st', Return (g + 1, e)%Z) ->
    let filepath :=
      Generator.UPLOADS_DIR script_file
      ++ lit "/" ++ product config ++ lit "-" ++ variant config ++ lit "-0"
      ++ str_of_int (index config) ++ lit ".png" in
    exists img size,
      Generator.generate_image rt pil config st = (st, Return img)
      /\ save pil (world st) img filepath = (world st', None)
      /\ trace st' = trace st ++ [Save filepath None;
                                  Printed (Generator.done_line rt config size)].
Proof.
  intros W Img rt os pil script_file config g e st st' Hin Hrun filepath.
  assert (Hp : Generator.output_path script_file config = filepath).
  { unfold Generator.output_path.
    rewrite PathFacts.join_under_uploads by now apply PathFacts.configured_names_relative.
    now rewrite PathFacts.output_name_pattern. }
  rewrite GeneratorFacts.main_item_run, GeneratorFacts.main_try_run in Hrun.
  unfold Generator.generate_image. rewrite bind_run. unfold ask.
  rewrite Hp in Hrun.
  destruct (Generator.hex_to_rgb rt (color config)) as [rgb | ex].
  2:{ injection Hrun as _ Hg. lia. }
  destruct (draw_image pil (world st) config rgb) as [img | ex].
  2:{ injection Hrun as _ Hg. lia. }
  destruct (save pil (world st) img filepath) as [w' [ex |]] eqn:Hs.
  { injection Hrun as _ Hg. lia. }
  destruct (getsize os w' filepath) as [size | ex].
  2:{ injection Hrun as _ Hg. lia. }
  injection Hrun as <-. exists img, size. cbn [world trace]. now repeat split.
Qed.

(** A run of C7: the first entry in a world where only the second image of
    that variant cannot be written. *)
Lemma written_file_follows_pattern_witness :
  let config := Generator.entry "nuzzle" "cloud-white" "#F5F5F0" 1 800 800 in
  let st := Sim.start Examples.one_locked in
  let st' := fst (Generator.main_item Sim.sim_rt Sim.sim_os Sim.sim_pil
                    Examples.script_file config (0, 0)%Z st) in
  exists img size,
    Generator.generate_image Sim.sim_rt Sim.sim_pil config st = (st, Return img)
    /\ save Sim.sim_pil (world st) img (lit "/srv/app/uploads/nuzzle-cloud-white-01.png")
       = (world st', None)
    /\ trace st' = trace st ++ [Save (lit "/srv/app/uploads/nuzzle-cloud-white-01.png") None;
                                Printed (Generator.done_line Sim.sim_rt config size)].
Proof.
  intros config st st'.
  refine (@written_file_follows_pattern Sim.fs (Z * Z * Z) Sim.sim_rt Sim.sim_os Sim.sim_pil
            Examples.script_file config 0%Z 0%Z st st' _ _).
  - left. reflexivity.
  - vm_compute. reflexivity.
Defined.

(** C5. A failure on one item is caught, reported on the console and
    counted, and the batch goes on.  In the generator, when the [try] block
    raises on an entry, the loop over the whole list is the loop over the
    entries after it, resumed with [errors] one higher and the failure line
    printed.  In the organizer, when [shutil.move] raises on a story, the
    loop is the loop over the stories after it, resumed with
    [skipped_count] one higher and the error line printed.  In both the
    whole loop returns. *)
Theorem failure_does_not_stop_batch :
  forall (W Img : Type) (rt : Runtime) (os : OS W) (pil : Pillow W Img)
         (script_file : text),
    (forall (before after : list Config) (config : Config) (counts : Z * Z)
            (st st_k st_f : proc W) (g e : Z) (ex : exn),
        for_each before (Generator.main_item rt os pil script_file) counts st
        = (st_k, Return (g, e)) ->
        Generator.main_try rt os pil script_file config (g, e) st_k = (st_f, Raise ex) ->
        for_each (before ++ config :: after) (Generator.main_item rt os pil script_file)
                 counts st
        = for_each after (Generator.main_item rt os pil script_file) (g, e + 1)%Z
                   (emit st_f [Printed (Generator.failed_line config ex)])
        /\ exists st' c,
            for_each (before ++ config :: after) (Generator.main_item rt os pil script_file)
                     counts st
            = (st', Return c))
    /\ (forall (before after : list (text * text)) (filename status : text)
               (counts : Z * Z) (st st_k : proc W) (m k : Z) (w' : W) (ex : exn),
           let src := Path.join Organizer.BASE_DIR filename in
           let dst := Path.join3 Organizer.BASE_DIR (Organizer.target_folder status) filename in
           for_each before (Organizer.organize_item os) counts st = (st_k, Return (m, k)) ->
           path_exists os (world st_k) src = true ->
           move os (world st_k) src dst = (w', Some ex) ->
           for_each (before ++ (filename, status) :: after) (Organizer.organize_item os)
                    counts st
           = for_each after (Organizer.organize_item os) (m, k + 1)%Z
                      {| world := w';
                         trace := trace st_k
                                  ++ [Move src dst (Some ex);
                                      Printed (lit "Error moving " ++ filename
                                             ++ lit ": " ++ ex)] |}
           /\ exists st' c,
               for_each (before ++ (filename, status) :: after) (Organizer.organize_item os)
                        counts st
               = (st', Return c)).
Proof.
  intros W Img rt os pil script_file. split.
  - intros before after config counts st st_k st_f g e ex Hb Ht.
    assert (Heq : for_each (before ++ config :: after)
                    (Generator.main_item rt os pil script_file) counts st
                  = for_each after (Generator.main_item rt os pil script_file) (g, e + 1)%Z
                      (emit st_f [Printed (Generator.failed_line config ex)])).
    { rewrite for_each_app, Hb, for_each_cons, GeneratorFacts.main_item_run, Ht.
      reflexivity. }
    split; [exact Heq |]. rewrite Heq.
    destruct (GeneratorFacts.main_loop_counts rt os pil script_file after g (e + 1)%Z
                (emit st_f [Printed (Generator.failed_line config ex)]))
      as (st' & new & H & _).
    rewrite H. eauto.
  - intros before after filename status counts st st_k m k w' ex src dst Hb He Hm.
    assert (Heq : for_each (before ++ (filename, status) :: after)
                    (Organizer.organize_item os) counts st
                  = for_each after (Organizer.organize_item os) (m, k + 1)%Z
                      {| world := w';
                         trace := trace st_k
                                  ++ [Move src dst (Some ex);
                                      Printed (lit "Error moving " ++ filename
                                             ++ lit ": " ++ ex)] |}).
    { rewrite for_each_app, Hb, for_each_cons.
      rewrite (OrganizerFacts.item_failed os filename status m k st_k He Hm).
      reflexivity. }
    split; [exact Heq |]. rewrite Heq.
    match goal with |- context [for_each after _ _ ?s] =>
      destruct (OrganizerFacts.loop_counts os after (m, k + 1)%Z s) as (st' & new & H & _) end.
    rewrite H. eauto.
Qed.

(** A run of C5.  Generator: the second entry cannot be written, the first
    and the twenty-nine after it are.  Organizer: the move of [a.md] fails,
    and [b.md] and [c.md] are still dealt with. *)
Lemma failure_does_not_stop_batch_witness :
  let item := Generator.main_item Sim.sim_rt Sim.sim_os Sim.sim_pil Examples.script_file in
  let first := Generator.entry "nuzzle" "cloud-white" "#F5F5F0" 1 800 800 in
  let second := Generator.entry "nuzzle" "cloud-white" "#F5F5F0" 2 800 800 in
  let others := skipn 2 Generator.IMAGE_CONFIGS in
  let st := Sim.start Examples.one_locked in
  let st_k := fst (for_each [first] item (0, 0)%Z st) in
  let st_f := fst (Generator.main_try Sim.sim_rt Sim.sim_os Sim.sim_pil Examples.script_file
                     second (1, 0)%Z st_k) in
  let later := [(lit "b.md", lit "review"); (lit "c.md", lit "drafted")] in
  (for_each ([first] ++ second :: others) item (0, 0)%Z st
   = for_each others item (1, 0 + 1)%Z
       (emit st_f [Printed (Generator.failed_line second Sim.denied)])
   /\ exists st' c, for_each ([first] ++ second :: others) item (0, 0)%Z st = (st', Return c))
  /\ (for_each ([] ++ (lit "a.md", lit "done") :: later)
                (Organizer.organize_item Sim.sim_os) (0, 0)%Z (Sim.start Examples.partial)
      = for_each later (Organizer.organize_item Sim.sim_os) (0, 0 + 1)%Z
          {| world := Examples.partial;
             trace := trace (Sim.start Examples.partial)
                      ++ [Move (Path.join Organizer.BASE_DIR (lit "a.md"))
                               (Path.join3 Organizer.BASE_DIR
                                  (Organizer.target_folder (lit "done")) (lit "a.md"))
                               (Some Sim.denied);
                          Printed (lit "Error moving " ++ lit "a.md" ++ lit ": " ++ Sim.denied)] |}
      /\ exists st' c,
          for_each ([] ++ (lit "a.md", lit "done") :: later)
                   (Organizer.organize_item Sim.sim_os) (0, 0)%Z (Sim.start Examples.partial)
          = (st', Return c)).
Proof.
  intros item first second others st st_k st_f later. split.
  - apply (proj1 (@failure_does_not_stop_batch Sim.fs (Z * Z * Z) Sim.sim_rt Sim.sim_os
                    Sim.sim_pil Examples.script_file)
             [first] others second (0, 0)%Z st st_k st_f 1%Z 0%Z Sim.denied);
      vm_compute; reflexivity.
  - apply (proj2 (@failure_does_not_stop_batch Sim.fs (Z * Z * Z) Sim.sim_rt Sim.sim_os
                    Sim.sim_pil Examples.script_file)
             [] later (lit "a.md") (lit "done") (0, 0)%Z
             (Sim.start Examples.partial) (Sim.start Examples.partial)
             0%Z 0%Z Examples.partial Sim.denied);
      vm_compute; reflexivity.
Defined.

(** ** Colours *)

Module HexFacts.

Import Builtins.

Lemma int16_pair (rt : Runtime) (c1 c2 : bool) (v1 v2 : nat) :
  v1 < 16 -> v2 < 16 ->
  int16 rt [Hex.digit c1 v1; Hex.digit c2 v2] = Some (Hex.pair_value v1 v2).
Proof.
  intros H1 H2.
  destruct c1, c2;
    do 16 (destruct v1 as [| v1];
           [do 16 (destruct v2 as [| v2]; [reflexivity |]); exfalso; lia |]);
    exfalso; lia.
Qed.

Lemma digit_not_hash (c : bool) (v : nat) :
  v < 16 -> (Hex.digit c v =? Generator.hash)%N = false.
Proof.
  intros H. destruct c; do 16 (destruct v as [| v]; [reflexivity |]); exfalso; lia.
Qed.

Lemma pair_value_range (v1 v2 : nat) :
  v1 < 16 -> v2 < 16 -> (0 <= Hex.pair_value v1 v2 <= 255)%Z.
Proof. unfold Hex.pair_value. lia. Qed.

End HexFacts.

(** C10. On a string made of an optional [#] and six hexadecimal digits,
    [hex_to_rgb] returns the values of the first, the second and the third
    pair of digits, and each of them lies between 0 and 255.  The digits
    are given by their values and by whether they are capitals. *)
Theorem hex_to_rgb_six_digits :
  forall (rt : Runtime) (with_hash : bool)
         (c1 c2 c3 c4 c5 c6 : bool) (v1 v2 v3 v4 v5 v6 : nat),
    v1 < 16 -> v2 < 16 -> v3 < 16 -> v4 < 16 -> v5 < 16 -> v6 < 16 ->
    Generator.hex_to_rgb rt
      ((if with_hash then [Generator.hash] else [])
       ++ [Hex.digit c1 v1; Hex.digit c2 v2; Hex.digit c3 v3;
           Hex.digit c4 v4; Hex.digit c5 v5; Hex.digit c6 v6])
    = Return (Hex.pair_value v1 v2, Hex.pair_value v3 v4, Hex.pair_value v5 v6)
    /\ (0 <= Hex.pair_value v1 v2 <= 255)%Z
    /\ (0 <= Hex.pair_value v3 v4 <= 255)%Z
    /\ (0 <= Hex.pair_value v5 v6 <= 255)%Z.
Proof.
  intros rt with_hash c1 c2 c3 c4 c5 c6 v1 v2 v3 v4 v5 v6 H1 H2 H3 H4 H5 H6.
  split; [| auto using HexFacts.pair_value_range].
  unfold Generator.hex_to_rgb.
  assert (Hs : lstrip Generator.hash
                 ((if with_hash then [Generator.hash] else [])
                  ++ [Hex.digit c1 v1; Hex.digit c2 v2; Hex.digit c3 v3;
                      Hex.digit c4 v4; Hex.digit c5 v5; Hex.digit c6 v6])
               = [Hex.digit c1 v1; Hex.digit c2 v2; Hex.digit c3 v3;
                  Hex.digit c4 v4; Hex.digit c5 v5; Hex.digit c6 v6]).
  { destruct with_hash; cbn [app lstrip].
    - change (Generator.hash =? Generator.hash)%N with true. cbv iota.
      cbn [lstrip]. now rewrite HexFacts.digit_not_hash.
    - now rewrite HexFacts.digit_not_hash. }
  rewrite Hs. unfold slice. cbn [Nat.sub skipn firstn].
  unfold Generator.int_of_hex. now rewrite !HexFacts.int16_pair.
Qed.

(** A run of C10: the colour of the sage variant. *)
Lemma hex_to_rgb_six_digits_witness :
  Generator.hex_to_rgb Sim.sim_rt (lit "#9CAF88") = Return (156, 175, 136)%Z
  /\ (0 <= 156 <= 255)%Z /\ (0 <= 175 <= 255)%Z /\ (0 <= 136 <= 255)%Z.
Proof.
  apply (@hex_to_rgb_six_digits Sim.sim_rt true true true true true true true
           9 12 10 15 8 8); lia.
Defined.

(** ** Runs of the embedded functions *)

Module Checks.

Import Organizer.

(** The greedy [\S+] gives back its last colon, and [\s*] the newline that
    the pattern asks for next. *)
Example finditer_backtracks :
  Regex.finditer pattern
    (Examples.line "dev:" ++ Examples.line "  a:b:" ++ [newline]
     ++ Examples.line "    path: docs/x/s.md  " ++ Examples.line " status:done")
  = [[lit "a:b"; lit "docs/x/s.md"; lit "done"]].
Proof. vm_compute. reflexivity. Qed.

Example stories_of_twice :
  stories_of Examples.twice = [(lit "1-1-cart.md", lit "in-progress")].
Proof. vm_compute. reflexivity. Qed.

Example stories_of_three :
  stories_of Examples.three
  = [(lit "a.md", lit "done"); (lit "b.md", lit "review"); (lit "c.md", lit "drafted")].
Proof. vm_compute. reflexivity. Qed.

Example basename_of_directory : Path.basename (lit "a/b/") = [].
Proof. reflexivity. Qed.

Example dirname_keeps_root : Path.dirname (lit "//c") = lit "//".
Proof. reflexivity. Qed.

Example uploads_of_script :
  Generator.UPLOADS_DIR Examples.script_file = lit "/srv/app/uploads".
Proof. vm_compute. reflexivity. Qed.

Example int16_prefix_and_blanks :
  Builtins.int16 Sim.sim_rt (lit " +0x1f ") = Some 31%Z.
Proof. reflexivity. Qed.

Example int16_trailing_underscore : Builtins.int16 Sim.sim_rt (lit "a_") = None.
Proof. reflexivity. Qed.

Example hex_to_rgb_short :
  Generator.hex_to_rgb Sim.sim_rt (lit "#FFF")
  = Raise (lit "invalid literal for int() with base 16: ''").
Proof. vm_compute. reflexivity. Qed.

(** Every colour of the configuration is read without an exception. *)
Example configured_colours_parse :
  forallb (fun config =>
             match Generator.hex_to_rgb Sim.sim_rt (color config) with
             | Return _ => true
             | Raise _ => false
             end) Generator.IMAGE_CONFIGS = true.
Proof. vm_compute. reflexivity. Qed.

(** In [Examples.partial] the organizer ends with status 0 although one
    move failed; in [Examples.one_locked] the generator ends with 1. *)
Example organizer_exit_partial : Organizer.exit_code Sim.sim_os Examples.partial = 0%Z.
Proof. vm_compute. reflexivity. Qed.

(** In [Examples.partial] one move fails and one source is missing; only
    the first is reported. *)
Example organizer_partial_summary :
  let t := trace (fst (Organizer.script Sim.sim_os (Sim.start Examples.partial))) in
  Obs.moves_done t = 1%Z
  /\ Obs.moves_failed t = 1%Z
  /\ skipn 10 (stdout t)
     = [lit "Moved: 1 files"; lit "Skipped/Not found: 1 files"; lit "Done!"].
Proof. vm_compute. repeat split. Qed.

(** In [Examples.full] the three files are moved, [b.md] to [backlog]. *)
Example organizer_moves_full :
  let t := trace (fst (Organizer.script Sim.sim_os (Sim.start Examples.full))) in
  Obs.moves_done t = 3%Z
  /\ Obs.moves_failed t = 0%Z
  /\ In (lit "Moved to backlog/: b.md") (stdout t).
Proof. vm_compute. repeat split. do 8 right. now left. Qed.

Example generator_exit_one_locked :
  Generator.exit_code Sim.sim_rt Sim.sim_os Sim.sim_pil Examples.script_file
    Examples.one_locked = 1%Z.
Proof. vm_compute. reflexivity. Qed.

End Checks.

(** * Further properties *)

(** ** The matcher against the language of its pattern *)

Module RegexFacts.

Import Regex Lang.

(** Whatever a greedy repetition hands to its continuation is a run of
    accepted characters taken from the front of the input. *)
Lemma greedy_sound (cl : cclass) (k : text -> text -> outcome) (s : text) :
  forall (taken : text) (r : list text * text),
    greedy cl k taken s = Some r ->
    exists run rest,
      s = run ++ rest
      /\ Forall (fun c => accepts cl c = true) run
      /\ k (taken ++ run) rest = Some r.
Proof.
  induction s as [| c s IH]; intros taken r H; cbn [greedy] in H.
  - exists [], []. rewrite !app_nil_r. split; [reflexivity | split; [constructor | exact H]].
  - destruct (accepts cl c) eqn:A.
    + destruct (greedy cl k (taken ++ [c]) s) as [r' |] eqn:G.
      * injection H as <-. destruct (IH _ _ G) as (run & rest & -> & F & K).
        exists (c :: run), rest. rewrite <- app_assoc in K.
        split; [reflexivity |]. split; [now constructor | exact K].
      * exists [], (c :: s). rewrite !app_nil_r.
        split; [reflexivity | split; [constructor | exact H]].
    + exists [], (c :: s). rewrite !app_nil_r.
      split; [reflexivity | split; [constructor | exact H]].
Qed.

(** If the continuation can go on after some run of accepted characters,
    the greedy repetition finds a way to go on. *)
Lemma greedy_complete (cl : cclass) (k : text -> text -> outcome) (run : text) :
  forall (taken rest : text),
    Forall (fun c => accepts cl c = true) run ->
    k (taken ++ run) rest <> None ->
    greedy cl k taken (run ++ rest) <> None.
Proof.
  induction run as [| c run IH]; intros taken rest F K.
  - rewrite app_nil_r in K. cbn [app].
    destruct rest as [| c s]; cbn [greedy]; [exact K |].
    destruct (accepts cl c); [| exact K].
    destruct (greedy cl k (taken ++ [c]) s); [discriminate | exact K].
  - inversion F as [| ? ? A F']; subst.
    cbn [app greedy]. rewrite A.
    assert (G : greedy cl k (taken ++ [c]) (run ++ rest) <> None).
    { apply IH; [exact F' |]. now rewrite <- app_assoc. }
    destruct (greedy cl k (taken ++ [c]) (run ++ rest)); [discriminate | contradiction].
Qed.

Lemma match_here_sound (p : list item) :
  forall (caps : list text) (s : text) (caps' : list text) (rest : text),
    match_here p caps s = Some (caps', rest) ->
    exists consumed g,
      s = consumed ++ rest /\ caps' = caps ++ g /\ Parses p consumed g.
Proof.
  induction p as [| it p IH]; intros caps s caps' rest H.
  - cbn in H. injection H as <- <-. exists [], []. rewrite app_nil_r.
    repeat split. constructor.
  - destruct it as [cl | cl | cl | cl]; cbn [match_here] in H.
    + destruct s as [| c s]; [discriminate |].
      destruct (accepts cl c) eqn:A; [| discriminate].
      destruct (IH _ _ _ _ H) as (consumed & g & -> & -> & P).
      exists (c :: consumed), g. repeat split. now constructor.
    + apply greedy_sound in H. destruct H as (run & rest' & -> & F & K).
      destruct (IH _ _ _ _ K) as (consumed & g & -> & -> & P).
      exists (run ++ consumed), g. rewrite <- app_assoc. repeat split. now constructor.
    + apply greedy_sound in H. destruct H as (run & rest' & -> & F & K).
      cbn [app] in K. destruct run as [| c run]; [discriminate |].
      destruct (IH _ _ _ _ K) as (consumed & g & -> & -> & P).
      exists ((c :: run) ++ consumed), g. rewrite <- app_assoc. repeat split.
      constructor; [discriminate | exact F | exact P].
    + apply greedy_sound in H. destruct H as (run & rest' & -> & F & K).
      cbn [app] in K. destruct run as [| c run]; [discriminate |].
      destruct (IH _ _ _ _ K) as (consumed & g & -> & -> & P).
      exists ((c :: run) ++ consumed), ((c :: run) :: g).
      rewrite <- !app_assoc. repeat split.
      constructor; [discriminate | exact F | exact P].
Qed.

Lemma match_here_complete (p : list item) (consumed : text) (g : list text) :
  Parses p consumed g ->
  forall (caps : list text) (rest : text),
    match_here p caps (consumed ++ rest) <> None.
Proof.
  induction 1 as [| cl c p s g A P IH | cl run p s g F P IH
                  | cl run p s g N F P IH | cl run p s g N F P IH];
    intros caps rest; cbn [match_here].
  - discriminate.
  - cbn [app]. rewrite A. apply IH.
  - rewrite <- app_assoc. apply greedy_complete; [exact F |]. apply IH.
  - rewrite <- app_assoc. apply greedy_complete; [exact F |].
    cbn [app]. destruct run; [contradiction | apply IH].
  - rewrite <- app_assoc. apply greedy_complete; [exact F |].
    cbn [app]. destruct run; [contradiction | apply IH].
Qed.

(** The groups of a parse are runs of the classes of the pattern's
    groups. *)
Lemma parses_groups (p : list item) (s : text) (g : list text) :
  Parses p s g -> Forall2 run_of (group_classes p) g.
Proof.
  induction 1; cbn [group_classes]; try assumption.
  - constructor.
  - constructor; [now split | assumption].
Qed.

(** What matches is never empty when the pattern has a [+] or a
    character in it. *)
Lemma parses_nonempty (p : list item) (s : text) (g : list text) :
  Parses p s g ->
  existsb (fun it => match it with Star _ => false | _ => true end) p = true ->
  s <> [].
Proof.
  induction 1 as [| cl c p s g A P IH | cl run p s g F P IH
                  | cl run p s g N F P IH | cl run p s g N F P IH];
    cbn [existsb]; intros E.
  - discriminate.
  - discriminate.
  - cbn [orb] in E. intros Z. apply app_eq_nil in Z. destruct Z as [_ Z].
    now apply IH.
  - intros Z. apply app_eq_nil in Z. tauto.
  - intros Z. apply app_eq_nil in Z. tauto.
Qed.

(** Every match that [finditer] reports was found by [match_here] at
    some place of the text. *)
Lemma finditer_from_In (p : list item) (s : text) :
  forall (skip : nat) (m : list text),
    In m (finditer_from p skip s) ->
    exists before from rest,
      s = before ++ from /\ match_here p [] from = Some (m, rest).
Proof.
  induction s as [| c s IH]; intros skip m H; cbn [finditer_from] in H; [contradiction |].
  assert (Later : forall k, In m (finditer_from p k s) ->
                            exists before from rest,
                              c :: s = before ++ from
                              /\ match_here p [] from = Some (m, rest)).
  { intros k Hk. destruct (IH _ _ Hk) as (before & from & rest & -> & M).
    now exists (c :: before), from, rest. }
  destruct skip as [| n]; [| now apply (Later n)].
  destruct (match_here p [] (c :: s)) as [[caps rest] |] eqn:M.
  - destruct H as [<- | H]; [| now apply (Later _ H)].
    now exists [], (c :: s), rest.
  - now apply (Later 0).
Qed.

(** When [finditer] reports nothing, [match_here] failed at every place
    but the very end, and the other way round. *)
Lemma finditer_nil_fails (p : list item) (s : text) :
  finditer p s = [] ->
  forall before from, s = before ++ from -> from <> [] -> match_here p [] from = None.
Proof.
  unfold finditer. induction s as [| c s IH]; intros H before from E N.
  - symmetry in E. apply app_eq_nil in E. tauto.
  - cbn [finditer_from] in H.
    destruct (match_here p [] (c :: s)) as [[caps rest] |] eqn:M; [discriminate |].
    destruct before as [| b before]; cbn [app] in E.
    + now subst from.
    + injection E as _ E. now apply (IH H before).
Qed.

Lemma fails_finditer_nil (p : list item) (s : text) :
  (forall before from, s = before ++ from -> match_here p [] from = None) ->
  forall skip, finditer_from p skip s = [].
Proof.
  induction s as [| c s IH]; intros H skip; cbn [finditer_from]; [reflexivity |].
  assert (Hs : forall k, finditer_from p k s = []).
  { apply IH. intros before from E. apply (H (c :: before)). now subst. }
  destruct skip; [| apply Hs].
  rewrite (H [] (c :: s) eq_refl). apply Hs.
Qed.

End RegexFacts.

(** X1. The matcher is sound for the language of its pattern: when
    [match_here] succeeds, the input is a matched text followed by the
    rest it returns, the matched text belongs to the pattern, and the
    groups returned are those of that parse, added after the ones it was
    given. *)
Theorem match_here_in_language :
  forall (p : list Regex.item) (caps : list text) (s : text)
         (caps' : list text) (rest : text),
    Regex.match_here p caps s = Some (caps', rest) ->
    exists consumed g,
      s = consumed ++ rest /\ caps' = caps ++ g /\ Lang.Parses p consumed g.
Proof. exact RegexFacts.match_here_sound. Qed.

(** A run of X1: the pattern of the organizer on one entry followed by a
    comment. *)
Lemma match_here_in_language_witness :
  exists consumed g,
    lit "k:" ++ [newline] ++ lit " path: a/b.md" ++ [newline] ++ lit " status: done # ok"
    = consumed ++ lit " # ok"
    /\ [lit "k"; lit "a/b.md"; lit "done"] = [] ++ g
    /\ Lang.Parses Organizer.pattern consumed g.
Proof.
  apply (@match_here_in_language Organizer.pattern []
           (lit "k:" ++ [newline] ++ lit " path: a/b.md" ++ [newline]
            ++ lit " status: done # ok")
           [lit "k"; lit "a/b.md"; lit "done"] (lit " # ok")).
  vm_compute. reflexivity.
Defined.

(** X2. Backtracking loses no match: if some front part of the input
    belongs to the pattern, [match_here] succeeds on the input, whatever
    follows that part and whatever groups were collected before. *)
Theorem match_here_finds_a_match :
  forall (p : list Regex.item) (consumed rest : text) (g caps : list text),
    Lang.Parses p consumed g ->
    exists caps' rest', Regex.match_here p caps (consumed ++ rest) = Some (caps', rest').
Proof.
  intros p consumed rest g caps P.
  pose proof (RegexFacts.match_here_complete P caps rest) as H.
  destruct (Regex.match_here p caps (consumed ++ rest)) as [[caps' rest'] |];
    [now exists caps', rest' | contradiction].
Qed.

(** A run of X2: [\S+:] on [a:b:c], where the parse that stops at the
    first colon makes the matcher succeed (it stops at the last). *)
Lemma match_here_finds_a_match_witness :
  exists caps' rest',
    Regex.match_here [Regex.Plus Regex.NonSpace; Regex.One (Regex.Chr 58%N)] []
      (lit "a:" ++ lit "b:c") = Some (caps', rest').
Proof.
  apply (@match_here_finds_a_match
           [Regex.Plus Regex.NonSpace; Regex.One (Regex.Chr 58%N)]
           (lit "a:") (lit "b:c") [] []).
  refine (@Lang.parses_plus Regex.NonSpace (lit "a") _ (lit ":") [] _ _ _).
  - discriminate.
  - repeat constructor.
  - refine (@Lang.parses_one (Regex.Chr 58%N) 58%N [] [] [] _ _).
    + reflexivity.
    + constructor.
Defined.

(** ** What the organizer reads *)

Module StoriesFacts.

Import Organizer.

Lemma run_of_word_like (t : text) : Lang.run_of Regex.NonSpace t -> Seen.word_like t.
Proof.
  intros [N F]. split; [exact N |].
  apply Forall_impl with (2 := F). intros c A. cbn in A.
  now destruct (is_space c).
Qed.

(** Every match of the pattern has its three groups, none of them empty
    or with white space inside. *)
Lemma match_groups (content : text) (m : list text) :
  In m (Regex.finditer pattern content) ->
  exists key path status,
    m = [key; path; status]
    /\ Seen.word_like key /\ Seen.word_like path /\ Seen.word_like status.
Proof.
  intros H. apply RegexFacts.finditer_from_In in H.
  destruct H as (before & from & rest & _ & M).
  apply RegexFacts.match_here_sound in M. destruct M as (consumed & g & _ & E & P).
  cbn [app] in E. subst g.
  apply RegexFacts.parses_groups in P.
  change (Lang.group_classes pattern)
    with [Regex.NonSpace; Regex.NonSpace; Regex.NonSpace] in P.
  inversion P as [| ? key ? m1 K P1]; subst.
  inversion P1 as [| ? path ? m2 Pa P2]; subst.
  inversion P2 as [| ? status ? m3 S P3]; subst.
  inversion P3; subst.
  exists key, path, status. auto using run_of_word_like.
Qed.

Lemma set_not_nil {V} (k : text) (v : V) (d : Dict.dict V) : Dict.set k v d <> [].
Proof.
  destruct d as [| [k' v'] d]; cbn; [discriminate |].
  destruct (text_eqb k' k); discriminate.
Qed.

Lemma fold_add_story_nil (ms : list (list text)) :
  forall d, fold_left add_story ms d = [] -> ms = [] /\ d = [].
Proof.
  induction ms as [| m ms IH]; intros d H; cbn in H; [now split |].
  apply IH in H. destruct H as [_ H]. now apply set_not_nil in H.
Qed.

Lemma pattern_parses_nonempty (s : text) (g : list text) :
  Lang.Parses pattern s g -> s <> [].
Proof. intros P. apply (RegexFacts.parses_nonempty P). reflexivity. Qed.

End StoriesFacts.

(** X3. Every entry that the organizer finds in the status file has a key,
    a path and a status, and none of the three is empty or has white space
    in it. *)
Theorem matched_groups_are_words :
  forall (content : text) (m : list text),
    In m (Regex.finditer Organizer.pattern content) ->
    exists key path status,
      m = [key; path; status]
      /\ Seen.word_like key /\ Seen.word_like path /\ Seen.word_like status.
Proof. exact StoriesFacts.match_groups. Qed.

(** A run of X3: the second entry of [Examples.twice]. *)
Lemma matched_groups_are_words_witness :
  exists key path status,
    [lit "story-1-copy"; lit "archive/1-1-cart.md"; lit "in-progress"] = [key; path; status]
    /\ Seen.word_like key /\ Seen.word_like path /\ Seen.word_like status.
Proof.
  apply (@matched_groups_are_words Examples.twice
           [lit "story-1-copy"; lit "archive/1-1-cart.md"; lit "in-progress"]).
  vm_compute. right. left. reflexivity.
Defined.

(** X4. The organizer finds no story exactly when no part of the status
    file is an entry in the sense of the pattern: the dictionary is empty
    if and only if the content has no such part anywhere. *)
Theorem no_story_iff_no_entry :
  forall content : text,
    Organizer.stories_of content = [] <-> ~ Seen.has_entry content.
Proof.
  intros content. unfold Organizer.stories_of. split.
  - intros H (before & entry & after & g & E & P).
    apply StoriesFacts.fold_add_story_nil in H. destruct H as [H _].
    assert (N : entry ++ after <> []).
    { intros Z. apply app_eq_nil in Z. destruct Z as [Z _].
      now apply (StoriesFacts.pattern_parses_nonempty P). }
    pose proof (@RegexFacts.finditer_nil_fails _ _ H before (entry ++ after) E N) as F.
    now apply (RegexFacts.match_here_complete P [] after).
  - intros H.
    assert (F : Regex.finditer Organizer.pattern content = []).
    { apply RegexFacts.fails_finditer_nil. intros before from E.
      destruct (Regex.match_here Organizer.pattern [] from) as [[caps rest] |] eqn:M;
        [| reflexivity].
      exfalso. apply H.
      apply RegexFacts.match_here_sound in M. destruct M as (consumed & g & -> & _ & P).
      now exists before, consumed, rest, g. }
    now rewrite F.
Qed.

(** ** Paths *)

Module SplitFacts.

Import PathShape.

Lemma existsb_eqb_In (c : char) (s : text) : existsb (N.eqb c) s = true <-> In c s.
Proof.
  rewrite existsb_exists. split.
  - intros (x & Hx & E). apply N.eqb_eq in E. now subst.
  - intros H. exists c. split; [exact H | apply N.eqb_refl].
Qed.

Lemma existsb_eqb_not_In (c : char) (s : text) : existsb (N.eqb c) s = false -> ~ In c s.
Proof. intros E H. apply existsb_eqb_In in H. congruence. Qed.

Lemma after_last_free (c : char) (s : text) : ~ In c (after_last c s).
Proof.
  induction s as [| x s IH]; cbn [after_last]; [intros [] |].
  destruct (existsb (N.eqb c) s) eqn:E; [exact IH |].
  apply existsb_eqb_not_In in E.
  destruct (x =? c)%N eqn:X; [exact E |].
  apply N.eqb_neq in X. intros [H | H]; [now apply X | now apply E].
Qed.

Lemma split_at_last (c : char) (s : text) : upto_last c s ++ after_last c s = s.
Proof.
  induction s as [| x s IH]; cbn [upto_last after_last]; [reflexivity |].
  destruct (existsb (N.eqb c) s).
  - cbn [app]. now rewrite IH.
  - now destruct (x =? c)%N.
Qed.

Lemma upto_last_shape (c : char) (s : text) :
  upto_last c s = [] \/ exists h, upto_last c s = h ++ [c].
Proof.
  induction s as [| x s IH]; cbn [upto_last]; [now left |].
  destruct (existsb (N.eqb c) s) eqn:E.
  - right. destruct IH as [Z | (h & Z)].
    + exfalso. apply existsb_eqb_In in E.
      pose proof (split_at_last c s) as Sp. rewrite Z in Sp. cbn [app] in Sp.
      rewrite <- Sp in E. now apply (after_last_free c s).
    + exists (x :: h). now rewrite Z.
  - destruct (x =? c)%N eqn:X; [| now left].
    apply N.eqb_eq in X. subst x. right. now exists [].
Qed.

Lemma after_last_free_id (c : char) (s : text) : ~ In c s -> after_last c s = s.
Proof.
  intros H. destruct s as [| x s]; [reflexivity |]. cbn [after_last].
  assert (E : existsb (N.eqb c) s = false).
  { destruct (existsb (N.eqb c) s) eqn:E; [| reflexivity].
    apply existsb_eqb_In in E. exfalso. apply H. now right. }
  rewrite E. destruct (x =? c)%N eqn:X; [| reflexivity].
  apply N.eqb_eq in X. exfalso. apply H. now left.
Qed.

Lemma upto_last_child (c : char) (front name : text) :
  ~ In c name -> upto_last c (front ++ c :: name) = front ++ [c].
Proof.
  intros H. induction front as [| x front IH]; cbn [app upto_last].
  - assert (E : existsb (N.eqb c) name = false).
    { destruct (existsb (N.eqb c) name) eqn:E; [| reflexivity].
      apply existsb_eqb_In in E. contradiction. }
    now rewrite E, N.eqb_refl.
  - assert (E : existsb (N.eqb c) (front ++ c :: name) = true).
    { apply existsb_eqb_In. apply in_or_app. right. now left. }
    now rewrite E, IH.
Qed.

Lemma rstrip_open_ended (t : text) : open_ended t -> rstrip slash (t ++ [slash]) = t.
Proof.
  intros (front & l & -> & N). unfold rstrip.
  rewrite !rev_app_distr. cbn [rev app lstrip]. rewrite N.eqb_refl.
  apply N.eqb_neq in N. rewrite N. cbn [rev app]. now rewrite rev_involutive.
Qed.

Lemma not_all_slashes (t : text) (extra : text) :
  open_ended t -> forallb (N.eqb slash) (t ++ extra) = false.
Proof.
  intros (front & l & -> & N). rewrite !forallb_app. cbn [forallb].
  assert (E : (slash =? l)%N = false) by (apply N.eqb_neq; congruence).
  rewrite E. cbn. now rewrite andb_false_r.
Qed.

(** The directory of a name directly under an open-ended path is that
    path; directly under the root it is the root. *)
Lemma dirname_child (t name : text) :
  open_ended t -> ~ In slash name -> Path.dirname (t ++ slash :: name) = t.
Proof.
  intros O H. unfold Path.dirname. rewrite (@upto_last_child slash t name H).
  rewrite (@not_all_slashes t [slash] O). now apply rstrip_open_ended.
Qed.

Lemma dirname_root_child (name : text) :
  ~ In slash name -> Path.dirname (slash :: name) = [slash].
Proof.
  intros H. unfold Path.dirname.
  change (slash :: name) with ([] ++ slash :: name). rewrite (@upto_last_child slash [] name H).
  reflexivity.
Qed.

Lemma open_ended_child (t name : text) :
  name <> [] -> ~ In slash name -> open_ended (t ++ slash :: name).
Proof.
  intros N H. destruct (exists_last N) as (front & l & ->).
  exists (t ++ slash :: front), l. split.
  - now rewrite <- app_assoc.
  - intros ->. apply H. apply in_or_app. right. now left.
Qed.

Lemma join_open_ended (t name : text) :
  open_ended t -> startswith [slash] name = false -> Path.join t name = t ++ slash :: name.
Proof.
  intros (front & l & -> & N) S. unfold Path.join. rewrite S, rev_app_distr.
  cbn [rev app]. apply N.eqb_neq in N. now rewrite N.
Qed.

Lemma startswith_slash_free (name : text) :
  ~ In slash name -> startswith [slash] name = false.
Proof.
  intros H. destruct name as [| x name]; [reflexivity |].
  cbn [startswith]. destruct (slash =? x)%N eqn:E; [| reflexivity].
  apply N.eqb_eq in E. exfalso. apply H. now left.
Qed.

End SplitFacts.

(** X5. [os.path.basename(p)] is what follows the last slash of [p]: [p]
    is a head followed by the base name, the head is empty or ends in a
    slash, the base name has no slash, and the base name of a base name is
    itself. *)
Theorem basename_is_last_component :
  forall p : text,
    (exists head,
        p = head ++ Path.basename p
        /\ (head = [] \/ exists h, head = h ++ [slash]))
    /\ ~ In slash (Path.basename p)
    /\ Path.basename (Path.basename p) = Path.basename p.
Proof.
  intros p. unfold Path.basename. split; [| split].
  - exists (upto_last slash p). split.
    + symmetry. apply SplitFacts.split_at_last.
    + apply SplitFacts.upto_last_shape.
  - apply SplitFacts.after_last_free.
  - apply SplitFacts.after_last_free_id. apply SplitFacts.after_last_free.
Qed.

(** X6. The uploads directory lies three levels above the script, beside
    the directory two levels above it: for a script at [root/a/b/name],
    with [a], [b] and [name] free of slashes, [a] and [b] not empty, and
    [root] empty or not ending in a slash, it is [root/uploads]. *)
Theorem uploads_beside_grandparent :
  forall root a b name : text,
    root = [] \/ PathShape.open_ended root ->
    a <> [] -> b <> [] ->
    ~ In slash a -> ~ In slash b -> ~ In slash name ->
    Generator.UPLOADS_DIR (root ++ slash :: a ++ slash :: b ++ slash :: name)
    = root ++ lit "/uploads".
Proof.
  intros root a b name R Na Nb Ha Hb Hn. unfold Generator.UPLOADS_DIR.
  assert (Oa : PathShape.open_ended (root ++ slash :: a))
    by now apply SplitFacts.open_ended_child.
  assert (Ob : PathShape.open_ended ((root ++ slash :: a) ++ slash :: b))
    by now apply SplitFacts.open_ended_child.
  replace (root ++ slash :: a ++ slash :: b ++ slash :: name)
    with (((root ++ slash :: a) ++ slash :: b) ++ slash :: name)
    by now rewrite <- !app_assoc.
  rewrite (@SplitFacts.dirname_child _ _ Ob Hn), (@SplitFacts.dirname_child _ _ Oa Hb).
  destruct R as [-> | R].
  - cbn [app]. rewrite (@SplitFacts.dirname_root_child _ Ha). reflexivity.
  - rewrite (@SplitFacts.dirname_child _ _ R Ha).
    now rewrite SplitFacts.join_open_ended.
Qed.

(** A run of X6: the script of [Examples.script_file]. *)
Lemma uploads_beside_grandparent_witness :
  Generator.UPLOADS_DIR
    (lit "/srv/app" ++ slash :: lit "src" ++ slash :: lit "scripts"
     ++ slash :: lit "generate-product-images.py")
  = lit "/srv/app" ++ lit "/uploads".
Proof.
  apply (@uploads_beside_grandparent (lit "/srv/app") (lit "src") (lit "scripts")
           (lit "generate-product-images.py")).
  - right. exists (lit "/srv/ap"), 112%N. split; [reflexivity | discriminate].
  - discriminate.
  - discriminate.
  - vm_compute. intuition discriminate.
  - vm_compute. intuition discriminate.
  - vm_compute. intuition discriminate.
Defined.

(** ** The dictionary of stories *)

Module KeysFacts.

Import Organizer Seen.

Lemma filter_ext_in_bool {A} (f g : A -> bool) (l : list A) :
  (forall x, In x l -> f x = g x) -> filter f l = filter g l.
Proof.
  induction l as [| x l IH]; intros H; cbn [filter]; [reflexivity |].
  rewrite (H x (or_introl eq_refl)), IH; [reflexivity |].
  intros y Hy. apply H. now right.
Qed.

Lemma filter_filter {A} (f g : A -> bool) (l : list A) :
  filter f (filter g l) = filter (fun x => g x && f x) l.
Proof.
  induction l as [| x l IH]; cbn [filter]; [reflexivity |].
  destruct (g x); cbn [filter andb]; [destruct (f x) |]; now rewrite IH.
Qed.

Lemma filter_all {A} (f : A -> bool) (l : list A) :
  (forall x, f x = true) -> filter f l = l.
Proof.
  intros H. induction l as [| x l IH]; cbn [filter]; [reflexivity |].
  now rewrite H, IH.
Qed.

Lemma mem_app_one (x k : text) (ks : list text) :
  mem x (ks ++ [k]) = mem x ks || text_eqb x k.
Proof. unfold mem. rewrite existsb_app. cbn. now rewrite orb_false_r. Qed.

Lemma text_eqb_sym (a b : text) : text_eqb a b = text_eqb b a.
Proof.
  destruct (text_eqb b a) eqn:E.
  - apply text_eqb_eq in E. subst. now apply text_eqb_eq.
  - apply text_eqb_neq in E. apply text_eqb_neq. congruence.
Qed.

(** The keys after a run of the loop: those there before, then the new
    ones where they come first. *)
Lemma fold_keys (ms : list (list text)) :
  forall d : Dict.dict text,
    Dict.keys (fold_left add_story ms d)
    = Dict.keys d
      ++ filter (fun x => negb (mem x (Dict.keys d))) (first_seen (map key_of ms)).
Proof.
  induction ms as [| m ms IH]; intros d; cbn [fold_left map first_seen filter].
  - now rewrite app_nil_r.
  - rewrite IH. unfold add_story. fold (key_of m).
    rewrite !DictFacts.keys_set.
    destruct (mem (key_of m) (Dict.keys d)) eqn:E; cbn [negb].
    + f_equal. rewrite filter_filter. apply filter_ext_in_bool. intros x _.
      destruct (text_eqb x (key_of m)) eqn:X; cbn [negb andb]; [| reflexivity].
      apply text_eqb_eq in X. subst x. now rewrite E.
    + rewrite <- app_assoc. cbn [app]. f_equal. f_equal.
      rewrite filter_filter. apply filter_ext_in_bool. intros x _.
      rewrite mem_app_one, negb_orb. apply andb_comm.
Qed.

Lemma first_seen_length (ks : list text) : length (first_seen ks) <= length ks.
Proof.
  induction ks as [| k ks IH]; cbn [first_seen length]; [lia |].
  pose proof (filter_length_le (fun x => negb (text_eqb x k)) (first_seen ks)). lia.
Qed.

Lemma first_seen_In (ks : list text) (x : text) : In x (first_seen ks) -> In x ks.
Proof.
  induction ks as [| k ks IH]; cbn [first_seen]; [auto |].
  intros [-> | H]; [now left |]. right. apply IH.
  apply filter_In in H. tauto.
Qed.

End KeysFacts.

(** X7. The keys of the dictionary that [parse_stories_from_yaml] builds
    are the base names of the matched paths, each once and in the order
    in which they first appear in the file; so the number of stories that
    the organizer announces is at most the number of entries matched. *)
Theorem stories_keys_first_seen :
  forall content : text,
    let names := map Organizer.key_of (Regex.finditer Organizer.pattern content) in
    Dict.keys (Organizer.stories_of content) = Seen.first_seen names
    /\ length (Organizer.stories_of content) <= length names.
Proof.
  intros content names.
  assert (K : Dict.keys (Organizer.stories_of content) = Seen.first_seen names).
  { unfold Organizer.stories_of. rewrite KeysFacts.fold_keys. cbn [Dict.keys map app].
    fold names. now apply KeysFacts.filter_all. }
  split; [exact K |].
  replace (length (Organizer.stories_of content))
    with (length (Dict.keys (Organizer.stories_of content)))
    by apply length_map.
  rewrite K. apply KeysFacts.first_seen_length.
Qed.

(** ** The organizer as a whole *)

Module RunFacts.

Import Organizer Confined PathShape.

Section WithOS.
Context {W : Type} (os : OS W).

(** A run of [organize_stories], stage by stage. *)
Lemma organize_stories_run (st : proc W) :
  organize_stories os st
  = match read_text os (world st) YAML_PATH with
    | Raise e => (emit st [Printed (lit "Parsing sprint-status.yaml...")], Raise e)
    | Return content =>
        let found :=
          Printed (lit "Found " ++ str_of_int (Z.of_nat (length (stories_of content)))
                   ++ lit " stories with paths") in
        match for_each STATUS_FOLDERS (create_folder os) tt
                (emit st [Printed (lit "Parsing sprint-status.yaml..."); found]) with
        | (st2, Raise e) => (st2, Raise e)
        | (st2, Return _) =>
            match for_each (stories_of content) (organize_item os) (0, 0)%Z st2 with
            | (st3, Raise e) => (st3, Raise e)
            | (st3, Return counts) => (emit st3 (summary counts), Return tt)
            end
        end
    end.
Proof.
  unfold organize_stories. rewrite bind_run, print_run, bind_run.
  unfold parse_stories_from_yaml. rewrite bind_run. unfold ask. rewrite world_emit.
  destruct (read_text os (world st) YAML_PATH) as [content | e]; [| reflexivity].
  unfold ret at 1. rewrite bind_run, print_run, emit_emit, bind_run. cbv zeta. cbn [app].
  destruct (for_each STATUS_FOLDERS (create_folder os) tt _) as [st2 [[] | e]];
    [| reflexivity].
  rewrite bind_run.
  destruct (for_each (stories_of content) (organize_item os) (0, 0)%Z st2)
    as [st3 [counts | e]]; [| reflexivity].
  rewrite bind_run, print_run, bind_run, print_run, print_run, !emit_emit.
  reflexivity.
Qed.

(** What one turn of the loop adds to the trace. *)
Lemma item_shape (filename status : text) (counts : Z * Z) (st : proc W) :
  let src := Path.join BASE_DIR filename in
  let dst := Path.join3 BASE_DIR (target_folder status) filename in
  exists st' counts' new,
    organize_item os (filename, status) counts st = (st', Return counts')
    /\ trace st' = trace st ++ new
    /\ (new = []
        \/ exists outcome line, new = [Move src dst outcome; Printed line]).
Proof.
  intros src dst. destruct counts as [m k].
  destruct (path_exists os (world st) src) eqn:He.
  - destruct (move os (world st) src dst) as [w' [e |]] eqn:Hm.
    + rewrite (OrganizerFacts.item_failed os filename status m k st He Hm).
      eexists. eexists. eexists. split; [reflexivity |]. split; [reflexivity |].
      right. eauto.
    + rewrite (OrganizerFacts.item_moved os filename status m k st He Hm).
      eexists. eexists. eexists. split; [reflexivity |]. split; [reflexivity |].
      right. eauto.
  - rewrite (OrganizerFacts.item_absent os filename status (m, k) st He).
    exists st, (m, k), []. rewrite app_nil_r. auto.
Qed.

(** A loop whose turns always come back and add events of one kind adds
    events of that kind. *)
Lemma for_each_events {A B} (P : event -> Prop) (Q : A -> Prop)
      (body : A -> B -> M W B) (xs : list A) :
  (forall x acc st, Q x ->
                    exists st' acc' new,
                      body x acc st = (st', Return acc')
                      /\ trace st' = trace st ++ new /\ Forall P new) ->
  Forall Q xs ->
  forall acc st,
  exists st' acc' new,
    for_each xs body acc st = (st', Return acc')
    /\ trace st' = trace st ++ new /\ Forall P new.
Proof.
  intros Hbody HQ. induction HQ as [| x xs Hx _ IH]; intros acc st.
  - exists st, acc, []. rewrite app_nil_r. repeat split. constructor.
  - destruct (Hbody x acc st Hx) as (st1 & acc1 & new1 & H1 & T1 & P1).
    destruct (IH acc1 st1) as (st2 & acc2 & new2 & H2 & T2 & P2).
    exists st2, acc2, (new1 ++ new2). rewrite for_each_cons, H1, H2.
    split; [reflexivity |]. split.
    + rewrite T2, T1. now rewrite app_assoc.
    + apply Forall_app. now split.
Qed.

End WithOS.

Lemma base_open_ended : open_ended BASE_DIR.
Proof.
  exists (removelast BASE_DIR), 115%N. split; [vm_compute; reflexivity | discriminate].
Qed.

Lemma folders_plain (folder : text) :
  In folder STATUS_FOLDERS -> folder <> [] /\ ~ In slash folder.
Proof.
  intros H. cbn in H.
  repeat (destruct H as [<- | H]; [split; [discriminate | vm_compute; intuition discriminate] |]).
  contradiction.
Qed.

Lemma target_folder_known (status : text) : In (target_folder status) STATUS_FOLDERS.
Proof.
  unfold target_folder. destruct (mem status STATUS_FOLDERS) eqn:E.
  - now apply mem_In.
  - right. right. right. now left.
Qed.

Lemma join_base (name : text) :
  ~ In slash name -> Path.join BASE_DIR name = BASE_DIR ++ slash :: name.
Proof.
  intros H. apply SplitFacts.join_open_ended; [apply base_open_ended |].
  now apply SplitFacts.startswith_slash_free.
Qed.

Lemma join3_base (folder name : text) :
  In folder STATUS_FOLDERS -> ~ In slash name ->
  Path.join3 BASE_DIR folder name = BASE_DIR ++ slash :: folder ++ slash :: name.
Proof.
  intros Hf Hn. destruct (folders_plain Hf) as [N S]. unfold Path.join3.
  rewrite (@join_base folder S).
  rewrite SplitFacts.join_open_ended.
  - now rewrite <- app_assoc.
  - now apply SplitFacts.open_ended_child.
  - now apply SplitFacts.startswith_slash_free.
Qed.

(** The file names of the stories have no slash. *)
Lemma stories_plain (content : text) :
  Forall (fun story : text * text => ~ In slash (fst story)) (stories_of content).
Proof.
  apply Forall_forall. intros [name status] Hin. cbn [fst].
  assert (K : In name (Dict.keys (stories_of content))).
  { unfold Dict.keys. apply in_map_iff. now exists (name, status). }
  unfold stories_of in K. rewrite KeysFacts.fold_keys in K. cbn [Dict.keys map app] in K.
  apply filter_In in K. destruct K as [K _].
  apply KeysFacts.first_seen_In in K. apply in_map_iff in K.
  destruct K as (m & <- & _). apply SplitFacts.after_last_free.
Qed.

End RunFacts.

Module ConfinedFacts.

Import Organizer Confined.

Section WithOS.
Context {W : Type} (os : OS W).

Lemma folders_inside (folders : list text) :
  incl folders STATUS_FOLDERS ->
  forall st : proc W,
  exists new,
    trace (fst (for_each folders (create_folder os) tt st)) = trace st ++ new
    /\ Forall inside_base new.
Proof.
  induction folders as [| folder folders IH]; intros Hin st.
  - exists []. cbn. rewrite app_nil_r. split; [reflexivity | constructor].
  - assert (Hf : In folder STATUS_FOLDERS) by (apply Hin; now left).
    assert (Hp : Path.join BASE_DIR folder = BASE_DIR ++ slash :: folder).
    { apply RunFacts.join_base. now apply RunFacts.folders_plain. }
    rewrite for_each_cons, OrganizerFacts.create_folder_step. cbv zeta.
    destruct (makedirs os (world st) (Path.join BASE_DIR folder)) as [w' [e |]].
    + eexists. split; [reflexivity |].
      constructor; [| constructor]. exists folder. now split.
    + match goal with |- context [for_each folders _ tt ?s] =>
        destruct (IH (fun x Hx => Hin x (or_intror Hx)) s) as (new & T & P) end.
      rewrite T. cbn [trace]. eexists. rewrite <- app_assoc. split; [reflexivity |].
      apply Forall_app. split; [| exact P].
      constructor; [exists folder; now split | constructor; [exact I | constructor]].
Qed.

Lemma item_inside (story : text * text) (counts : Z * Z) (st : proc W) :
  component (fst story) ->
  exists st' counts' new,
    organize_item os story counts st = (st', Return counts')
    /\ trace st' = trace st ++ new /\ Forall inside_base new.
Proof.
  destruct story as [filename status]. cbn [fst]. intros Hc.
  assert (Hn : ~ In slash filename) by apply Hc.
  destruct (RunFacts.item_shape os filename status counts st)
    as (st' & counts' & new & H & T & [-> | (outcome & line & ->)]).
  - exists st', counts', []. repeat split; [exact H | exact T | constructor].
  - eexists. eexists. eexists. split; [exact H |]. split; [exact T |].
    constructor; [| constructor; [exact I | constructor]].
    exists filename, (target_folder status).
    split; [exact Hc |]. split; [apply RunFacts.target_folder_known |].
    split; [now apply RunFacts.join_base |].
    apply RunFacts.join3_base; [apply RunFacts.target_folder_known | exact Hn].
Qed.

Lemma organize_inside (st : proc W) :
  (forall content, read_text os (world st) YAML_PATH = Return content ->
                   plain_names content) ->
  exists new,
    trace (fst (organize_stories os st)) = trace st ++ new /\ Forall inside_base new.
Proof.
  intros Plain. rewrite RunFacts.organize_stories_run.
  destruct (read_text os (world st) YAML_PATH) as [content | e].
  2:{ eexists. split; [reflexivity |]. repeat constructor. }
  cbv zeta.
  match goal with |- context [for_each STATUS_FOLDERS _ tt ?s] =>
    destruct (folders_inside (incl_refl STATUS_FOLDERS) s) as (new1 & T1 & P1);
    destruct (for_each STATUS_FOLDERS (create_folder os) tt s) as [st2 [[] | e]] end;
    cbn [fst] in T1; rewrite trace_emit in T1.
  2:{ exists ([Printed (lit "Parsing sprint-status.yaml...");
               Printed (lit "Found " ++ str_of_int (Z.of_nat (length (stories_of content)))
                        ++ lit " stories with paths")] ++ new1).
      cbn [fst]. rewrite T1, <- app_assoc. split; [reflexivity |].
      apply Forall_app. split; [repeat constructor | exact P1]. }
  assert (Names : Forall (fun story : text * text => component (fst story))
                         (stories_of content)).
  { apply Forall_forall. intros story Hin.
    destruct (proj1 (Forall_forall _ _) (Plain content eq_refl) story Hin) as (N & D1 & D2).
    pose proof (proj1 (Forall_forall _ _) (RunFacts.stories_plain content) story Hin) as S.
    repeat split; assumption. }
  destruct (@RunFacts.for_each_events W _ _ inside_base
              (fun story : text * text => component (fst story))
              (organize_item os) (stories_of content)
              (fun x acc s Hx => @item_inside x acc s Hx)
              Names (0, 0)%Z st2)
    as (st3 & counts & new2 & H2 & T2 & P2).
  rewrite H2. cbn [fst]. rewrite trace_emit, T2, T1.
  exists ([Printed (lit "Parsing sprint-status.yaml...");
           Printed (lit "Found " ++ str_of_int (Z.of_nat (length (stories_of content)))
                    ++ lit " stories with paths")] ++ new1 ++ new2 ++ summary counts).
  split; [now rewrite <- !app_assoc |].
  repeat (apply Forall_app; split); try assumption; repeat constructor.
Qed.

(** The moves of the loop are no more than the stories. *)
Lemma loop_moves_bound (stories : list (text * text)) :
  forall (counts : Z * Z) (st : proc W),
  exists st' counts' new,
    for_each stories (organize_item os) counts st = (st', Return counts')
    /\ trace st' = trace st ++ new
    /\ (Obs.moves_done new + Obs.moves_failed new <= Z.of_nat (length stories))%Z.
Proof.
  induction stories as [| [filename status] stories IH]; intros counts st.
  - exists st, counts, []. rewrite app_nil_r. repeat split. cbn. lia.
  - destruct (RunFacts.item_shape os filename status counts st)
      as (st1 & counts1 & new1 & H1 & T1 & S1).
    destruct (IH counts1 st1) as (st2 & counts2 & new2 & H2 & T2 & B2).
    exists st2, counts2, (new1 ++ new2). rewrite for_each_cons, H1, H2.
    split; [reflexivity |]. split; [rewrite T2, T1; now rewrite app_assoc |].
    rewrite OrganizerFacts.moves_done_app, OrganizerFacts.moves_failed_app.
    change (length ((filename, status) :: stories)) with (S (length stories)).
    rewrite Nat2Z.inj_succ.
    assert (B1 : (Obs.moves_done new1 + Obs.moves_failed new1 <= 1)%Z).
    { destruct S1 as [-> | (outcome & line & ->)]; [cbn; lia |].
      destruct outcome; cbn; lia. }
    lia.
Qed.

End WithOS.

End ConfinedFacts.

(** X8. The organizer touches nothing outside its base directory, as long
    as the file names it reads from the status file are proper names: not
    empty and neither [.] nor [..]; a slash they never have, so that they
    are names of entries of a directory.  Then in any world, whether the script returns or raises,
    everything it does is to print, to make one of the five status folders
    directly under the base directory, or to move the entry of that name at
    the root of the base directory into one of those folders under the same
    name.  It saves nothing. *)
Theorem organizer_stays_inside_base :
  forall (W : Type) (os : OS W) (st : proc W),
    (forall content, read_text os (world st) Organizer.YAML_PATH = Return content ->
                     Confined.plain_names content) ->
    exists new,
      trace (fst (Organizer.script os st)) = trace st ++ new
      /\ Forall Confined.inside_base new.
Proof.
  intros W os st Plain. unfold Organizer.script. rewrite bind_run.
  destruct (ConfinedFacts.organize_inside os st Plain) as (new & T & P).
  destruct (Organizer.organize_stories os st) as [st1 [[] | e]]; cbn [fst] in T.
  - rewrite print_run. cbn [fst]. rewrite trace_emit, T.
    exists (new ++ [Printed (lit "Done!")]). rewrite app_assoc. split; [reflexivity |].
    apply Forall_app. split; [exact P | repeat constructor].
  - exists new. now split.
Qed.

(** A run of X8: the status file names [a.md], [b.md] and [c.md]. *)
Lemma organizer_stays_inside_base_witness :
  exists new,
    trace (fst (Organizer.script Sim.sim_os (Sim.start Examples.partial)))
    = trace (Sim.start Examples.partial) ++ new
    /\ Forall Confined.inside_base new.
Proof.
  apply (@organizer_stays_inside_base Sim.fs Sim.sim_os (Sim.start Examples.partial)).
  intros content H. vm_compute in H. injection H as <-.
  unfold Confined.plain_names.
  replace (Organizer.stories_of Examples.three)
    with [(lit "a.md", lit "done"); (lit "b.md", lit "review"); (lit "c.md", lit "drafted")]
    by (vm_compute; reflexivity).
  repeat constructor; discriminate.
Defined.

(** Why X8 asks for names of entries: the path [x/..] of a status file
    has the file name [..], and the organizer then asks to move the
    directory above its base directory. *)
Lemma dots_leave_base :
  let content :=
    Examples.line "development_status:" ++
    Examples.line "  up:" ++
    Examples.line "    path: x/.." ++
    Examples.line "    status: done" in
  let w := {| Sim.files := [(Organizer.YAML_PATH, content)];
              Sim.dirs := [Organizer.BASE_DIR ++ lit "/.."];
              Sim.locked := [] |} in
  In (Move (Organizer.BASE_DIR ++ lit "/..") (Organizer.BASE_DIR ++ lit "/done/..")
           (Some Sim.missing))
     (trace (fst (Organizer.script Sim.sim_os (Sim.start w)))).
Proof.
  vm_compute. do 12 right. left. reflexivity.
Qed.

(** X9. When the status file cannot be read, the script stops after its
    first line with the exception of the read: the world is as it was, no
    folder was made and nothing was moved. *)
Theorem unreadable_status_file_changes_nothing :
  forall (W : Type) (os : OS W) (st : proc W) (e : exn),
    read_text os (world st) Organizer.YAML_PATH = Raise e ->
    Organizer.script os st
    = ({| world := world st;
          trace := trace st ++ [Printed (lit "Parsing sprint-status.yaml...")] |},
       Raise e).
Proof.
  intros W os st e H. unfold Organizer.script.
  rewrite bind_run, RunFacts.organize_stories_run, H. reflexivity.
Qed.

(** A run of X9: the world without a status file. *)
Lemma unreadable_status_file_changes_nothing_witness :
  Organizer.script Sim.sim_os (Sim.start Examples.bare)
  = ({| world := Examples.bare;
        trace := [] ++ [Printed (lit "Parsing sprint-status.yaml...")] |},
     Raise Sim.missing).
Proof.
  apply (@unreadable_status_file_changes_nothing Sim.fs Sim.sim_os
           (Sim.start Examples.bare) Sim.missing).
  reflexivity.
Defined.

(** X10. When one of the status folders cannot be made, the script raises
    before any file is moved, whatever the status file lists: the folders
    are made before the loop over the stories starts. *)
Theorem folder_failure_moves_nothing :
  forall (W : Type) (os : OS W) (st : proc W) (content : text),
    read_text os (world st) Organizer.YAML_PATH = Return content ->
    Organizer.folders_creatable os (world st) Organizer.STATUS_FOLDERS = false ->
    exists st' e new,
      Organizer.script os st = (st', Raise e)
      /\ trace st' = trace st ++ new
      /\ Forall Confined.no_move new.
Proof.
  intros W os st content Hr Hc. unfold Organizer.script.
  rewrite bind_run, RunFacts.organize_stories_run, Hr. cbv zeta.
  set (head := [Printed (lit "Parsing sprint-status.yaml..."); _]).
  assert (G : forall folders (s : proc W),
             Organizer.folders_creatable os (world s) folders = false ->
             exists s' e new,
               for_each folders (Organizer.create_folder os) tt s = (s', Raise e)
               /\ trace s' = trace s ++ new /\ Forall Confined.no_move new).
  { induction folders as [| folder folders IH]; intros s C; [discriminate C |].
    cbn [Organizer.folders_creatable] in C.
    rewrite for_each_cons, OrganizerFacts.create_folder_step. cbv zeta.
    destruct (makedirs os (world s) (Path.join Organizer.BASE_DIR folder))
      as [w' [e |]] eqn:Hm.
    - eexists. exists e. eexists. split; [reflexivity |]. split; [reflexivity |].
      repeat constructor.
    - match goal with |- context [for_each folders _ tt ?s0] =>
        destruct (IH s0 C) as (s' & e & new & H & T & P) end.
      exists s', e. eexists. split; [exact H |]. rewrite T. cbn [trace].
      rewrite <- app_assoc. split; [reflexivity |].
      apply Forall_app. split; [repeat constructor | exact P]. }
  destruct (G Organizer.STATUS_FOLDERS (emit st head) Hc) as (s' & e & new & H & T & P).
  rewrite H. exists s', e, (head ++ new).
  split; [reflexivity |]. split; [rewrite T, trace_emit; now rewrite app_assoc |].
  apply Forall_app. split; [repeat constructor | exact P].
Qed.

(** A run of X10: in [Examples.no_folder] the folder [in-progress] cannot
    be made. *)
Lemma folder_failure_moves_nothing_witness :
  exists st' e new,
    Organizer.script Sim.sim_os (Sim.start Examples.no_folder) = (st', Raise e)
    /\ trace st' = trace (Sim.start Examples.no_folder) ++ new
    /\ Forall Confined.no_move new.
Proof.
  apply (@folder_failure_moves_nothing Sim.fs Sim.sim_os
           (Sim.start Examples.no_folder) Examples.three).
  - vm_compute. reflexivity.
  - vm_compute. reflexivity.
Defined.

(** X11. Each story is moved at most once: when [organize_stories]
    returns, the calls of [shutil.move] it made, those that returned and
    those that raised together, are no more than the stories it found. *)
Theorem moves_bounded_by_stories :
  forall (W : Type) (os : OS W) (st st' : proc W) (content : text),
    read_text os (world st) Organizer.YAML_PATH = Return content ->
    Organizer.organize_stories os st = (st', Return tt) ->
    exists new,
      trace st' = trace st ++ new
      /\ (Obs.moves_done new + Obs.moves_failed new
          <= Z.of_nat (length (Organizer.stories_of content)))%Z.
Proof.
  intros W os st st' content Hr Hrun.
  rewrite RunFacts.organize_stories_run, Hr in Hrun. cbv zeta in Hrun.
  set (head := [Printed (lit "Parsing sprint-status.yaml..."); _]) in Hrun.
  destruct (OrganizerFacts.create_folders_run os Organizer.STATUS_FOLDERS (emit st head))
    as (st2 & r & new1 & H1 & T1 & D1 & F1 & _).
  rewrite H1 in Hrun. destruct r as [[] | e]; [| discriminate Hrun].
  destruct (ConfinedFacts.loop_moves_bound os (Organizer.stories_of content) (0, 0)%Z st2)
    as (st3 & counts & new2 & H2 & T2 & B2).
  rewrite H2 in Hrun. injection Hrun as <-.
  exists (head ++ new1 ++ new2 ++ Organizer.summary counts). split.
  - rewrite trace_emit, T2, T1, trace_emit. now rewrite <- !app_assoc.
  - rewrite !OrganizerFacts.moves_done_app, !OrganizerFacts.moves_failed_app, D1, F1.
    change (Obs.moves_done head) with 0%Z. change (Obs.moves_failed head) with 0%Z.
    change (Obs.moves_done (Organizer.summary counts)) with 0%Z.
    change (Obs.moves_failed (Organizer.summary counts)) with 0%Z.
    lia.
Qed.

(** A run of X11: [Examples.partial], with three stories and two moves. *)
Lemma moves_bounded_by_stories_witness :
  exists new,
    trace (fst (Organizer.organize_stories Sim.sim_os (Sim.start Examples.partial)))
    = trace (Sim.start Examples.partial) ++ new
    /\ (Obs.moves_done new + Obs.moves_failed new
        <= Z.of_nat (length (Organizer.stories_of Examples.three)))%Z.
Proof.
  apply (@moves_bounded_by_stories Sim.fs Sim.sim_os (Sim.start Examples.partial)
           (fst (Organizer.organize_stories Sim.sim_os (Sim.start Examples.partial)))
           Examples.three).
  - vm_compute. reflexivity.
  - vm_compute. reflexivity.
Defined.

(** ** Colours, beyond six digits *)

Module ColourFacts.

Import Builtins Generator.

Lemma lstrip_head (c : char) (s : text) :
  lstrip c s = [] \/ exists x r, lstrip c s = x :: r /\ (x =? c)%N = false.
Proof.
  induction s as [| x s IH]; cbn [lstrip]; [now left |].
  destruct (x =? c)%N eqn:E; [exact IH |]. right. now exists x, s.
Qed.

Lemma lstrip_firstn (c : char) (n : nat) (s : text) :
  lstrip c (firstn n (lstrip c s)) = firstn n (lstrip c s).
Proof.
  destruct (lstrip_head c s) as [-> | (x & r & -> & E)].
  - now rewrite firstn_nil.
  - destruct n; [reflexivity |]. cbn [firstn lstrip]. now rewrite E.
Qed.

Lemma slice_firstn (i j n : nat) (s : text) :
  j <= n -> slice i j (firstn n s) = slice i j s.
Proof.
  intros H. unfold slice. rewrite skipn_firstn_comm, firstn_firstn.
  f_equal. lia.
Qed.

Lemma slice_short (i j : nat) (s : text) : length s <= i -> slice i j s = [].
Proof.
  intros H. unfold slice. rewrite skipn_all2 by exact H. apply firstn_nil.
Qed.

Lemma slice_length (i j : nat) (s : text) : length (slice i j s) <= j - i.
Proof. unfold slice. rewrite length_firstn. lia. Qed.

Lemma digit_value_range (c : char) (d : Z) : digit_value c = Some d -> (0 <= d)%Z.
Proof.
  unfold digit_value.
  destruct ((48 <=? c) && (c <=? 57))%N eqn:A.
  - intros H. injection H as <-. apply andb_prop in A. destruct A as [A _].
    apply N.leb_le in A. lia.
  - destruct ((97 <=? c) && (c <=? 122))%N eqn:B.
    + intros H. injection H as <-. apply andb_prop in B. destruct B as [B _].
      apply N.leb_le in B. lia.
    + destruct ((65 <=? c) && (c <=? 90))%N eqn:C; [| discriminate].
      intros H. injection H as <-. apply andb_prop in C. destruct C as [C _].
      apply N.leb_le in C. lia.
Qed.

(** What [scan16] returns lies between the value it started from, shifted
    by the digits it read, and the next value so shifted; it reads no more
    digits than there are characters. *)
Lemma scan16_bound (s : text) :
  forall (acc : Z) (count : nat) (after : bool) (v : Z) (count' : nat) (rest : text),
    scan16 acc count after s = Some (v, count', rest) ->
    (0 <= acc)%Z ->
    exists n,
      count' = count + n /\ n <= length s
      /\ (acc * 16 ^ Z.of_nat n <= v < (acc + 1) * 16 ^ Z.of_nat n)%Z.
Proof.
  induction s as [| c s IH]; intros acc count after v count' rest H A;
    cbn [scan16] in H.
  - destruct after; [discriminate |]. injection H as <- <- <-.
    exists 0. cbn. repeat split; lia.
  - assert (Stop : (if after then None else Some (acc, count, c :: s))
                   = Some (v, count', rest) ->
                   exists n, count' = count + n /\ n <= length (c :: s)
                             /\ (acc * 16 ^ Z.of_nat n <= v < (acc + 1) * 16 ^ Z.of_nat n)%Z).
    { destruct after; [discriminate |]. intros E. injection E as <- <- <-.
      exists 0. cbn. repeat split; lia. }
    destruct (c =? underscore)%N.
    + destruct after; [discriminate |].
      destruct (IH _ _ _ _ _ _ H A) as (n & E & L & B).
      exists n. cbn [length]. repeat split; try lia.
    + destruct (digit_value c) as [d |] eqn:D; [| now apply Stop].
      destruct (d <? 16)%Z eqn:Lt; [| now apply Stop].
      apply Z.ltb_lt in Lt. pose proof (digit_value_range c D) as Ge.
      assert (A' : (0 <= acc * 16 + d)%Z) by lia.
      destruct (IH _ _ _ _ _ _ H A') as (n & E & L & B).
      exists (S n). cbn [length]. rewrite Nat2Z.inj_succ, Z.pow_succ_r by lia.
      assert (Pw : (0 < 16 ^ Z.of_nat n)%Z) by (apply Z.pow_pos_nonneg; lia).
      repeat split; try lia; nia.
Qed.

Lemma skip_space_length (s : text) : length (skip_space s) <= length s.
Proof.
  induction s as [| c s IH]; cbn [skip_space]; [lia |].
  destruct (c_space c); cbn [length]; lia.
Qed.

Lemma sign_cases (s1 : text) :
  let r := match s1 with
           | 43%N :: r => (1, r)%Z
           | 45%N :: r => (-1, r)%Z
           | _ => (1, s1)%Z
           end in
  (fst r = 1%Z /\ length (snd r) <= length s1)
  \/ (fst r = (-1)%Z /\ S (length (snd r)) = length s1).
Proof.
  cbv zeta. destruct s1 as [| c r]; [left; cbn; lia |].
  destruct c as [| p]; [left; cbn; lia |].
  repeat (first [ (left; cbn [fst snd length]; split; [reflexivity | lia])
                | (right; cbn [fst snd length]; split; reflexivity)
                | destruct p as [p | p |] ]).
Qed.

Lemma prefix_length (s2 : text) :
  length (match s2 with
          | 48%N :: 120%N :: r | 48%N :: 88%N :: r =>
              match r with
              | 95%N :: r' => r'
              | _ => r
              end
          | _ => s2
          end) <= length s2.
Proof.
  destruct s2 as [| c r]; [cbn; lia |].
  destruct c as [| p]; [cbn; lia |].
  repeat (first [ (cbn [length]; lia) | destruct p as [p | p |] ]).
  destruct r as [| c r]; [cbn; lia |].
  destruct c as [| p]; [cbn; lia |].
  repeat (first [ (cbn [length]; lia) | destruct p as [p | p |] ]).
  all: destruct r as [| c r]; [cbn; lia |].
  all: destruct c as [| p]; [cbn; lia |].
  all: repeat (first [ (cbn [length]; lia) | destruct p as [p | p |] ]).
Qed.

Lemma underscore_guard {A} (s3 : text) (X : option A) (v : A) :
  match s3 with
  | 95%N :: _ => None
  | _ => X
  end = Some v -> X = Some v.
Proof.
  destruct s3 as [| c r]; [auto |].
  destruct c as [| p]; [auto |].
  repeat (first [ (intros H; exact H) | (intros H; discriminate H)
                | destruct p as [p | p |] ]).
Qed.

(** A number read from at most two characters. *)
Lemma int16_short (rt : Runtime) (s : text) (v : Z) :
  length s <= 2 -> int16 rt s = Some v -> (-15 <= v <= 255)%Z.
Proof.
  intros L H. unfold int16 in H.
  set (s1 := skip_space (map (to_ascii rt) s)) in H.
  assert (L1 : length s1 <= 2).
  { unfold s1. pose proof (skip_space_length (map (to_ascii rt) s)) as K.
    rewrite length_map in K. lia. }
  pose proof (sign_cases s1) as C. cbv zeta in C.
  match type of H with context [let (_, _) := ?m in _] =>
    destruct m as [sign s2] eqn:E end.
  cbn [fst snd] in C.
  match type of H with context [scan16 0 0 false ?t] =>
    set (s3 := t) in H; assert (L3 : length s3 <= length s2) by apply prefix_length end.
  apply underscore_guard in H.
  destruct (scan16 0 0 false s3) as [[[v' n] rest] |] eqn:Sc; [| discriminate H].
  destruct n as [| n]; [discriminate H |].
  destruct (skip_space rest); [| discriminate H]. injection H as <-.
  destruct (@scan16_bound s3 0%Z 0 false v' (S n) rest Sc (Z.le_refl 0))
    as (k & Ek & Lk & B).
  cbn [Nat.add] in Ek. subst k.
  assert (P1 : (16 ^ Z.of_nat (S n) <= 16 ^ Z.of_nat (length s3))%Z)
    by (apply Z.pow_le_mono_r; lia).
  destruct C as [[-> C] | [-> C]].
  - assert (P2 : (16 ^ Z.of_nat (length s3) <= 16 ^ 2)%Z)
      by (apply Z.pow_le_mono_r; lia).
    change (16 ^ 2)%Z with 256%Z in P2. lia.
  - assert (P2 : (16 ^ Z.of_nat (length s3) <= 16 ^ 1)%Z)
      by (apply Z.pow_le_mono_r; lia).
    change (16 ^ 1)%Z with 16%Z in P2. lia.
Qed.

Lemma int_of_hex_short (rt : Runtime) (s : text) (v : Z) :
  length s <= 2 -> int_of_hex rt s = Return v -> (-15 <= v <= 255)%Z.
Proof.
  intros L H. unfold int_of_hex in H.
  destruct (int16 rt s) as [v' |] eqn:E; [| discriminate H].
  injection H as <-. now apply (int16_short rt s).
Qed.

End ColourFacts.

(** X12. [hex_to_rgb] looks at nothing but the first six characters that
    follow the leading [#] signs: any number of [#] in front and anything
    after the sixth character change neither the colour returned nor the
    exception raised. *)
Theorem hex_to_rgb_reads_six :
  forall (rt : Runtime) (hex_color : text),
    Generator.hex_to_rgb rt hex_color
    = Generator.hex_to_rgb rt (firstn 6 (lstrip Generator.hash hex_color)).
Proof.
  intros rt hex_color. unfold Generator.hex_to_rgb.
  rewrite ColourFacts.lstrip_firstn.
  now rewrite !ColourFacts.slice_firstn by lia.
Qed.

(** X13. Whenever [hex_to_rgb] returns, each of the three numbers lies
    between -15 and 255: the colour may come out of range below zero,
    since [int] accepts a sign in front of one digit, but never above
    255. *)
Theorem hex_to_rgb_components_bounded :
  forall (rt : Runtime) (hex_color : text) (r g b : Z),
    Generator.hex_to_rgb rt hex_color = Return (r, g, b) ->
    (-15 <= r <= 255)%Z /\ (-15 <= g <= 255)%Z /\ (-15 <= b <= 255)%Z.
Proof.
  intros rt hex_color r g b H. unfold Generator.hex_to_rgb in H.
  set (t := lstrip Generator.hash hex_color) in H.
  destruct (Generator.int_of_hex rt (slice 0 2 t)) as [r' | e] eqn:R; [| discriminate H].
  destruct (Generator.int_of_hex rt (slice 2 4 t)) as [g' | e] eqn:G; [| discriminate H].
  destruct (Generator.int_of_hex rt (slice 4 6 t)) as [b' | e] eqn:B; [| discriminate H].
  injection H as <- <- <-.
  pose proof (ColourFacts.slice_length 0 2 t).
  pose proof (ColourFacts.slice_length 2 4 t).
  pose proof (ColourFacts.slice_length 4 6 t).
  cbn [Nat.sub] in *.
  split; [| split].
  - now apply (@ColourFacts.int_of_hex_short rt (slice 0 2 t)).
  - now apply (@ColourFacts.int_of_hex_short rt (slice 2 4 t)).
  - now apply (@ColourFacts.int_of_hex_short rt (slice 4 6 t)).
Qed.

(** A run of X13, with the three numbers below zero. *)
Lemma hex_to_rgb_components_bounded_witness :
  (-15 <= -1 <= 255)%Z /\ (-15 <= -2 <= 255)%Z /\ (-15 <= -15 <= 255)%Z.
Proof.
  apply (@hex_to_rgb_components_bounded Sim.sim_rt (lit "#-1-2-f") (-1) (-2) (-15)).
  vm_compute. reflexivity.
Defined.

(** X14. A colour with fewer than five characters after its [#] signs is
    refused: [hex_to_rgb] raises on it, so the three-digit form is not
    understood. *)
Theorem hex_to_rgb_refuses_short :
  forall (rt : Runtime) (hex_color : text),
    length (lstrip Generator.hash hex_color) <= 4 ->
    exists e, Generator.hex_to_rgb rt hex_color = Raise e.
Proof.
  intros rt hex_color L. unfold Generator.hex_to_rgb.
  destruct (Generator.int_of_hex rt (slice 0 2 (lstrip Generator.hash hex_color)))
    as [r | e]; [| now exists e].
  destruct (Generator.int_of_hex rt (slice 2 4 (lstrip Generator.hash hex_color)))
    as [g | e]; [| now exists e].
  rewrite (@ColourFacts.slice_short 4 6 _ L). cbn. eauto.
Qed.

(** A run of X14: white in three digits. *)
Lemma hex_to_rgb_refuses_short_witness :
  exists e, Generator.hex_to_rgb Sim.sim_rt (lit "#FFF") = Raise e.
Proof.
  apply (@hex_to_rgb_refuses_short Sim.sim_rt (lit "#FFF")). vm_compute. lia.
Defined.

(** ** The generator as a whole *)

Module ReportFacts.

Import Generator Report.

Section WithPlatform.
Context {W Img : Type} (rt : Runtime) (os : OS W) (pil : Pillow W Img).
Context (script_file : text).

(** One turn of the loop prints one line, the line of its entry, and
    saves nowhere but at the path of its entry. *)
Lemma item_report (config : Config) (counts : Z * Z) (st : proc W) :
  In config IMAGE_CONFIGS ->
  exists st' counts' new line,
    main_item rt os pil script_file config counts st = (st', Return counts')
    /\ trace st' = trace st ++ new
    /\ stdout new = [line] /\ reports rt config line
    /\ Forall (inside_uploads script_file) new.
Proof.
  intros Hin. destruct counts as [g e].
  assert (Hp : output_path script_file config
               = UPLOADS_DIR script_file ++ slash :: output_name config).
  { unfold output_path. apply PathFacts.join_under_uploads.
    now apply PathFacts.configured_names_relative. }
  assert (Sv : forall r, inside_uploads script_file (Save (output_path script_file config) r)).
  { intros r. exists config. now split. }
  destruct (GeneratorFacts.main_item_cases rt os pil script_file config g e st)
    as (st' & new & T & [(size & H & ->) | (ex & early & H & -> & E)]).
  - exists st', (g + 1, e)%Z. eexists. exists (done_line rt config size).
    split; [exact H |]. split; [exact T |]. split; [reflexivity |].
    split; [left; now exists size |].
    constructor; [apply Sv | constructor; [exact I | constructor]].
  - exists st', (g, e + 1)%Z. eexists. exists (failed_line config ex).
    split; [exact H |]. split; [exact T |].
    split; [| split; [right; now exists ex |]].
    + rewrite stdout_app. destruct E as [-> | [-> | ->]]; reflexivity.
    + apply Forall_app. split; [| constructor; [exact I | constructor]].
      destruct E as [-> | [-> | ->]]; repeat constructor; apply Sv.
Qed.

Lemma loop_report (configs : list Config) :
  incl configs IMAGE_CONFIGS ->
  forall (counts : Z * Z) (st : proc W),
  exists st' counts' new lines,
    for_each configs (main_item rt os pil script_file) counts st = (st', Return counts')
    /\ trace st' = trace st ++ new
    /\ stdout new = lines /\ Forall2 (reports rt) configs lines
    /\ Forall (inside_uploads script_file) new.
Proof.
  induction configs as [| config configs IH]; intros Hin counts st.
  - exists st, counts, [], []. rewrite app_nil_r. repeat split; constructor.
  - destruct (@item_report config counts st (Hin config (or_introl eq_refl)))
      as (st1 & counts1 & new1 & line & H1 & T1 & L1 & R1 & P1).
    destruct (IH (fun x Hx => Hin x (or_intror Hx)) counts1 st1)
      as (st2 & counts2 & new2 & lines & H2 & T2 & L2 & R2 & P2).
    exists st2, counts2, (new1 ++ new2), (line :: lines).
    rewrite for_each_cons, H1, H2. split; [reflexivity |].
    split; [rewrite T2, T1; now rewrite app_assoc |].
    split; [rewrite stdout_app, L1, L2; reflexivity |].
    split; [now constructor | apply Forall_app; now split].
Qed.

End WithPlatform.

End ReportFacts.

(** X15. [main] prints one line for each configured entry, in the order
    of the configuration, after its two opening lines and before its
    closing line; and it writes nothing but the files of the configured
    entries, each directly under the uploads directory.  It makes no
    directory and moves nothing. *)
Theorem main_reports_every_entry :
  forall (W Img : Type) (rt : Runtime) (os : OS W) (pil : Pillow W Img)
         (script_file : text) (st : proc W),
  exists new lines last,
    trace (fst (Generator.main rt os pil script_file st)) = trace st ++ new
    /\ stdout new
       = [lit "Generating optimized product images...";
          lit "Output directory: " ++ Generator.UPLOADS_DIR script_file]
         ++ lines ++ [last]
    /\ Forall2 (Report.reports rt) Generator.IMAGE_CONFIGS lines
    /\ Forall (Report.inside_uploads script_file) new.
Proof.
  intros W Img rt os pil script_file st. unfold Generator.main.
  rewrite bind_run, print_run, bind_run, print_run, emit_emit, bind_run.
  set (head := [Printed (lit "Generating optimized product images...")] ++ _).
  destruct (ReportFacts.loop_report rt os pil script_file
              (incl_refl Generator.IMAGE_CONFIGS) (0, 0)%Z (emit st head))
    as (st1 & counts & new & lines & H & T & L & R & P).
  unfold Generator.main_loop. rewrite H, bind_run, print_run. unfold ret. cbn [fst].
  match goal with |- context [emit st1 [Printed ?l]] => set (last := l) end.
  exists (head ++ new ++ [Printed last]), lines, last.
  split; [rewrite trace_emit, T, trace_emit; now rewrite <- !app_assoc |].
  split; [rewrite !stdout_app, L; reflexivity |].
  split; [exact R |].
  repeat (apply Forall_app; split); try assumption; repeat constructor.
Qed.

(** X16. The exit status of the generator is 0 or 1.  When the uploads
    directory cannot be made the script stops there with the exception
    of [makedirs], nothing is drawn or saved, and the status is 1.
    Otherwise [main] makes its run of turns over the configured entries in
    the world that [makedirs] left, and the status is 0 exactly when every
    turn wrote its entry, in which case the files saved are those of the
    configuration, in order; it is 1 when at least one entry was
    refused. *)
Theorem generator_exit_code :
  forall (W Img : Type) (rt : Runtime) (os : OS W) (pil : Pillow W Img)
         (script_file : text) (w : W),
    let start := {| world := w; trace := [] |} in
    let uploads := Generator.UPLOADS_DIR script_file in
    (exists w' ex,
        makedirs os w uploads = (w', Some ex)
        /\ Generator.script rt os pil script_file start
           = ({| world := w'; trace := [MakeDirs uploads (Some ex)] |}, Raise ex)
        /\ Generator.exit_code rt os pil script_file w = 1%Z)
    \/ (exists w' st1 counts outcomes code,
           makedirs os w uploads = (w', None)
           /\ Entry.run rt os pil script_file Generator.IMAGE_CONFIGS (0, 0)%Z
                        {| world := w';
                           trace := MakeDirs uploads None :: Entry.opening script_file |}
                        counts st1 outcomes
           /\ Generator.script rt os pil script_file start
              = (emit st1 (Entry.closing counts), Return code)
           /\ Generator.exit_code rt os pil script_file w = code
           /\ ((code = 0%Z
                /\ Forall Entry.is_written outcomes
                /\ Obs.saved (trace st1)
                   = map (Entry.file_of script_file) Generator.IMAGE_CONFIGS)
               \/ (code = 1%Z /\ Exists Entry.is_refused outcomes))).
Proof.
  intros W Img rt os pil script_file w. cbv zeta.
  unfold Generator.exit_code, Generator.script, exit_status.
  rewrite bind_run. unfold act. cbn [world trace app].
  destruct (makedirs os w (Generator.UPLOADS_DIR script_file)) as [w' [ex |]].
  - left. exists w', ex. repeat split.
  - right.
    match goal with |- context [Generator.main rt os pil script_file ?s] =>
      destruct (TurnFacts.main_is_run rt os pil script_file s)
        as (st1 & counts & outcomes & R & H) end.
    destruct (TurnFacts.run_counts R) as (_ & _ & A & X & _).
    cbn [fst snd] in A, X.
    exists w', st1, counts, outcomes. eexists.
    split; [reflexivity |]. split; [exact R |]. rewrite H. cbn [snd].
    split; [reflexivity |]. split; [reflexivity |].
    destruct (snd counts =? 0)%Z eqn:E.
    + apply Z.eqb_eq in E. left. split; [reflexivity |].
      assert (All : Forall Entry.is_written outcomes) by (apply A; exact E).
      split; [exact All |]. now rewrite (TurnFacts.run_saved R All).
    + apply Z.eqb_neq in E. right. split; [reflexivity |].
      apply X. destruct (TurnFacts.run_counts R) as (_ & _ & _ & _ & M).
      cbn [snd] in M. lia.
Qed.

(** X17. An entry whose colour [hex_to_rgb] refuses is counted as an
    error without any call into Pillow: nothing is drawn, nothing is
    saved, the line for a refused entry carries the message of the
    exception, and the loop goes on from the same world. *)
Theorem bad_colour_is_counted :
  forall (W Img : Type) (rt : Runtime) (os : OS W) (pil : Pillow W Img)
         (script_file : text) (config : Config) (g e : Z) (st : proc W) (ex : exn),
    Generator.hex_to_rgb rt (color config) = Raise ex ->
    Generator.main_item rt os pil script_file config (g, e) st
    = ({| world := world st;
          trace := trace st ++ [Printed (Generator.failed_line config ex)] |},
       Return (g, e + 1)%Z).
Proof.
  intros W Img rt os pil script_file config g e st ex H.
  now rewrite GeneratorFacts.main_item_run, GeneratorFacts.main_try_run, H.
Qed.

(** A run of X17: a colour in three digits. *)
Lemma bad_colour_is_counted_witness :
  Generator.main_item Sim.sim_rt Sim.sim_os Sim.sim_pil Examples.script_file
    Report.short_colour (0, 0)%Z (Sim.start Examples.bare)
  = ({| world := Examples.bare;
        trace := [] ++ [Printed (Generator.failed_line Report.short_colour
                                   (lit "invalid literal for int() with base 16: ''"))] |},
     Return (0, 0 + 1)%Z).
Proof.
  apply (@bad_colour_is_counted Sim.fs (Z * Z * Z) Sim.sim_rt Sim.sim_os Sim.sim_pil
           Examples.script_file Report.short_colour 0%Z 0%Z (Sim.start Examples.bare)
           (lit "invalid literal for int() with base 16: ''")).
  vm_compute. reflexivity.
Defined.

(** ** generate_image *)

Module RenderFacts.

Import Render.

Lemma range0_In (stop x : Z) :
  In x (range0 stop 20) <-> (0 <= x < stop /\ x mod 20 = 0)%Z.
Proof.
  unfold range0. rewrite in_map_iff. split.
  - intros (k & <- & Hk). apply in_seq in Hk. destruct Hk as [_ Hk]. cbn [Nat.add] in Hk.
    assert (K : (Z.of_nat k < (stop + 20 - 1) / 20)%Z) by lia.
    split; [| now rewrite Z.mod_mul].
    Z.div_mod_to_equations. lia.
  - intros [B D]. exists (Z.to_nat (x / 20)). split.
    + rewrite Z2Nat.id by (Z.div_mod_to_equations; lia).
      Z.div_mod_to_equations. lia.
    + apply in_seq. cbn [Nat.add]. split; [lia |].
      apply Z2Nat.inj_lt; Z.div_mod_to_equations; lia.
Qed.

Lemma range0_NoDup (stop : Z) : NoDup (range0 stop 20).
Proof.
  unfold range0. generalize (Z.to_nat ((stop + 20 - 1) / 20)) as n. intros n.
  assert (G : forall start, NoDup (map (fun k => Z.of_nat k * 20)%Z (seq start n))
                            /\ forall x, In x (map (fun k => Z.of_nat k * 20)%Z (seq start n))
                                         -> (Z.of_nat start * 20 <= x)%Z).
  { induction n as [| n IH]; intros start; cbn [seq map].
    - split; [constructor | intros x []].
    - destruct (IH (S start)) as [N B]. split.
      + constructor; [| exact N]. intros H. apply B in H. lia.
      + intros x [<- | H]; [lia |]. apply B in H. lia. }
  apply G.
Qed.

Lemma cells_In (width height i j : Z) :
  In (i, j) (texture_cells width height)
  <-> (0 <= i < width /\ 0 <= j < height
       /\ i mod 20 = 0 /\ j mod 20 = 0 /\ (i + j) mod 40 = 0)%Z.
Proof.
  unfold texture_cells. rewrite in_flat_map. split.
  - intros (i' & Hi & H). rewrite in_flat_map in H. destruct H as (j' & Hj & H).
    destruct ((i' + j') mod 40 =? 0)%Z eqn:E; [| contradiction].
    destruct H as [H | []]. injection H as <- <-.
    apply range0_In in Hi. apply range0_In in Hj. apply Z.eqb_eq in E. tauto.
  - intros (Bi & Bj & Di & Dj & E). exists i. split; [now apply range0_In |].
    rewrite in_flat_map. exists j. split; [now apply range0_In |].
    apply Z.eqb_eq in E. rewrite E. now left.
Qed.

Lemma flat_map_NoDup {A B} (f : A -> list B) (l : list A) :
  NoDup l ->
  (forall a, In a l -> NoDup (f a)) ->
  (forall a a' b, In a l -> In a' l -> In b (f a) -> In b (f a') -> a = a') ->
  NoDup (flat_map f l).
Proof.
  induction l as [| a l IH]; intros Hl Hf Hd; cbn [flat_map]; [constructor |].
  inversion Hl as [| ? ? Na Nl]; subst.
  apply NoDup_app.
  - apply Hf. now left.
  - apply IH; [exact Nl | intros; apply Hf; now right |].
    intros x x' b Hx Hx'. apply Hd; now right.
  - intros b Hb Hb'. apply in_flat_map in Hb'. destruct Hb' as (a' & Ha' & Hb').
    assert (a = a') by (apply (Hd a a' b); [now left | now right | assumption | assumption]).
    subst a'. contradiction.
Qed.

Lemma cells_NoDup (width height : Z) : NoDup (texture_cells width height).
Proof.
  unfold texture_cells. apply flat_map_NoDup.
  - apply range0_NoDup.
  - intros i _. apply flat_map_NoDup.
    + apply range0_NoDup.
    + intros j _. destruct ((i + j) mod 40 =? 0)%Z; repeat constructor. intros [].
    + intros j j' b _ _ Hb Hb'.
      destruct ((i + j) mod 40 =? 0)%Z; [| contradiction].
      destruct ((i + j') mod 40 =? 0)%Z; [| contradiction].
      destruct Hb as [<- | []]. destruct Hb' as [E | []]. congruence.
  - intros i i' b _ _ Hb Hb'.
    apply in_flat_map in Hb. destruct Hb as (j & _ & Hb).
    apply in_flat_map in Hb'. destruct Hb' as (j' & _ & Hb').
    destruct ((i + j) mod 40 =? 0)%Z; [| contradiction].
    destruct ((i' + j') mod 40 =? 0)%Z; [| contradiction].
    destruct Hb as [<- | []]. destruct Hb' as [E | []]. congruence.
Qed.

Section WithToolkit.
Context {W Img Font : Type} (rt : Runtime) (tk : Toolkit W Img Font).

Lemma draw_texture_returns (cells : list (Z * Z)) :
  (forall img box fill, exists img', rectangle tk img box fill = Return img') ->
  forall overlay, exists overlay', draw_texture tk overlay cells = Return overlay'.
Proof.
  intros R. induction cells as [| cell cells IH]; intros overlay; cbn [draw_texture].
  - now exists overlay.
  - destruct (R overlay (square cell) (255, 255, 255, 25)%Z) as [o E]. rewrite E.
    cbn [and_then]. apply IH.
Qed.

Lemma load_fonts_returns (w : W) :
  exists fonts, load_fonts tk w = Return fonts.
Proof.
  unfold load_fonts, or_else, and_then.
  destruct (truetype tk w font_path 48); [| destruct (load_default tk w); eauto].
  destruct (truetype tk w font_path 36); [| destruct (load_default tk w); eauto].
  destruct (truetype tk w font_path 24); [| destruct (load_default tk w); eauto].
  eauto.
Qed.

End WithToolkit.

End RenderFacts.

(** X18. The texture is a chequerboard of squares on a grid of 20 pixels:
    a square is drawn at the corner [(i, j)] exactly when the corner is
    on the canvas, both coordinates are multiples of 20 and their sum is a
    multiple of 40; no corner is drawn twice. *)
Theorem texture_is_chequerboard :
  forall width height : Z,
    (forall i j,
        In (i, j) (Render.texture_cells width height)
        <-> (0 <= i < width /\ 0 <= j < height
             /\ i mod 20 = 0 /\ j mod 20 = 0 /\ (i + j) mod 40 = 0)%Z)
    /\ NoDup (Render.texture_cells width height).
Proof.
  intros width height. split.
  - intros i j. apply RenderFacts.cells_In.
  - apply RenderFacts.cells_NoDup.
Qed.

(** X19. The squares of the texture never overlap: no pixel is covered by
    the squares of two different corners.  When the width and the height
    are multiples of 20, as they are for every configured entry, every
    pixel of every square lies on the canvas. *)
Theorem texture_squares_apart :
  forall (width height : Z) (c1 c2 : Z * Z) (x y : Z),
    In c1 (Render.texture_cells width height) ->
    In c2 (Render.texture_cells width height) ->
    Render.covers c1 x y ->
    (Render.covers c2 x y -> c1 = c2)
    /\ (width mod 20 = 0 -> height mod 20 = 0 -> 0 <= x < width /\ 0 <= y < height)%Z.
Proof.
  intros width height [i1 j1] [i2 j2] x y H1 H2 C1.
  apply RenderFacts.cells_In in H1. apply RenderFacts.cells_In in H2.
  unfold Render.covers in *. cbn [fst snd] in *. split.
  - intros C2. f_equal; Z.div_mod_to_equations; lia.
  - intros Dw Dh. Z.div_mod_to_equations. lia.
Qed.

(** A run of X19: two squares of a canvas of 800 by 800. *)
Lemma texture_squares_apart_witness :
  (Render.covers (20, 20)%Z 45 5 -> (40, 0)%Z = (20, 20)%Z)
  /\ ((800 mod 20 = 0 -> 800 mod 20 = 0 -> 0 <= 45 < 800 /\ 0 <= 5 < 800)%Z).
Proof.
  apply (@texture_squares_apart 800 800 (40, 0)%Z (20, 20)%Z 45 5).
  - apply RenderFacts.cells_In. repeat split; try reflexivity; lia.
  - apply RenderFacts.cells_In. repeat split; try reflexivity; lia.
  - unfold Render.covers. cbn. lia.
Defined.

Module FontFacts.

Import Render.

Section WithToolkit.
Context {W Img Font : Type} (tk : Toolkit W Img Font).

Lemma draw_centred_returns (img : Img) (width height offset : Z) (label : text)
      (font : option Font) :
  drawing_returns tk ->
  exists img', draw_centred tk img width height offset label font = Return img'.
Proof.
  intros (_ & _ & _ & _ & _ & Hbbox & Htext). unfold draw_centred.
  destruct (Hbbox img (0, 0)%Z label font) as [[[[x0 y0] x1] y1] E]. rewrite E.
  cbn [and_then]. apply Htext.
Qed.

Lemma draw_anchored_returns (img : Img) (width height offset : Z) (label : text) :
  drawing_returns tk ->
  exists img', draw_anchored tk img width height offset label = Return img'.
Proof. intros (_ & _ & _ & _ & _ & _ & Htext). apply Htext. Qed.

Lemma draw_returns (w : W) (config : Config) (rgb : Z * Z * Z) :
  drawing_returns tk -> exists img, draw tk w config rgb = Return img.
Proof.
  intros D. pose proof D as (Hnew & Hdraw & Hrect & Hconv & Hcomp & _ & _).
  unfold draw. destruct rgb as [[r g] b].
  destruct (Hnew (lit "RGB") (width config, height config) [r; g; b]) as [img E1].
  rewrite E1. cbn [and_then]. rewrite Hdraw. cbn [and_then].
  destruct (Hnew (lit "RGBA") (width config, height config) [255; 255; 255; 0]%Z)
    as [overlay E2].
  rewrite E2. cbn [and_then]. rewrite Hdraw. cbn [and_then].
  destruct (RenderFacts.draw_texture_returns tk
              (texture_cells (width config) (height config)) Hrect overlay)
    as [overlay' E3].
  rewrite E3. cbn [and_then].
  destruct (Hconv img (lit "RGBA")) as [rgba E4]. rewrite E4. cbn [and_then].
  destruct (Hcomp rgba overlay') as [mixed E5]. rewrite E5. cbn [and_then].
  destruct (Hconv mixed (lit "RGB")) as [img' E6]. rewrite E6. cbn [and_then].
  rewrite Hdraw. cbn [and_then].
  destruct (RenderFacts.load_fonts_returns tk w) as [[[fl fm] fs] E7].
  rewrite E7. cbn [and_then].
  destruct fl as [fl |].
  - destruct (draw_centred_returns img' (width config) (height config) (-60)
                (str_title tk (dashes_to_blanks (product config))) (Some fl) D) as [i1 F1].
    rewrite F1. cbn [and_then].
    destruct (draw_centred_returns i1 (width config) (height config) 0
                (str_title tk (dashes_to_blanks (variant config))) fm D) as [i2 F2].
    rewrite F2. cbn [and_then]. now apply draw_centred_returns.
  - destruct (draw_anchored_returns img' (width config) (height config) (-30)
                (str_title tk (dashes_to_blanks (product config))) D) as [i1 F1].
    rewrite F1. cbn [and_then].
    destruct (draw_anchored_returns i1 (width config) (height config) 0
                (str_title tk (dashes_to_blanks (variant config))) D) as [i2 F2].
    rewrite F2. cbn [and_then]. now apply draw_anchored_returns.
Qed.

End WithToolkit.

End FontFacts.

(** X20. The three fonts are never mixed, and loading them never raises.
    Either the three [truetype] calls returned and the fonts are theirs;
    or one of them raised, [load_default] returned and all three fonts are
    the default font; or [load_default] raised as well and all three are
    [None].  So when [font_large] is set, [font_medium] and [font_small]
    are set too. *)
Theorem fonts_all_or_none :
  forall (W Img Font : Type) (tk : Toolkit W Img Font) (w : W),
  exists font_large font_medium font_small,
    Render.load_fonts tk w = Return (font_large, font_medium, font_small)
    /\ ((exists a b c,
            truetype tk w Render.font_path 48 = Return a
            /\ truetype tk w Render.font_path 36 = Return b
            /\ truetype tk w Render.font_path 24 = Return c
            /\ (font_large, font_medium, font_small) = (Some a, Some b, Some c))
        \/ (exists d,
               load_default tk w = Return d
               /\ (font_large, font_medium, font_small) = (Some d, Some d, Some d))
        \/ ((exists e, load_default tk w = Raise e)
            /\ (font_large, font_medium, font_small) = (None, None, None)))
    /\ (font_large = None <-> font_medium = None)
    /\ (font_large = None <-> font_small = None).
Proof.
  intros W Img Font tk w. unfold Render.load_fonts, Render.or_else, Render.and_then.
  assert (Fallback :
            exists fl fm fs,
              match
                match load_default tk w with
                | Return a =>
                    match load_default tk w with
                    | Return a0 =>
                        match load_default tk w with
                        | Return a1 => Return (Some a, Some a0, Some a1)
                        | Raise e => Raise e
                        end
                    | Raise e => Raise e
                    end
                | Raise e => Raise e
                end
              with
              | Return a => Return a
              | Raise _ => Return (None, None, None)
              end = Return (fl, fm, fs)
              /\ ((exists d, load_default tk w = Return d
                             /\ (fl, fm, fs) = (Some d, Some d, Some d))
                  \/ ((exists e, load_default tk w = Raise e)
                      /\ (fl, fm, fs) = (None, None, None)))
              /\ (fl = None <-> fm = None) /\ (fl = None <-> fs = None)).
  { destruct (load_default tk w) as [d | e].
    - exists (Some d), (Some d), (Some d). split; [reflexivity |].
      split; [left; now exists d |]. split; split; discriminate.
    - exists None, None, None. split; [reflexivity |].
      split; [right; split; [now exists e | reflexivity] |]. split; split; reflexivity. }
  destruct (truetype tk w Render.font_path 48) as [a | ea].
  2:{ destruct Fallback as (fl & fm & fs & E & C & M & S).
      exists fl, fm, fs. split; [exact E |]. split; [right; exact C | now split]. }
  destruct (truetype tk w Render.font_path 36) as [b | eb].
  2:{ destruct Fallback as (fl & fm & fs & E & C & M & S).
      exists fl, fm, fs. split; [exact E |]. split; [right; exact C | now split]. }
  destruct (truetype tk w Render.font_path 24) as [c | ec].
  2:{ destruct Fallback as (fl & fm & fs & E & C & M & S).
      exists fl, fm, fs. split; [exact E |]. split; [right; exact C | now split]. }
  exists (Some a), (Some b), (Some c). split; [reflexivity |].
  split; [left; now exists a, b, c |]. split; split; discriminate.
Qed.


(** X22. Missing fonts never make [generate_image] fail: when the colour
    is read and the drawing calls of Pillow return, [generate_image]
    returns an image, whatever [truetype] and [load_default] do, and for
    any width and height. *)
Theorem generate_image_survives_fonts :
  forall (W Img Font : Type) (rt : Runtime) (tk : Toolkit W Img Font)
         (w : W) (config : Config) (rgb : Z * Z * Z),
    Render.drawing_returns tk ->
    Generator.hex_to_rgb rt (color config) = Return rgb ->
    exists img, Render.generate_image rt tk w config = Return img.
Proof.
  intros W Img Font rt tk w config rgb D H. unfold Render.generate_image.
  rewrite H. cbn [Render.and_then]. now apply FontFacts.draw_returns.
Qed.

(** A run of X22: no font at all. *)
Lemma generate_image_survives_fonts_witness :
  exists img,
    Render.generate_image Sim.sim_rt (SimDraw.sim_tk false) Examples.bare SimDraw.chefs_mate
    = Return img.
Proof.
  apply (@generate_image_survives_fonts Sim.fs _ Z Sim.sim_rt (SimDraw.sim_tk false)
           Examples.bare SimDraw.chefs_mate (47, 79, 79)%Z).
  - unfold Render.drawing_returns. cbn. repeat split; intros; eexists; reflexivity.
  - vm_compute. reflexivity.
Defined.

(** X23. With [generate_image] spelled out call by call in place of the
    drawing step of [main], an entry is written whenever its colour is
    read, the drawing calls return, [save] returns and the size of the
    file can be read: the fonts have no say in it.  In the turn of such
    an entry [generate_image] returns an image, [save] is called once,
    with that image and the path of the entry, and leaves the world in
    which the turn ends; the size of the file is read in that world;
    the turn adds to the trace the call of [save] and the line for a
    written entry, and [generated] grows by one. *)
Theorem entry_written_without_fonts :
  forall (W Img Font : Type) (rt : Runtime) (os : OS W) (tk : Toolkit W Img Font)
         (save_png : W -> Img -> text -> W * option exn)
         (script_file : text) (config : Config) (g e : Z) (st : proc W)
         (rgb : Z * Z * Z),
    Render.drawing_returns tk ->
    Generator.hex_to_rgb rt (color config) = Return rgb ->
    (forall img, snd (save_png (world st) img
                        (Generator.output_path script_file config)) = None) ->
    (forall img, exists size,
          getsize os (fst (save_png (world st) img
                             (Generator.output_path script_file config)))
                  (Generator.output_path script_file config) = Return size) ->
    exists st' img size,
      Render.generate_image rt tk (world st) config = Return img
      /\ save_png (world st) img (Generator.output_path script_file config)
         = (world st', None)
      /\ getsize os (world st') (Generator.output_path script_file config) = Return size
      /\ Generator.main_item rt os (Render.as_pillow tk save_png) script_file config (g, e) st
         = (st', Return (g + 1, e)%Z)
      /\ trace st'
         = trace st ++ [Save (Generator.output_path script_file config) None;
                        Printed (Generator.done_line rt config size)]
      /\ Entry.turn rt os (Render.as_pillow tk save_png) script_file config (g, e) st
                    (g + 1, e)%Z st' (Entry.Written img size).
Proof.
  intros W Img Font rt os tk save_png script_file config g e st rgb D H Hs Hg.
  rewrite GeneratorFacts.main_item_run, GeneratorFacts.main_try_run, H.
  unfold Render.generate_image. rewrite H. cbn [Render.and_then].
  cbn [draw_image Render.as_pillow].
  destruct (@FontFacts.draw_returns _ _ _ tk (world st) config rgb D) as [img E]. rewrite E.
  cbn [save Render.as_pillow].
  specialize (Hs img). destruct (Hg img) as [size Es]. clear Hg.
  destruct (save_png (world st) img (Generator.output_path script_file config))
    as [w' r] eqn:Sv. cbn [fst snd] in Hs, Es. subst r. rewrite Es.
  exists {| world := w';
            trace := trace st ++ [Save (Generator.output_path script_file config) None;
                                  Printed (Generator.done_line rt config size)] |}.
  exists img, size. cbn [world trace].
  split; [reflexivity |]. split; [exact Sv |]. split; [exact Es |].
  split; [reflexivity |]. split; [reflexivity |].
  unfold Entry.turn, Entry.written, Entry.drawn. cbn [world trace fst snd].
  rewrite <- TurnFacts.file_of_path. cbn [draw_image save Render.as_pillow].
  split; [| reflexivity]. split; [exists rgb; now split |].
  split; [exact Sv |]. split; [exact Es | reflexivity].
Qed.

(** A run of X23: the toolkit without fonts, in an empty world. *)
Lemma entry_written_without_fonts_witness :
  exists st' img size,
    Render.generate_image Sim.sim_rt (SimDraw.sim_tk false)
      (world (Sim.start Examples.bare)) SimDraw.chefs_mate = Return img
    /\ SimDraw.save_png (world (Sim.start Examples.bare)) img
         (Generator.output_path Examples.script_file SimDraw.chefs_mate)
       = (world st', None)
    /\ getsize Sim.sim_os (world st')
         (Generator.output_path Examples.script_file SimDraw.chefs_mate) = Return size
    /\ Generator.main_item Sim.sim_rt Sim.sim_os
         (Render.as_pillow (SimDraw.sim_tk false) SimDraw.save_png)
         Examples.script_file SimDraw.chefs_mate (0, 0)%Z (Sim.start Examples.bare)
       = (st', Return (0 + 1, 0)%Z)
    /\ trace st'
       = trace (Sim.start Examples.bare)
         ++ [Save (Generator.output_path Examples.script_file SimDraw.chefs_mate) None;
             Printed (Generator.done_line Sim.sim_rt SimDraw.chefs_mate size)]
    /\ Entry.turn Sim.sim_rt Sim.sim_os
         (Render.as_pillow (SimDraw.sim_tk false) SimDraw.save_png)
         Examples.script_file SimDraw.chefs_mate (0, 0)%Z (Sim.start Examples.bare)
         (0 + 1, 0)%Z st' (Entry.Written img size).
Proof.
  apply (@entry_written_without_fonts Sim.fs _ Z Sim.sim_rt Sim.sim_os
           (SimDraw.sim_tk false) SimDraw.save_png Examples.script_file
           SimDraw.chefs_mate 0%Z 0%Z (Sim.start Examples.bare) (47, 79, 79)%Z).
  - unfold Render.drawing_returns. cbn. repeat split; intros; eexists; reflexivity.
  - vm_compute. reflexivity.
  - intros img. reflexivity.
  - intros img. eexists. vm_compute. reflexivity.
Defined.

(** ** Runs of generate_image *)

Module RenderChecks.

Example title_of_product :
  SimDraw.title_from false (Render.dashes_to_blanks (lit "wool-dryer-balls"))
  = lit "Wool Dryer Balls".
Proof. reflexivity. Qed.

Example cells_small : Render.texture_cells 50 30 = [(0, 0); (20, 20); (40, 0)]%Z.
Proof. reflexivity. Qed.

Example cells_count : length (Render.texture_cells 800 800) = 800.
Proof. vm_compute. reflexivity. Qed.

(** Without fonts the three labels are anchored around the middle. *)
Example render_without_fonts :
  Render.generate_image Sim.sim_rt (SimDraw.sim_tk false) Examples.bare SimDraw.chefs_mate
  = Return [((400, 470)%Z, lit "Chefs Mate");
            ((400, 500)%Z, lit "Classic Stripe");
            ((400, 530)%Z, lit "Image 2")].
Proof. vm_compute. reflexivity. Qed.

(** With the default font each label starts half its width left of the
    middle. *)
Example render_with_default_font :
  Render.generate_image Sim.sim_rt (SimDraw.sim_tk true) Examples.bare SimDraw.chefs_mate
  = Return [((370, 440)%Z, lit "Chefs Mate");
            ((358, 500)%Z, lit "Classic Stripe");
            ((379, 560)%Z, lit "Image 2")].
Proof. vm_compute. reflexivity. Qed.

Example fonts_of_sim :
  Render.load_fonts (SimDraw.sim_tk true) Examples.bare = Return (Some 6, Some 6, Some 6)%Z
  /\ Render.load_fonts (SimDraw.sim_tk false) Examples.bare = Return (None, None, None).
Proof. split; reflexivity. Qed.

Example five_characters :
  Generator.hex_to_rgb Sim.sim_rt (lit "12345") = Return (18, 52, 5)%Z.
Proof. vm_compute. reflexivity. Qed.

Example eight_characters :
  Generator.hex_to_rgb Sim.sim_rt (lit "##FF000080") = Return (255, 0, 0)%Z.
Proof. vm_compute. reflexivity. Qed.

End RenderChecks.
